(** * munki updatecheck: the manifest/catalog resolver

    A shallow embedding of [code/client/munkilib/updatecheck.py]:
    the catalog index ([makeCatalogDB]), name/version splitting
    ([nameAndVersion], [trimVersionString]), item selection
    ([getItemDetail], [getAllItemsWithName]), installed-state detection,
    the recursive install and removal resolvers ([processInstall],
    [processRemoval], [processManagedUpdate]) and the force-install check
    ([checkForceInstallPackages]).

    Python values read from property lists are modelled by [pval];
    dictionaries are insertion-ordered association lists; a Python
    exception is the [Raise] outcome of the [res] monad; the recursive
    resolvers take a fuel argument because the source recursion is not
    bounded by any structural measure. *)

From Stdlib Require Import String Ascii List ZArith Bool Arith Lia.
From Stdlib Require Import DecimalString.
Import ListNotations.
Open Scope string_scope.
Open Scope list_scope.

Set Implicit Arguments.
Set Warnings "-register-all".

(* ================================================================= *)
(** ** Outcomes of Python code *)

(** The exceptions that the modelled code can let escape. *)
Inductive exn : Type :=
| IndexError
| KeyError (key : string)
| TypeError
| AttributeError
| ValueError
| PlistError.

Inductive res (A : Type) : Type :=
| Ok (a : A)
| Raise (e : exn)
| OutOfFuel.

Arguments Ok {A} a.
Arguments Raise {A} e.
Arguments OutOfFuel {A}.

Definition bind {A B : Type} (m : res A) (k : A -> res B) : res B :=
  match m with
  | Ok a => k a
  | Raise e => Raise e
  | OutOfFuel => OutOfFuel
  end.

Notation "x <- m ;; k" := (bind m (fun x => k))
  (at level 61, m at next level, right associativity).
Notation "' pat <- m ;; k" := (bind m (fun x => match x with pat => k end))
  (at level 61, pat pattern, m at next level, right associativity).

(** A [for] loop whose body may raise: the accumulator is threaded from
    left to right and the first exception aborts the loop. *)
Fixpoint forM {A S : Type} (body : S -> A -> res S) (xs : list A) (s : S)
  : res S :=
  match xs with
  | [] => Ok s
  | x :: xs' => s' <- body s x ;; forM body xs' s'
  end.

(* ================================================================= *)
(** ** Python string operations *)

Module PyStr.

Definition is_digit (c : ascii) : bool :=
  let n := nat_of_ascii c in (48 <=? n)%nat && (n <=? 57)%nat.

(** [s.split(sep)] for a non-empty [sep]: non-overlapping occurrences are
    consumed from left to right; [skip] counts the characters of an
    occurrence that are still to be dropped. *)
Fixpoint split_go (sep : string) (skip : nat) (cur : string) (s : string)
  : list string :=
  match s with
  | EmptyString => [cur]
  | String c s' =>
      match skip with
      | S k => split_go sep k cur s'
      | O =>
          if prefix sep s
          then cur :: split_go sep (String.length sep - 1) "" s'
          else split_go sep 0 (cur ++ String c "") s'
      end
  end.

Definition split (sep s : string) : list string := split_go sep 0 "" s.

(** [s.count(sub)]: the number of non-overlapping occurrences. *)
Fixpoint count_go (sub : string) (skip : nat) (s : string) : nat :=
  match s with
  | EmptyString => 0
  | String _ s' =>
      match skip with
      | S k => count_go sub k s'
      | O =>
          if prefix sub s
          then S (count_go sub (String.length sub - 1) s')
          else count_go sub 0 s'
      end
  end.

Definition count (sub s : string) : nat := count_go sub 0 s.

(** [sep.join(chunks)] *)
Definition join (sep : string) (chunks : list string) : string :=
  String.concat sep chunks.

(** [sub in s] on two strings *)
Fixpoint contains (sub s : string) : bool :=
  prefix sub s ||
  match s with
  | EmptyString => false
  | String _ s' => contains sub s'
  end.

(** [s.startswith(p)] *)
Definition startswith (p s : string) : bool := prefix p s.

(** [os.path.split(p)[1]]: what follows the last slash. *)
Definition basename (p : string) : string := last (split "/" p) "".

End PyStr.

(* ================================================================= *)
(** ** nameAndVersion and trimVersionString *)

(** One iteration of the loop [for delim in ('--', '-')]: [Some] is the
    [return (name, vers)], [None] falls through to the next delimiter, and
    [vers[0]] on an empty [vers] raises. *)
Definition nameAndVersion_step (aString delim : string)
  : res (option (string * string)) :=
  if (0 <? PyStr.count delim aString)%nat then
    let chunks := PyStr.split delim aString in
    let vers := last chunks "" in
    let name := PyStr.join delim (removelast chunks) in
    match vers with
    | EmptyString => Raise IndexError
    | String c _ =>
        if PyStr.is_digit c then Ok (Some (name, vers)) else Ok None
    end
  else Ok None.

Fixpoint nameAndVersion_loop (delims : list string) (aString : string)
  : res (string * string) :=
  match delims with
  | [] => Ok (aString, "")
  | delim :: rest =>
      r <- nameAndVersion_step aString delim ;;
      match r with
      | Some p => Ok p
      | None => nameAndVersion_loop rest aString
      end
  end.

Definition nameAndVersion (aString : string) : res (string * string) :=
  nameAndVersion_loop ["--"; "-"] aString.

(** [while len(version_parts) > 2 and version_parts[-1] == '0': del ...],
    written on the reversed list of parts. *)
Fixpoint trim_rev (n : nat) (rparts : list string) : list string :=
  match rparts with
  | p :: rest =>
      if (2 <? n)%nat && String.eqb p "0"
      then trim_rev (pred n) rest
      else rparts
  | [] => []
  end.

Definition trimVersionString (version_string : string) : string :=
  if String.eqb version_string "" then ""
  else
    let version_parts := PyStr.split "." version_string in
    PyStr.join "."
      (rev (trim_rev (List.length version_parts) (rev version_parts))).

(* ================================================================= *)
(** ** Property-list values and dictionaries *)

(** The values a property list holds, and [None], which the code stores
    in the records it builds.  Dictionaries keep their keys in insertion
    order; every dictionary built here has distinct keys. *)
Inductive pval : Type :=
| PNone
| PStr (s : string)
| PBool (b : bool)
| PInt (z : Z)
| PDate (t : Z)
| PList (l : list pval)
| PDict (d : list (string * pval)).

Definition dict : Type := list (string * pval).

(** Association lists with string keys: [d.get(k)], [k in d], [d[k] = v]. *)
Fixpoint aget {V : Type} (k : string) (d : list (string * V)) : option V :=
  match d with
  | [] => None
  | (k', v) :: d' => if String.eqb k k' then Some v else aget k d'
  end.

Definition ahas {V : Type} (k : string) (d : list (string * V)) : bool :=
  match aget k d with Some _ => true | None => false end.

Fixpoint aset {V : Type} (k : string) (v : V) (d : list (string * V))
  : list (string * V) :=
  match d with
  | [] => [(k, v)]
  | (k', v') :: d' =>
      if String.eqb k k' then (k, v) :: d' else (k', v') :: aset k v d'
  end.

Definition akeys {V : Type} (d : list (string * V)) : list string :=
  map fst d.

(** [d.get(k)] *)
Definition dget (k : string) (d : dict) : pval :=
  match aget k d with Some v => v | None => PNone end.

(** [d.get(k, default)] *)
Definition get_default (k : string) (default : pval) (d : dict) : pval :=
  match aget k d with Some v => v | None => default end.

(** [d[k]] *)
Definition getitem (k : string) (d : dict) : res pval :=
  match aget k d with Some v => Ok v | None => Raise (KeyError k) end.

(** Python truth value *)
Definition truthy (v : pval) : bool :=
  match v with
  | PNone => false
  | PStr s => negb (String.eqb s "")
  | PBool b => b
  | PInt z => negb (Z.eqb z 0)
  | PDate _ => true
  | PList l => match l with [] => false | _ => true end
  | PDict d => match d with [] => false | _ => true end
  end.

(** Python [==] on plist values ([True == 1]; dictionaries compare
    regardless of key order). *)
Fixpoint pval_eqb (a b : pval) {struct a} : bool :=
  match a, b with
  | PNone, PNone => true
  | PStr s, PStr t => String.eqb s t
  | PBool x, PBool y => Bool.eqb x y
  | PInt x, PInt y => Z.eqb x y
  | PBool x, PInt y => Z.eqb (if x then 1 else 0) y
  | PInt x, PBool y => Z.eqb x (if y then 1 else 0)
  | PDate x, PDate y => Z.eqb x y
  | PList l, PList m =>
      (fix leq (l m : list pval) {struct l} : bool :=
         match l, m with
         | [], [] => true
         | x :: l', y :: m' => pval_eqb x y && leq l' m'
         | _, _ => false
         end) l m
  | PDict d, PDict e =>
      Nat.eqb (List.length d) (List.length e) &&
      (fix deq (d : list (string * pval)) {struct d} : bool :=
         match d with
         | [] => true
         | (k, v) :: d' =>
             match aget k e with
             | Some v' => pval_eqb v v'
             | None => false
             end && deq d'
         end) d
  | _, _ => false
  end.

Definition dict_eqb (a b : dict) : bool := pval_eqb (PDict a) (PDict b).

Definition str_in (x : string) (l : list string) : bool :=
  existsb (String.eqb x) l.

(** [x in container] *)
Definition py_in (x : pval) (container : pval) : res bool :=
  match container with
  | PList l => Ok (existsb (pval_eqb x) l)
  | PDict d => Ok (match x with PStr k => ahas k d | _ => false end)
  | PStr s => match x with
              | PStr t => Ok (PyStr.contains t s)
              | _ => Raise TypeError
              end
  | _ => Raise TypeError
  end.

Fixpoint chars (s : string) : list pval :=
  match s with
  | EmptyString => []
  | String c s' => PStr (String c "") :: chars s'
  end.

(** [for x in v] *)
Definition py_iter (v : pval) : res (list pval) :=
  match v with
  | PList l => Ok l
  | PDict d => Ok (map PStr (akeys d))
  | PStr s => Ok (chars s)
  | _ => Raise TypeError
  end.

(** [v[k]] on a value that should be a dictionary *)
Definition py_getitem (v : pval) (k : string) : res pval :=
  match v with
  | PDict d => getitem k d
  | _ => Raise TypeError
  end.

(** [str(v)], as ['%s' % v] and [str.join] use it; the printed form of
    dates, lists and dictionaries is outside the model. *)
Definition py_str (v : pval) : res string :=
  match v with
  | PNone => Ok "None"
  | PStr s => Ok s
  | PBool true => Ok "True"
  | PBool false => Ok "False"
  | PInt z => Ok (NilZero.string_of_int (Z.to_int z))
  | _ => Raise TypeError
  end.

(** The argument of [os.path.split], [urlparse] or [str.startswith]: a
    value that is not a string has no string methods. *)
Definition str_method (v : pval) : res string :=
  match v with PStr s => Ok s | _ => Raise AttributeError end.

(** Names, versions and package ids index tables and are spliced into
    strings; the model covers the case where they are strings and reports
    any other plist type as [TypeError]. *)
Definition as_str (v : pval) : res string :=
  match v with PStr s => Ok s | _ => Raise TypeError end.

(** [list(set(l))], keeping the first occurrence of each element (the
    order Python gives is unspecified). *)
Fixpoint uniq {A : Type} (eqb : A -> A -> bool) (l : list A) : list A :=
  match l with
  | [] => []
  | x :: l' => x :: filter (fun y => negb (eqb x y)) (uniq eqb l')
  end.

(** [l.sort(cmp)]: a stable insertion sort. *)
Fixpoint sort_insert {A : Type} (cmp : A -> A -> comparison) (x : A)
  (l : list A) : list A :=
  match l with
  | [] => [x]
  | y :: l' =>
      match cmp x y with
      | Gt => y :: sort_insert cmp x l'
      | _ => x :: l
      end
  end.

Definition py_sort {A : Type} (cmp : A -> A -> comparison) (l : list A)
  : list A :=
  fold_right (sort_insert cmp) [] l.

(** Replace the element at an index that is known to be in range. *)
Fixpoint list_set {A : Type} (i : nat) (x : A) (l : list A) : list A :=
  match l, i with
  | [], _ => []
  | _ :: l', O => x :: l'
  | y :: l', S j => y :: list_set j x l'
  end.

(* ================================================================= *)
(** ** makeCatalogDB *)

(** [name -> version -> [itemindex]] and [packageid -> version -> [itemindex]] *)
Definition table : Type := list (string * list (string * list nat)).

Definition table_add (k1 k2 : string) (itemindex : nat) (t : table) : table :=
  let inner := match aget k1 t with Some i => i | None => [] end in
  let l := match aget k2 inner with Some l => l | None => [] end in
  aset k1 (aset k2 (l ++ [itemindex]) inner) t.

(** The catalog database.  [updaters] holds references to objects of the
    catalog list, modelled as their positions in [items]; [items] is the
    list that was passed in (the same objects). *)
Record pkgdb : Type := {
  named : table;
  receipts : table;
  updaters : list nat;
  autoremoveitems : list pval;
  items : list dict
}.

Definition index_receipt (itemindex : nat) (pkgid_table : table)
  (receipt : pval) : res table :=
  has_id <- py_in (PStr "packageid") receipt ;;
  has_vers <- (if has_id then py_in (PStr "version") receipt else Ok false) ;;
  if has_id && has_vers then
    pkgid <- (v <- py_getitem receipt "packageid" ;; as_str v) ;;
    vers <- (v <- py_getitem receipt "version" ;; as_str v) ;;
    Ok (table_add pkgid vers itemindex pkgid_table)
  else Ok pkgid_table.

Definition index_item (tables : table * table) (entry : nat * dict)
  : res (table * table) :=
  let '(name_table, pkgid_table) := tables in
  let '(itemindex, item) := entry in
  name <- as_str (get_default "name" (PStr "NO NAME") item) ;;
  vers <- match get_default "version" (PStr "NO VERSION") item with
          | PStr s => Ok (trimVersionString s)
          | _ => Raise AttributeError
          end ;;
  let name_table := table_add name vers itemindex name_table in
  pkgid_table <-
    match aget "receipts" item with
    | Some r =>
        rs <- py_iter r ;; forM (index_receipt itemindex) rs pkgid_table
    | None => Ok pkgid_table
    end ;;
  Ok (name_table, pkgid_table).

Definition enumerate {A : Type} (l : list A) : list (nat * A) :=
  combine (seq 0 (List.length l)) l.

(** [if isinstance(update['update_for'], basestring):
       update['update_for'] = [update['update_for']]]
    on the object at position [u] of the store. *)
Definition fix_update_for (update : dict) : dict :=
  match aget "update_for" update with
  | Some (PStr s) => aset "update_for" (PList [PStr s]) update
  | _ => update
  end.

Definition fix_updater (store : list dict) (u : nat) : list dict :=
  match nth_error store u with
  | Some update => list_set u (fix_update_for update) store
  | None => store
  end.

Definition has_update_for (item : dict) : bool :=
  truthy (dget "update_for" item).

(** Returns the catalog list as the call leaves it, and the returned
    database (or the exception). *)
Definition makeCatalogDB (catalogitems : list dict)
  : list dict * res pkgdb :=
  match forM index_item (enumerate catalogitems) ([], []) with
  | Ok (name_table, pkgid_table) =>
      let updaters :=
        map fst (filter (fun e => has_update_for (snd e))
                        (enumerate catalogitems)) in
      let store := fold_left fix_updater updaters catalogitems in
      let autoremoveitems :=
        uniq pval_eqb
          (map (dget "name")
               (filter (fun item => truthy (dget "autoremove" item))
                       store)) in
      (store,
       Ok {| named := name_table;
             receipts := pkgid_table;
             updaters := updaters;
             autoremoveitems := autoremoveitems;
             items := store |})
  | Raise e => (catalogitems, Raise e)
  | OutOfFuel => (catalogitems, OutOfFuel)
  end.

(* ================================================================= *)
(** ** Globals, collaborators and the resolution state *)

(** The module globals [CATALOG] and [MACHINE]. *)
Record globals : Type := {
  CATALOG : list (string * pkgdb);
  MACHINE : dict
}.

(** What a detection helper answers: its integer, or [munkicommon.Error]. *)
Inductive cmp_result : Type :=
| CmpVal (z : Z)
| CmpError.

(** What [download_installeritem] does: it returns whether the item was
    downloaded (and how many seconds that took), or raises one of the
    [fetch] errors that its callers catch. *)
Inductive download_result : Type :=
| Downloaded (changed : bool) (seconds : Z)
| PackageVerificationError
| CurlDownloadError (errmsg : string)
| MunkiDownloadError (errmsg : string).

(** [PKGDATA] once [analyzeInstalledPkgs] has filled it. *)
Record pkgdata : Type := {
  receipts_for_name : list (string * list string);
  installed_names : list string;
  pkg_references : list (string * list string)
}.

(** [installinfo] *)
Record installinfo : Type := {
  processed_installs : list string;
  processed_uninstalls : list string;
  managed_updates : list string;
  optional_installs : list dict;
  managed_installs : list dict;
  removals : list dict
}.

(** The collaborators outside [updatecheck.py]: [munkicommon]'s version
    ordering, the disk, the receipts database, Apple updates and the
    download machinery, over a type [W] of machine states. *)
Class Oracles (W : Type) : Type := {
  (** [cmp(MunkiLooseVersion(a), MunkiLooseVersion(b))] *)
  looseCompare : pval -> pval -> comparison;
  compareItemVersion : W -> pval -> cmp_result;
  compareReceiptVersion : W -> pval -> cmp_result;
  softwareUpdateList : W -> list string;
  getInstalledVersion : W -> dict -> string;
  download_installeritem :
    W -> dict -> installinfo -> bool -> download_result * W;
  path_exists : W -> string -> bool;
  path_executable : W -> string -> bool;
  (** the keys of [INSTALLEDPKGS] *)
  installed_pkgids : W -> list string;
  (** [FoundationPlist.readPlist] on a file of the catalogs directory *)
  read_catalog : W -> string -> option (list dict);
  (** [urlparse.urlparse(url).path] *)
  url_path : string -> string;
  stopRequested : W -> bool
}.

Record state (W : Type) : Type := {
  info : installinfo;
  world : W;
  PKGDATA : option pkgdata
}.

Definition set_processed_installs (l : list string) (i : installinfo) :=
  {| processed_installs := l;
     processed_uninstalls := processed_uninstalls i;
     managed_updates := managed_updates i;
     optional_installs := optional_installs i;
     managed_installs := managed_installs i;
     removals := removals i |}.

Definition set_processed_uninstalls (l : list string) (i : installinfo) :=
  {| processed_installs := processed_installs i;
     processed_uninstalls := l;
     managed_updates := managed_updates i;
     optional_installs := optional_installs i;
     managed_installs := managed_installs i;
     removals := removals i |}.

Definition set_managed_updates (l : list string) (i : installinfo) :=
  {| processed_installs := processed_installs i;
     processed_uninstalls := processed_uninstalls i;
     managed_updates := l;
     optional_installs := optional_installs i;
     managed_installs := managed_installs i;
     removals := removals i |}.

Definition set_managed_installs (l : list dict) (i : installinfo) :=
  {| processed_installs := processed_installs i;
     processed_uninstalls := processed_uninstalls i;
     managed_updates := managed_updates i;
     optional_installs := optional_installs i;
     managed_installs := l;
     removals := removals i |}.

Definition set_removals (l : list dict) (i : installinfo) :=
  {| processed_installs := processed_installs i;
     processed_uninstalls := processed_uninstalls i;
     managed_updates := managed_updates i;
     optional_installs := optional_installs i;
     managed_installs := managed_installs i;
     removals := l |}.

Definition with_info {W : Type} (f : installinfo -> installinfo)
  (st : state W) : state W :=
  {| info := f (info st); world := world st; PKGDATA := PKGDATA st |}.

Definition with_world {W : Type} (w : W) (st : state W) : state W :=
  {| info := info st; world := w; PKGDATA := PKGDATA st |}.

Definition with_pkgdata {W : Type} (p : option pkgdata) (st : state W)
  : state W :=
  {| info := info st; world := world st; PKGDATA := p |}.

(** The [installinfo] record [check] starts a run with. *)
Definition empty_installinfo : installinfo :=
  {| processed_installs := [];
     processed_uninstalls := [];
     managed_updates := [];
     optional_installs := [];
     managed_installs := [];
     removals := [] |}.

Section Resolver.

Context {W : Type} {collab : Oracles W}.
Variable G : globals.

(* =============================================================== *)
(** ** compareVersions and isItemInInstallInfo *)

Definition compareVersions (thisvers thatvers : pval) : Z :=
  match looseCompare thisvers thatvers with
  | Lt => -1
  | Eq => 1
  | Gt => 2
  end.

(** The body of the loop of [isItemInInstallInfo]; a [KeyError] from
    [item['name']] or [manifestitem_pl['name']] is caught and the entry
    skipped. *)
Definition install_info_match (manifestitem_pl : dict) (vers : pval)
  (item : dict) : bool :=
  match aget "name" item, aget "name" manifestitem_pl with
  | Some n, Some n' =>
      pval_eqb n n' &&
      (negb (truthy vers)
       || truthy (dget "installed" item)
       || (let c := compareVersions (dget "version_to_install" item) vers in
           Z.eqb c 1 || Z.eqb c 2))
  | _, _ => false
  end.

Definition isItemInInstallInfo (manifestitem_pl : dict) (thelist : list dict)
  (vers : pval) : bool :=
  existsb (install_info_match manifestitem_pl vers) thelist.

(* =============================================================== *)
(** ** getItemDetail and getAllItemsWithName *)

Definition compare_version_keys (a b : string) : comparison :=
  looseCompare (PStr b) (PStr a).

(** The OS-version and architecture tests made on a candidate item; the
    debug messages read [item['name']] and [item['version']]. *)
Definition item_eligible (item : dict) : res bool :=
  min_ok <-
    (if truthy (get_default "minimum_os_version" (PStr "") item) then
       min_os_vers <- getitem "minimum_os_version" item ;;
       _ <- getitem "name" item ;;
       _ <- getitem "version" item ;;
       os_vers <- getitem "os_vers" (MACHINE G) ;;
       Ok (match looseCompare os_vers min_os_vers with
           | Lt => false
           | _ => true
           end)
     else Ok true) ;;
  if negb min_ok then Ok false else
  max_ok <-
    (if truthy (get_default "maximum_os_version" (PStr "") item) then
       max_os_vers <- getitem "maximum_os_version" item ;;
       _ <- getitem "name" item ;;
       _ <- getitem "version" item ;;
       os_vers <- getitem "os_vers" (MACHINE G) ;;
       Ok (match looseCompare os_vers max_os_vers with
           | Gt => false
           | _ => true
           end)
     else Ok true) ;;
  if negb max_ok then Ok false else
  arch_ok <-
    match aget "supported_architectures" item with
    | Some archs =>
        _ <- getitem "name" item ;;
        _ <- getitem "version" item ;;
        arch <- getitem "arch" (MACHINE G) ;;
        l <- py_iter archs ;;
        Ok (existsb (fun a => pval_eqb a arch) l)
    | None => Ok true
    end ;;
  if negb arch_ok then Ok false else
  _ <- getitem "name" item ;;
  _ <- getitem "version" item ;;
  Ok true.

(** [for index in indexlist: ... return item] *)
Fixpoint first_eligible (catalogitems : list dict) (indexlist : list nat)
  : res (option dict) :=
  match indexlist with
  | [] => Ok None
  | index :: rest =>
      match nth_error catalogitems index with
      | None => Raise IndexError
      | Some item =>
          ok <- item_eligible item ;;
          if ok then Ok (Some item) else first_eligible catalogitems rest
      end
  end.

Definition candidate_indexes (vers : string)
  (itemsmatchingname : list (string * list nat)) : list nat :=
  if String.eqb vers "latest" then
    flat_map
      (fun versionkey =>
         match aget versionkey itemsmatchingname with
         | Some l => l
         | None => []
         end)
      (py_sort compare_version_keys (akeys itemsmatchingname))
  else
    match aget vers itemsmatchingname with
    | Some l => l
    | None => []
    end.

(** [for catalogname in cataloglist: ...] *)
Fixpoint getItemDetail_loop (name vers : string) (cataloglist : list string)
  : res (option dict) :=
  match cataloglist with
  | [] => Ok None
  | catalogname :: rest =>
      match aget catalogname (CATALOG G) with
      | None => getItemDetail_loop name vers rest
      | Some db =>
          match aget name (named db) with
          | None => getItemDetail_loop name vers rest
          | Some itemsmatchingname =>
              r <- first_eligible (items db)
                     (candidate_indexes vers itemsmatchingname) ;;
              match r with
              | Some item => Ok (Some item)
              | None => getItemDetail_loop name vers rest
              end
          end
      end
  end.

Definition getItemDetail (name : string) (cataloglist : list string)
  (vers : string) : res (option dict) :=
  '(name, includedversion) <- nameAndVersion name ;;
  let vers :=
    if String.eqb vers "" then
      (if String.eqb includedversion "" then vers else includedversion)
    else vers in
  let vers :=
    if String.eqb vers "" then "latest" else trimVersionString vers in
  getItemDetail_loop name vers cataloglist.

Definition compare_item_versions (a b : dict) : comparison :=
  looseCompare (dget "version" b) (dget "version" a).

(** [for index in indexlist: ... if not thisitem in itemlist: append] *)
Fixpoint add_items (catalogitems : list dict) (indexlist : list nat)
  (itemlist : list dict) : res (list dict) :=
  match indexlist with
  | [] => Ok itemlist
  | index :: rest =>
      match nth_error catalogitems index with
      | None => Raise IndexError
      | Some thisitem =>
          if existsb (dict_eqb thisitem) itemlist
          then add_items catalogitems rest itemlist
          else
            _ <- getitem "version" thisitem ;;
            add_items catalogitems rest (itemlist ++ [thisitem])
      end
  end.

Definition add_versions (catalogitems : list dict) (itemlist : list dict)
  (entry : string * list nat) : res (list dict) :=
  let '(vers, indexlist) := entry in
  if String.eqb vers "latest" then Ok itemlist
  else add_items catalogitems indexlist itemlist.

Definition add_catalog (name : string) (itemlist : list dict)
  (catalogname : string) : res (list dict) :=
  match aget catalogname (CATALOG G) with
  | None => Ok itemlist
  | Some db =>
      match aget name (named db) with
      | None => Ok itemlist
      | Some versionsmatchingname =>
          forM (add_versions (items db)) versionsmatchingname itemlist
      end
  end.

Definition getAllItemsWithName (name : string) (cataloglist : list string)
  : res (list dict) :=
  '(name, _) <- nameAndVersion name ;;
  itemlist <- forM (add_catalog name) cataloglist [] ;;
  Ok (py_sort compare_item_versions itemlist).

(* =============================================================== *)
(** ** installedState, someVersionInstalled *)

(** [for item in ...: comparison = compare(item); ...] of
    [installedState]. *)
Fixpoint installed_loop (compare : pval -> cmp_result) (l : list pval)
  (foundnewer : bool) : Z :=
  match l with
  | [] => if foundnewer then 2 else 1
  | item :: rest =>
      match compare item with
      | CmpError => 0
      | CmpVal comparison =>
          if Z.eqb comparison (-1) || Z.eqb comparison 0 then 0
          else installed_loop compare rest
                 (foundnewer || Z.eqb comparison 2)
      end
  end.

Definition installedState (w : W) (item_pl : dict) : res Z :=
  if truthy (dget "softwareupdatename" item_pl) then
    n <- getitem "softwareupdatename" item_pl ;;
    if existsb (pval_eqb n) (map PStr (softwareUpdateList w))
    then Ok 0%Z else Ok 1%Z
  else if truthy (dget "installs" item_pl) then
    installitems <- (v <- getitem "installs" item_pl ;; py_iter v) ;;
    Ok (installed_loop (compareItemVersion w) installitems false)
  else if ahas "receipts" item_pl then
    rs <- (v <- getitem "receipts" item_pl ;; py_iter v) ;;
    Ok (installed_loop (compareReceiptVersion w) rs false)
  else Ok 1%Z.

(** [for item in ...: if compare(item) == 0: return False] *)
Fixpoint some_version_loop (compare : pval -> cmp_result) (l : list pval)
  : bool :=
  match l with
  | [] => true
  | item :: rest =>
      match compare item with
      | CmpError => false
      | CmpVal c => if Z.eqb c 0 then false
                    else some_version_loop compare rest
      end
  end.

Definition someVersionInstalled (w : W) (item_pl : dict) : res bool :=
  if truthy (dget "installs" item_pl) then
    installitems <- (v <- getitem "installs" item_pl ;; py_iter v) ;;
    Ok (some_version_loop (compareItemVersion w) installitems)
  else if ahas "receipts" item_pl then
    rs <- (v <- getitem "receipts" item_pl ;; py_iter v) ;;
    Ok (some_version_loop (compareReceiptVersion w) rs)
  else Ok true.


(* =============================================================== *)
(** ** analyzeInstalledPkgs, evidenceThisIsInstalled *)

Definition addPackageids_receipt (ids : list string) (receipt : pval)
  : res (list string) :=
  has_id <- py_in (PStr "packageid") receipt ;;
  if has_id then
    pkgid <- (v <- py_getitem receipt "packageid" ;; as_str v) ;;
    Ok (if str_in pkgid ids then ids else ids ++ [pkgid])
  else Ok ids.

Definition addPackageids_item (pkgid_table : list (string * list string))
  (item : dict) : res (list (string * list string)) :=
  let name := dget "name" item in
  if negb (truthy name) then Ok pkgid_table
  else if truthy (dget "receipts" item) then
    name <- as_str name ;;
    rs <- (v <- getitem "receipts" item ;; py_iter v) ;;
    let ids := match aget name pkgid_table with
               | Some l => l
               | None => []
               end in
    ids' <- forM addPackageids_receipt rs ids ;;
    Ok (aset name ids' pkgid_table)
  else Ok pkgid_table.

Definition addPackageids (catalogitems : list dict)
  (pkgid_table : list (string * list string))
  : res (list (string * list string)) :=
  forM addPackageids_item catalogitems pkgid_table.

(** [d[k]] on one of the tables of [analyzeInstalledPkgs] *)
Definition lookup (k : string) (d : list (string * list string))
  : res (list string) :=
  match aget k d with Some l => Ok l | None => Raise (KeyError k) end.

(** First loop of [analyzeInstalledPkgs]: the accumulator is
    [(installed, partiallyinstalled, installedpkgsmatchedtoname)]. *)
Definition classify_name (installedpkgs : list string)
  (acc : list string * list string * list (string * list string))
  (entry : string * list string)
  : list string * list string * list (string * list string) :=
  let '(installed, partiallyinstalled, matched) := acc in
  let '(name, pkgs) := entry in
  let found := filter (fun pkg => str_in pkg installedpkgs) pkgs in
  let matched := match found with
                 | [] => matched
                 | _ => aset name found matched
                 end in
  if forallb (fun pkg => str_in pkg installedpkgs) pkgs
  then (installed ++ [name], partiallyinstalled, matched)
  else if existsb (fun pkg => str_in pkg installedpkgs) pkgs
  then (installed, partiallyinstalled ++ [name], matched)
  else (installed, partiallyinstalled, matched).

(** Second loop: a partially installed name with a package of its own
    counts as installed. *)
Definition promote_name (partiallyinstalled : list string)
  (matched : list (string * list string)) (installed : list string)
  (name : string) : res (list string) :=
  pkgsforthisname <- lookup name matched ;;
  allotherpkgs <-
    forM (fun acc othername =>
            l <- lookup othername matched ;; Ok (acc ++ l))
         installed [] ;;
  allotherpkgs <-
    forM (fun acc othername =>
            if String.eqb othername name then Ok acc
            else l <- lookup othername matched ;; Ok (acc ++ l))
         partiallyinstalled allotherpkgs ;;
  let uniquepkgs :=
    filter (fun pkg => negb (str_in pkg allotherpkgs)) pkgsforthisname in
  match uniquepkgs with
  | [] => Ok installed
  | _ => Ok (installed ++ [name])
  end.

Definition add_reference (name : string)
  (references : list (string * list string)) (pkg : string)
  : list (string * list string) :=
  let l := match aget pkg references with Some l => l | None => [] end in
  aset pkg (l ++ [name]) references.

Definition analyzeInstalledPkgs (w : W) : res pkgdata :=
  managed_pkgids <-
    forM (fun tbl (entry : string * pkgdb) =>
            addPackageids (items (snd entry)) tbl)
         (CATALOG G) [] ;;
  let '(installed, partiallyinstalled, matched) :=
    fold_left (classify_name (installed_pkgids w)) managed_pkgids
              ([], [], []) in
  installed <-
    forM (promote_name partiallyinstalled matched)
         partiallyinstalled installed ;;
  references <-
    forM (fun refs name =>
            pkgs <- lookup name matched ;;
            Ok (fold_left (add_reference name) pkgs refs))
         installed [] ;;
  Ok {| receipts_for_name := matched;
        installed_names := installed;
        pkg_references := references |}.

(** [for item in installitems: if 'path' in item: ...] *)
Definition check_install_path (w : W) (foundallinstallitems : bool)
  (item : pval) : res bool :=
  has_path <- py_in (PStr "path") item ;;
  if has_path then
    path <- (v <- py_getitem item "path" ;; as_str v) ;;
    Ok (if path_exists w path then foundallinstallitems else false)
  else Ok foundallinstallitems.

Definition evidenceThisIsInstalled (item_pl : dict) (st : state W)
  : res (bool * state W) :=
  foundall <-
    (if ahas "installs" item_pl &&
        negb (pval_eqb (dget "uninstall_method" item_pl)
                       (PStr "removepackages"))
     then
       installitems <- (v <- getitem "installs" item_pl ;; py_iter v) ;;
       forM (check_install_path (world st)) installitems true
     else Ok false) ;;
  if foundall then Ok (true, st)
  else if truthy (dget "receipts" item_pl) then
    pd <- match PKGDATA st with
          | Some pd => Ok pd
          | None => analyzeInstalledPkgs (world st)
          end ;;
    let st := with_pkgdata (Some pd) st in
    name <- getitem "name" item_pl ;;
    Ok (existsb (pval_eqb name) (map PStr (installed_names pd)), st)
  else Ok (false, st).

(** [PKGDATA['receipts_for_name']] while [PKGDATA] is still [{}] is a
    [KeyError]. *)
Definition getReceiptsToRemove (item : dict) (st : state W)
  : res (list string) :=
  name <- getitem "name" item ;;
  match PKGDATA st with
  | None => Raise (KeyError "receipts_for_name")
  | Some pd =>
      match name with
      | PStr n => match aget n (receipts_for_name pd) with
                  | Some l => Ok l
                  | None => Ok []
                  end
      | _ => Ok []
      end
  end.

(* =============================================================== *)
(** ** lookForUpdates *)

(** [[catalogitem['name'] for catalogitem in updaters
      if itemname in catalogitem.get('update_for', [])]];
    an updater is a reference into the catalog's item list. *)
Definition updates_in (db : pkgdb) (itemname : pval) (acc : list pval)
  (u : nat) : res (list pval) :=
  match nth_error (items db) u with
  | None => Raise IndexError
  | Some catalogitem =>
      hit <- py_in itemname
               (get_default "update_for" (PList []) catalogitem) ;;
      if hit then n <- getitem "name" catalogitem ;; Ok (acc ++ [n])
      else Ok acc
  end.

Definition lookForUpdates (itemname : pval) (cataloglist : list string)
  : res (list pval) :=
  update_list <-
    forM (fun update_list catalogname =>
            match aget catalogname (CATALOG G) with
            | None => Ok update_list
            | Some db =>
                update_items <-
                  forM (updates_in db itemname) (updaters db) [] ;;
                Ok (update_list ++ update_items)
            end)
         cataloglist [] ;;
  Ok (uniq pval_eqb update_list).

(** The third parameter has no default: a call that passes only two
    arguments ([cataloglist = None] here) is a [TypeError]. *)
Definition lookForUpdatesForVersion (itemname itemversion : pval)
  (cataloglist : option (list string)) : res (list pval) :=
  match cataloglist with
  | None => Raise TypeError
  | Some cataloglist =>
      n <- py_str itemname ;;
      v <- py_str itemversion ;;
      let name_and_version := (n ++ "-" ++ v)%string in
      let alt_name_and_version := (n ++ "--" ++ v)%string in
      l1 <- lookForUpdates (PStr name_and_version) cataloglist ;;
      l2 <- lookForUpdates (PStr alt_name_and_version) cataloglist ;;
      Ok (uniq pval_eqb (l1 ++ l2))
  end.

(* =============================================================== *)
(** ** processInstall *)

Definition getInstallerItemBasename (url : pval) : res string :=
  u <- str_method url ;; Ok (PyStr.basename (url_path u)).

(** [if not item_pl:] on what [getItemDetail] returned *)
Definition found_item (r : option dict) : option dict :=
  match r with
  | Some item_pl => if truthy (PDict item_pl) then Some item_pl else None
  | None => None
  end.

(** [int(installer_item_size / download_seconds)], 0 for a small item
    and on [TypeError] or [ZeroDivisionError] *)
Definition download_speed_of (size : pval) (download_seconds : Z) : Z :=
  match size with
  | PInt z =>
      if (z <? 1024)%Z then 0%Z
      else if (download_seconds =? 0)%Z then 0%Z
      else (z / download_seconds)%Z
  | _ => 0%Z
  end.

Definition optional_keys : list string :=
  ["suppress_bundle_relocation"; "installer_choices_xml";
   "installer_environment"; "adobe_install_info"; "RestartAction";
   "installer_type"; "adobe_package_name"; "package_path";
   "blocking_applications"; "installs"; "requires"; "update_for";
   "preinstall_script"; "postinstall_script"; "items_to_copy";
   "copy_local"; "force_install_after_date"].

(** [for key in keys: if key in src: dst[key] = src[key]] *)
Definition copy_keys (keys : list string) (src dst : dict) : dict :=
  fold_left
    (fun dst key =>
       match aget key src with
       | Some v => aset key v dst
       | None => dst
       end)
    keys dst.

Definition append_managed_install (iteminfo : dict) (st : state W)
  : state W :=
  with_info
    (fun i => set_managed_installs (managed_installs i ++ [iteminfo]) i) st.

(** The record appended when the download raised. *)
Definition failed_install (iteminfo : dict) (note : string) (st : state W)
  : res (bool * state W) :=
  let iteminfo := aset "installed" (PBool false) iteminfo in
  let iteminfo := aset "note" (PStr note) iteminfo in
  Ok (false, append_managed_install iteminfo st).

(** A [requires] given as a string instead of an array of strings is
    fixed first. *)
Definition dependencies_of (requires : pval) : res (list pval) :=
  match requires with
  | PStr s => Ok [PStr s]
  | _ => py_iter requires
  end.

(** [if 'requires' in item_pl: ... for item in dependencies: ...];
    [self] is the recursive call and the boolean is [dependenciesMet]. *)
Definition process_requires
  (self : string -> list string -> state W -> res (bool * state W))
  (cataloglist : list string) (item_pl : dict) (st : state W)
  : res (bool * state W) :=
  match aget "requires" item_pl with
  | Some requires =>
      dependencies <- dependencies_of requires ;;
      forM (fun (acc : bool * state W) (item : pval) =>
              let '(met, st) := acc in
              dep <- str_method item ;;
              '(success, st) <- self dep cataloglist st ;;
              Ok (if success then met else false, st))
           dependencies (true, st)
  | None => Ok (true, st)
  end.

(** [for item in dependencies: ...] from a given point of the loop: the
    boolean is [dependenciesMet] so far. *)
Definition resolve_prerequisites
  (self : string -> list string -> state W -> res (bool * state W))
  (cataloglist : list string) (dependencies : list pval)
  (acc : bool * state W) : res (bool * state W) :=
  forM (fun (acc : bool * state W) (item : pval) =>
          let '(met, st) := acc in
          dep <- str_method item ;;
          '(success, st) <- self dep cataloglist st ;;
          Ok (if success then met else false, st))
       dependencies acc.

(** [for update_item in update_list: unused_result = self(...)] *)
Definition process_updates
  (self : string -> list string -> state W -> res (bool * state W))
  (cataloglist : list string) (update_list : list pval) (st : state W)
  : res (state W) :=
  forM (fun st (update_item : pval) =>
          u <- str_method update_item ;;
          '(_, st) <- self u cataloglist st ;;
          Ok st)
       update_list st.

(** [installinfo['processed_installs'].append(manifestitemname)], unless
    the item is being processed as a managed update *)
Definition mark_processed (manifestitemname : string) (st : state W)
  : state W :=
  if str_in manifestitemname (managed_updates (info st)) then st
  else with_info
         (fun i => set_processed_installs
                     (processed_installs i ++ [manifestitemname]) i)
         st.

(** The keys every record of [managed_installs] starts with. *)
Definition new_iteminfo (item_pl : dict) : dict :=
  let name := get_default "name" (PStr "") item_pl in
  [("name", name);
   ("display_name", get_default "display_name" name item_pl);
   ("description", get_default "description" (PStr "") item_pl)].

(** The sizes, recorded before the download is attempted. *)
Definition sized_iteminfo (item_pl iteminfo : dict) : dict :=
  let iteminfo :=
    aset "installer_item_size"
         (get_default "installer_item_size" (PInt 0) item_pl) iteminfo in
  aset "installed_size"
       (get_default "installed_size" (dget "installer_item_size" iteminfo)
                    item_pl)
       iteminfo.

(** The record of an item whose installer item is in the cache. *)
Definition pending_iteminfo (item_pl iteminfo : dict) (changed : bool)
  (download_seconds : Z) : res dict :=
  let download_speed :=
    if changed
    then download_speed_of (dget "installer_item_size" iteminfo)
                           download_seconds
    else 0%Z in
  let iteminfo :=
    aset "download_kbytes_per_sec" (PInt download_speed) iteminfo in
  location <- getitem "installer_item_location" item_pl ;;
  filename <- getInstallerItemBasename location ;;
  let iteminfo := aset "installer_item" (PStr filename) iteminfo in
  let iteminfo := aset "installed" (PBool false) iteminfo in
  let iteminfo :=
    aset "version_to_install"
         (get_default "version" (PStr "UNKNOWN") item_pl) iteminfo in
  iteminfo <-
    (if truthy (dget "unattended_install" item_pl)
        || truthy (dget "forced_install" item_pl)
     then
       if truthy (dget "RestartAction" item_pl)
       then _ <- getitem "name" item_pl ;; Ok iteminfo
       else Ok (aset "unattended_install" (PBool true) iteminfo)
     else Ok iteminfo) ;;
  Ok (copy_keys optional_keys item_pl iteminfo).

(** The updates looked for after a download.  When the manifest names a
    version, the call of [lookForUpdatesForVersion] passes two arguments
    only. *)
Definition pending_updates (manifestitemname_withoutversion
  includedversion : string) (iteminfo : dict) (cataloglist : list string)
  : res (list pval) :=
  if negb (String.eqb includedversion "") then
    lookForUpdatesForVersion (PStr manifestitemname_withoutversion)
      (PStr includedversion) None
  else
    l1 <- lookForUpdates (PStr manifestitemname_withoutversion)
            cataloglist ;;
    l2 <- lookForUpdatesForVersion (PStr manifestitemname_withoutversion)
            (dget "version_to_install" iteminfo) (Some cataloglist) ;;
    Ok (l1 ++ l2).

(** The record of an item that is installed already. *)
Definition installed_iteminfo (w : W) (item_pl iteminfo : dict)
  (installed_state : Z) : res dict :=
  let iteminfo := aset "installed" (PBool true) iteminfo in
  let iteminfo :=
    aset "installed_size"
         (get_default "installed_size"
            (get_default "installer_item_size" (PInt 0) item_pl) item_pl)
         iteminfo in
  installed_version <-
    (if (installed_state =? 1)%Z then getitem "version" item_pl
     else
       let installed_version := getInstalledVersion w item_pl in
       if String.eqb installed_version "UNKNOWN" then
         v <- (x <- getitem "version" item_pl ;; py_str x) ;;
         Ok (PStr ("(newer than " ++ v ++ ")"))
       else Ok (PStr installed_version)) ;;
  Ok (aset "installed_version" installed_version iteminfo).

(** The updates looked for when the item is installed already. *)
Definition installed_updates (manifestitemname
  manifestitemname_withoutversion : string) (item_pl iteminfo : dict)
  (cataloglist : list string) : res (list pval) :=
  '(name, includedversion) <- nameAndVersion manifestitemname ;;
  _ <- getitem "version" item_pl ;;
  if String.eqb includedversion "" then
    l1 <- lookForUpdates (PStr name) cataloglist ;;
    let installed_version := dget "installed_version" iteminfo in
    or_newer <- py_in (PStr "(or newer)") installed_version ;;
    if negb or_newer then
      l2 <- lookForUpdatesForVersion (PStr name) installed_version
              (Some cataloglist) ;;
      Ok (l1 ++ l2)
    else Ok l1
  else if (compareVersions (PStr includedversion)
             (dget "installed_version" iteminfo) =? 1)%Z then
    lookForUpdatesForVersion (PStr manifestitemname_withoutversion)
      (PStr includedversion) (Some cataloglist)
  else Ok [].

Fixpoint processInstall (fuel : nat) (manifestitem : string)
  (cataloglist : list string) (st : state W) {struct fuel}
  : res (bool * state W) :=
  match fuel with
  | O => OutOfFuel
  | S fuel' =>
    let manifestitemname := PyStr.basename manifestitem in
    '(manifestitemname_withoutversion, includedversion) <-
      nameAndVersion manifestitemname ;;
    (* have we processed this already? *)
    if str_in manifestitemname (processed_installs (info st)) then
      Ok (true, st)
    else if str_in manifestitemname_withoutversion
              (processed_uninstalls (info st)) then
      Ok (false, st)
    else
    r <- getItemDetail manifestitem cataloglist "" ;;
    match found_item r with
    | None => Ok (false, st)
    | Some item_pl =>
      let st := mark_processed manifestitemname st in
      if isItemInInstallInfo item_pl (managed_installs (info st))
           (dget "version" item_pl)
      then Ok (true, st)
      else
      (* check dependencies *)
      '(dependenciesMet, st) <-
        process_requires (processInstall fuel') cataloglist item_pl st ;;
      if negb dependenciesMet then Ok (false, st)
      else
      let iteminfo := new_iteminfo item_pl in
      installed_state <- installedState (world st) item_pl ;;
      if (installed_state =? 0)%Z then
        let iteminfo := sized_iteminfo item_pl iteminfo in
        let '(dl, w) :=
          download_installeritem (world st) item_pl (info st) false in
        let st := with_world w st in
        match dl with
        | Downloaded changed download_seconds =>
          iteminfo <-
            pending_iteminfo item_pl iteminfo changed download_seconds ;;
          let st := append_managed_install iteminfo st in
          update_list <-
            pending_updates manifestitemname_withoutversion
              includedversion iteminfo cataloglist ;;
          st <- process_updates (processInstall fuel') cataloglist
                  update_list st ;;
          Ok (true, st)
        | PackageVerificationError =>
            failed_install iteminfo "Integrity check failed" st
        | CurlDownloadError _ =>
            failed_install iteminfo "Download failed" st
        | MunkiDownloadError errmsg =>
            failed_install iteminfo errmsg st
        end
      else
        iteminfo <-
          installed_iteminfo (world st) item_pl iteminfo installed_state ;;
        let st := append_managed_install iteminfo st in
        update_list <-
          installed_updates manifestitemname
            manifestitemname_withoutversion item_pl iteminfo cataloglist ;;
        st <- process_updates (processInstall fuel') cataloglist
                update_list st ;;
        Ok (true, st)
    end
  end.

(* =============================================================== *)
(** ** processManagedUpdate *)

Definition processManagedUpdate (fuel : nat) (manifestitem : string)
  (cataloglist : list string) (st : state W) : res (state W) :=
  let manifestitemname := PyStr.basename manifestitem in
  if str_in manifestitemname (managed_updates (info st)) then Ok st
  else if str_in manifestitemname (processed_installs (info st)) then Ok st
  else if str_in manifestitemname (processed_uninstalls (info st))
  then Ok st
  else
  r <- getItemDetail manifestitem cataloglist "" ;;
  match found_item r with
  | None => Ok st
  | Some item_pl =>
      installed <- someVersionInstalled (world st) item_pl ;;
      if installed then
        let st :=
          with_info
            (fun i => set_managed_updates
                        (managed_updates i ++ [manifestitemname]) i) st in
        '(_, st) <- processInstall fuel manifestitem cataloglist st ;;
        Ok st
      else Ok st
  end.

(* =============================================================== *)
(** ** processRemoval *)

(** [for item in infoitems: if evidenceThisIsInstalled(item): break];
    the debug message reads [item['name']] and [item['version']]. *)
Fixpoint find_evidence (infoitems : list dict) (st : state W)
  : res (option dict * state W) :=
  match infoitems with
  | [] => Ok (None, st)
  | item :: rest =>
      _ <- getitem "name" item ;;
      _ <- getitem "version" item ;;
      '(evidence, st) <- evidenceThisIsInstalled item st ;;
      if evidence then Ok (Some item, st) else find_evidence rest st
  end.

(** The uninstall method of the item found on disk: [Some] when
    [uninstall_item] is set, with [uninstallmethod] and
    [packagesToRemove]. *)
Definition uninstall_info (item : dict) (st : state W)
  : res (option (pval * list string)) :=
  if truthy (dget "uninstallable" item) && ahas "uninstall_method" item
  then
    uninstallmethod <- getitem "uninstall_method" item ;;
    if pval_eqb uninstallmethod (PStr "removepackages") then
      packagesToRemove <- getReceiptsToRemove item st ;;
      match packagesToRemove with
      | [] => Ok None
      | _ => Ok (Some (uninstallmethod, packagesToRemove))
      end
    else
      m <- str_method uninstallmethod ;;
      if PyStr.startswith "Adobe" m then Ok (Some (uninstallmethod, []))
      else if str_in m ["remove_copied_items"; "remove_app";
                        "uninstall_script"]
      then Ok (Some (uninstallmethod, []))
      else if path_exists (world st) m && path_executable (world st) m
      then Ok (Some (uninstallmethod, []))
      else Ok None
  else Ok None.

(** [a in r or b in r or c in r] *)
Definition requires_any (names : list pval) (requires : pval) : res bool :=
  forM (fun (hit : bool) n => if hit then Ok true else py_in n requires)
       names false.

(** The loop over one catalog file; the first component of the result
    tells that the loop was left by [break] (a dependent could not be
    removed). *)
Fixpoint remove_dependents
  (self : string -> list string -> state W -> res (bool * state W))
  (names : list pval) (cataloglist : list string) (catalog_pl : list dict)
  (processednames : list pval) (st : state W)
  : res (bool * list pval * state W) :=
  match catalog_pl with
  | [] => Ok (false, processednames, st)
  | item_pl :: rest =>
      let name := dget "name" item_pl in
      if existsb (pval_eqb name) processednames then
        remove_dependents self names cataloglist rest processednames st
      else
        '(failed, st) <-
          (if ahas "requires" item_pl then
             hit <- (r <- getitem "requires" item_pl ;;
                     requires_any names r) ;;
             if hit then
               '(evidence, st) <- evidenceThisIsInstalled item_pl st ;;
               if evidence then
                 n <- str_method name ;;
                 '(success, st) <- self n cataloglist st ;;
                 Ok (negb success, st)
               else Ok (false, st)
             else Ok (false, st)
           else Ok (false, st)) ;;
        if failed then Ok (true, processednames, st)
        else remove_dependents self names cataloglist rest
               (processednames ++ [name]) st
  end.

(** [l.remove(x)]: [None] stands for the [ValueError] *)
Fixpoint list_remove (x : string) (l : list string) : option (list string) :=
  match l with
  | [] => None
  | y :: l' =>
      if String.eqb x y then Some l'
      else match list_remove x l' with
           | Some r => Some (y :: r)
           | None => None
           end
  end.

(** One step of [for pkg in packagesToRemove]: the accumulator is
    [(packagesToReallyRemove, PKGDATA['pkg_references'])]. *)
Definition drop_reference (name : pval)
  (acc : list string * list (string * list string)) (pkg : string)
  : res (list string * list (string * list string)) :=
  let '(packagesToReallyRemove, references) := acc in
  match aget pkg references with
  | Some l =>
      match name with
      | PStr n =>
          match list_remove n l with
          | Some l' =>
              Ok (match l' with
                  | [] => packagesToReallyRemove ++ [pkg]
                  | _ => packagesToReallyRemove
                  end,
                  aset pkg l' references)
          | None => Raise ValueError
          end
      | _ => Raise ValueError
      end
  | None => Ok acc
  end.

Definition set_pkg_references (refs : list (string * list string))
  (st : state W) : state W :=
  match PKGDATA st with
  | Some pd =>
      with_pkgdata
        (Some {| receipts_for_name := receipts_for_name pd;
                 installed_names := installed_names pd;
                 pkg_references := refs |}) st
  | None => st
  end.

(** [v[0]] *)
Definition py_first (v : pval) : res pval :=
  match v with
  | PList (x :: _) => Ok x
  | PList [] => Raise IndexError
  | PStr (String c _) => Ok (PStr (String c ""))
  | PStr EmptyString => Raise IndexError
  | PDict _ => Raise (KeyError "0")
  | _ => Raise TypeError
  end.

Definition removal_optional_keys : list string :=
  ["blocking_applications"; "installs"; "requires"; "update_for";
   "preuninstall_script"; "postuninstall_script"].

Definition append_removal (iteminfo : dict) (st : state W) : state W :=
  with_info (fun i => set_removals (removals i ++ [iteminfo]) i) st.

(** What the branch on [uninstallmethod] adds to [iteminfo]; [None] is
    the [return False] of a failed uninstaller download.  All the errors
    of [fetch] derive from [MunkiDownloadError]. *)
Definition method_info (item uninstall_item : dict) (uninstallmethod : pval)
  (iteminfo : dict) (st : state W) : res (option dict * state W) :=
  m <- str_method uninstallmethod ;;
  if PyStr.startswith "Adobe" m then
    if ahas "adobe_install_info" item then
      v <- getitem "adobe_install_info" item ;;
      Ok (Some (aset "adobe_install_info" v iteminfo), st)
    else
      location <-
        (if ahas "uninstaller_item_location" item
         then getitem "uninstaller_item_location" uninstall_item
         else getitem "installer_item_location" uninstall_item) ;;
      let '(dl, w) := download_installeritem (world st) item (info st) true in
      let st := with_world w st in
      match dl with
      | Downloaded _ _ =>
          l <- str_method location ;;
          let iteminfo :=
            aset "uninstaller_item" (PStr (PyStr.basename l)) iteminfo in
          Ok (Some (aset "adobe_package_name"
                      (get_default "adobe_package_name" (PStr "")
                                   uninstall_item)
                      iteminfo), st)
      | _ => Ok (None, st)
      end
  else if String.eqb m "remove_copied_items" then
    Ok (Some (aset "items_to_remove"
                (get_default "items_to_copy" (PList []) item) iteminfo), st)
  else if String.eqb m "remove_app" then
    if truthy (dget "installs" uninstall_item) then
      v <- (x <- getitem "installs" uninstall_item ;; py_first x) ;;
      Ok (Some (aset "remove_app_info" v iteminfo), st)
    else Ok (Some iteminfo, st)
  else if String.eqb m "uninstall_script" then
    Ok (Some (aset "uninstall_script"
                (get_default "uninstall_script" (PStr "") item) iteminfo),
        st)
  else Ok (Some iteminfo, st).

(** [[nameAndVersion(item)[0] for item in processed_installs]] *)
Definition install_basenames (processed : list string)
  : res (list string) :=
  forM (fun acc item => '(n, _) <- nameAndVersion item ;; Ok (acc ++ [n]))
       processed [].

(** The three forms under which other items can name the item in their
    [requires] and [update_for]. *)
Definition target_names (uninstall_item : dict) : res (list pval) :=
  n <- py_str (dget "name" uninstall_item) ;;
  v <- py_str (dget "version" uninstall_item) ;;
  Ok [dget "name" uninstall_item;
      PStr (n ++ "-" ++ v);
      PStr (n ++ "--" ++ v)].

(** [for catalogname in cataloglist: ...]; the boolean is
    [dependentitemsremoved]. *)
Definition removal_dependents
  (self : string -> list string -> state W -> res (bool * state W))
  (names : list pval) (cataloglist : list string) (st : state W)
  : res (bool * state W) :=
  '(dependentitemsremoved, _, st) <-
    forM (fun (acc : bool * list pval * state W) catalogname =>
            let '(removed, processednames, st) := acc in
            match read_catalog (world st) catalogname with
            | None => Raise PlistError
            | Some catalog_pl =>
                '(failed, processednames, st) <-
                  remove_dependents self names cataloglist catalog_pl
                    processednames st ;;
                Ok (if failed then false else removed, processednames, st)
            end)
         cataloglist (true, [], st) ;;
  Ok (dependentitemsremoved, st).

(** [if packagesToRemove: ...]: the references of the item are dropped
    and [None] is the [return False] taken when no package belongs to
    this item only. *)
Definition unique_packages (packagesToRemove : list string)
  (iteminfo : dict) (st : state W) : res (option dict * state W) :=
  match packagesToRemove with
  | [] => Ok (Some iteminfo, st)
  | _ =>
      match PKGDATA st with
      | None => Raise (KeyError "pkg_references")
      | Some pd =>
          '(packagesToReallyRemove, refs) <-
            forM (drop_reference (dget "name" iteminfo))
                 packagesToRemove ([], pkg_references pd) ;;
          let st := set_pkg_references refs st in
          match packagesToReallyRemove with
          | [] => Ok (None, st)
          | _ =>
              Ok (Some (aset "packages"
                          (PList (map PStr packagesToReallyRemove))
                          iteminfo), st)
          end
      end
  end.

(** From "Finally! We can record the removal information!" to the end
    of [processRemoval]. *)
Definition record_removal
  (self : string -> list string -> state W -> res (bool * state W))
  (names : list pval) (cataloglist : list string) (item : dict)
  (uninstallmethod : pval) (packagesToRemove : list string) (st : state W)
  : res (bool * state W) :=
  let uninstall_item := item in
  let iteminfo :=
    [("name", get_default "name" (PStr "") uninstall_item);
     ("display_name", get_default "display_name" (PStr "") uninstall_item);
     ("description", PStr "Will be removed.")] in
  iteminfo <-
    (if truthy (dget "unattended_uninstall" uninstall_item)
        || truthy (dget "forced_uninstall" uninstall_item)
     then
       if truthy (dget "RestartAction" uninstall_item)
       then _ <- getitem "name" uninstall_item ;; Ok iteminfo
       else Ok (aset "unattended_uninstall" (PBool true) iteminfo)
     else Ok iteminfo) ;;
  let iteminfo := copy_keys removal_optional_keys uninstall_item iteminfo in
  r <- unique_packages packagesToRemove iteminfo st ;;
  match r with
  | (None, st) => Ok (false, st)
  | (Some iteminfo, st) =>
  let iteminfo := aset "uninstall_method" uninstallmethod iteminfo in
  r <- method_info item uninstall_item uninstallmethod iteminfo st ;;
  match r with
  | (None, st) => Ok (false, st)
  | (Some iteminfo, st) =>
  (* installed updates are removed as well *)
  update_list <-
    forM (fun acc n => l <- lookForUpdates n cataloglist ;; Ok (acc ++ l))
         names [] ;;
  st <- process_updates self cataloglist update_list st ;;
  (* finish recording info for this removal *)
  let iteminfo := aset "installed" (PBool true) iteminfo in
  let iteminfo :=
    aset "installed_version" (dget "version" uninstall_item) iteminfo in
  let iteminfo := copy_keys ["RestartAction"] uninstall_item iteminfo in
  Ok (true, append_removal iteminfo st)
  end end.

(** [installinfo['processed_uninstalls'].append(manifestitemname)] *)
Definition mark_removed (manifestitemname : string) (st : state W)
  : state W :=
  with_info
    (fun i => set_processed_uninstalls
                (processed_uninstalls i ++ [manifestitemname]) i) st.

Fixpoint processRemoval (fuel : nat) (manifestitem : string)
  (cataloglist : list string) (st : state W) {struct fuel}
  : res (bool * state W) :=
  match fuel with
  | O => OutOfFuel
  | S fuel' =>
    let manifestitemname_withversion := PyStr.basename manifestitem in
    '(manifestitemname, includedversion) <-
      nameAndVersion manifestitemname_withversion ;;
    (* have we processed this already? *)
    installnames <- install_basenames (processed_installs (info st)) ;;
    if str_in manifestitemname installnames then Ok (false, st)
    else if str_in manifestitemname (processed_uninstalls (info st))
    then Ok (true, st)
    else
    let st := mark_removed manifestitemname st in
    infoitems <-
      (if negb (String.eqb includedversion "") then
         r <- getItemDetail manifestitemname cataloglist includedversion ;;
         match found_item r with
         | Some item_pl => Ok [item_pl]
         | None => Ok []
         end
       else getAllItemsWithName manifestitemname cataloglist) ;;
    match infoitems with
    | [] => Ok (false, st)
    | _ =>
    '(found, st) <- find_evidence infoitems st ;;
    match found with
    | None =>
        let iteminfo := [("name", PStr manifestitemname);
                         ("installed", PBool false)] in
        Ok (true, append_removal iteminfo st)
    | Some item =>
    u <- uninstall_info item st ;;
    match u with
    | None => Ok (false, st)
    | Some (uninstallmethod, packagesToRemove) =>
    (* check for dependent items *)
    names <- target_names item ;;
    '(dependentitemsremoved, st) <-
      removal_dependents (processRemoval fuel') names cataloglist st ;;
    if negb dependentitemsremoved then Ok (false, st)
    else
      record_removal (processRemoval fuel') names cataloglist item
        uninstallmethod packagesToRemove st
    end end end
  end.

(* =============================================================== *)
(** ** The item loop of processManifestForKey *)

Inductive manifest_key : Type :=
| managed_installs_key
| managed_updates_key
| managed_uninstalls_key.

(** [for item in items: ...]: every result is discarded
    ([unused_result]); a stop request leaves the loop. *)
Fixpoint processManifestItems (fuel : nat) (key : manifest_key)
  (items : list string) (cataloglist : list string) (st : state W)
  : res (state W) :=
  match items with
  | [] => Ok st
  | item :: rest =>
      if stopRequested (world st) then Ok st
      else
        st <-
          match key with
          | managed_installs_key =>
              '(_, st) <- processInstall fuel item cataloglist st ;; Ok st
          | managed_updates_key =>
              processManagedUpdate fuel item cataloglist st
          | managed_uninstalls_key =>
              '(_, st) <- processRemoval fuel item cataloglist st ;; Ok st
          end ;;
        processManifestItems fuel key rest cataloglist st
  end.

End Resolver.

(** A run is a sequence of manifest lists, each processed against the
    catalogs loaded at that moment. *)
Record request : Type := {
  req_globals : globals;
  req_key : manifest_key;
  req_items : list string;
  req_catalogs : list string
}.

Fixpoint run {W : Type} {collab : Oracles W} (fuel : nat)
  (requests : list request) (st : state W) : res (state W) :=
  match requests with
  | [] => Ok st
  | r :: rest =>
      st <- processManifestItems (req_globals r) fuel (req_key r)
              (req_items r) (req_catalogs r) st ;;
      run fuel rest st
  end.

(* ================================================================= *)
(** ** What the resolvers keep *)

Section Frames.

Context {W : Type}.

(** The version-stripped form of a processed name is not scheduled for
    removal. *)
Definition base_not_removed (uninstalls : list string) (name : string)
  : Prop :=
  exists b v, nameAndVersion name = Ok (b, v) /\ ~ In b uninstalls.

(** What [processInstall] can do to the state: it appends names to
    [processed_installs], none of them a managed update and none with its
    base name scheduled for removal, appends records to
    [managed_installs], and may change the machine. *)
Definition install_extends (st st' : state W) : Prop :=
  processed_uninstalls (info st') = processed_uninstalls (info st) /\
  managed_updates (info st') = managed_updates (info st) /\
  removals (info st') = removals (info st) /\
  optional_installs (info st') = optional_installs (info st) /\
  PKGDATA st' = PKGDATA st /\
  (exists added,
      processed_installs (info st') = processed_installs (info st) ++ added /\
      Forall (fun m => ~ In m (managed_updates (info st)) /\
                       base_not_removed (processed_uninstalls (info st)) m)
             added) /\
  (exists records,
      managed_installs (info st') = managed_installs (info st) ++ records).

(** What [processRemoval] can do to the state: it appends base names to
    [processed_uninstalls], none of them the base name of a processed
    install, appends records to [removals], fills [PKGDATA] and drops
    references from it, and may change the machine. *)
Definition removal_extends (st st' : state W) : Prop :=
  processed_installs (info st') = processed_installs (info st) /\
  managed_updates (info st') = managed_updates (info st) /\
  managed_installs (info st') = managed_installs (info st) /\
  optional_installs (info st') = optional_installs (info st) /\
  (exists added,
      processed_uninstalls (info st')
        = processed_uninstalls (info st) ++ added /\
      forall b, In b added ->
        exists names,
          install_basenames (processed_installs (info st)) = Ok names /\
          ~ In b names) /\
  (exists records, removals (info st') = removals (info st) ++ records).

(** No processed install has its base name among the processed
    uninstalls. *)
Definition no_conflict (i : installinfo) : Prop :=
  forall name b v,
    In name (processed_installs i) ->
    nameAndVersion name = Ok (b, v) ->
    ~ In b (processed_uninstalls i).

End Frames.



Section Outcomes.

Context {W : Type} {collab : Oracles W}.
Variable G : globals.

(** [record] is an entry of [managed_installs] made for [item_pl] that
    [isItemInInstallInfo] accepts for the version of [item_pl]. *)
Definition recorded (item_pl record : dict) (st : state W) : Prop :=
  In record (managed_installs (info st)) /\
  aget "name" record = Some (get_default "name" (PStr "") item_pl) /\
  (truthy (dget "installed" record) = true \/
   dget "version_to_install" record
     = get_default "version" (PStr "UNKNOWN") item_pl).

(** The ways in which a call of [processInstall] returns: the name was
    processed already; its base name is scheduled for removal; no
    pkginfo is found; the item is in the install list already; a
    prerequisite failed; or the item was recorded (and its download may
    have failed). *)
Definition processInstall_outcome (fuel : nat) (manifestitem : string)
  (cataloglist : list string) (st : state W) (b : bool) (st' : state W)
  : Prop :=
  let name := PyStr.basename manifestitem in
  exists base includedversion,
    nameAndVersion name = Ok (base, includedversion) /\
    ((In name (processed_installs (info st)) /\ b = true /\ st' = st) \/
     (~ In name (processed_installs (info st)) /\
      In base (processed_uninstalls (info st)) /\ b = false /\ st' = st) \/
     (~ In name (processed_installs (info st)) /\
      ~ In base (processed_uninstalls (info st)) /\
      exists r, getItemDetail G manifestitem cataloglist "" = Ok r /\
        match found_item r with
        | None => b = false /\ st' = st
        | Some item_pl =>
            let st0 := mark_processed name st in
            if isItemInInstallInfo item_pl (managed_installs (info st0))
                 (dget "version" item_pl)
            then b = true /\ st' = st0
            else
              exists met st1,
                process_requires (processInstall G fuel) cataloglist
                  item_pl st0 = Ok (met, st1) /\
                if met
                then install_extends st1 st' /\
                     (b = true -> exists record, recorded item_pl record st')
                else b = false /\ st' = st1
        end)).

(** The ways in which a call of [processRemoval] returns: refused,
    because the base name is that of a processed install; processed
    already; or marked in [processed_uninstalls] and worked on. *)
Definition processRemoval_outcome (manifestitem : string) (st : state W)
  (b : bool) (st' : state W) : Prop :=
  exists name includedversion names,
    nameAndVersion (PyStr.basename manifestitem)
      = Ok (name, includedversion) /\
    install_basenames (processed_installs (info st)) = Ok names /\
    ((In name names /\ b = false /\ st' = st) \/
     (~ In name names /\ In name (processed_uninstalls (info st)) /\
      b = true /\ st' = st) \/
     (~ In name names /\ ~ In name (processed_uninstalls (info st)) /\
      removal_extends (mark_removed name st) st')).

End Outcomes.

(* ================================================================= *)
(** ** checkForceInstallPackages *)

Definition FORCE_INSTALL_WARNING_HOURS : Z := 4.

(** The ['%z'] description of a date, such as [-0700]: a sign, two digits
    of hours and two of minutes. *)
Record utc_offset : Type := {
  offset_negative : bool;
  offset_hh : Z;
  offset_mm : Z
}.

Inductive urgency : Type :=
| now
| soon
| logout
| restart.

Section ForceInstall.

(** The local time zone in force at a date *)
Variable local_offset : Z -> utc_offset.

Definition discardTimeZoneFromDate (the_date : Z) : Z :=
  let offset := local_offset the_date in
  let sign := if offset_negative offset then (-1)%Z else 1%Z in
  let hour_offset := (sign * offset_hh offset)%Z in
  let minute_offset := (sign * offset_mm offset)%Z in
  let seconds_offset := (60 * 60 * hour_offset + 60 * minute_offset)%Z in
  (the_date - seconds_offset)%Z.

(** One iteration of the loop; the accumulator is
    [(result, installinfo['managed_installs'], writeback)] and [NSDate]
    values are seconds. *)
Definition force_install_step (now_date now_xhours : Z)
  (acc : option urgency * list pval * bool) (i : nat)
  : res (option urgency * list pval * bool) :=
  let '(result, installs, writeback) := acc in
  match nth_error installs i with
  | None => Raise IndexError
  | Some (PDict install) =>
      let force_install_after_date :=
        dget "force_install_after_date" install in
      if truthy force_install_after_date then
        date <- match force_install_after_date with
                | PDate t => Ok (discardTimeZoneFromDate t)
                | _ => Raise AttributeError
                end ;;
        _ <- getitem "name" install ;;
        '(result, installs, writeback) <-
          (if (now_date >=? date)%Z then
             if truthy (dget "RestartAction" install) then
               let action := dget "RestartAction" install in
               if pval_eqb action (PStr "RequireLogout")
               then Ok (Some logout, installs, writeback)
               else if pval_eqb action (PStr "RequireRestart")
               then Ok (Some restart, installs, writeback)
               else Ok (Some now, installs, writeback)
             else if negb (truthy (get_default "unattended_install"
                                     (PBool false) install))
             then
               let install := aset "unattended_install" (PBool true) install in
               Ok (Some now, list_set i (PDict install) installs, true)
             else Ok (Some now, installs, writeback)
           else Ok (result, installs, writeback)) ;;
        if (now_xhours >=? date)%Z then
          match result with
          | None => Ok (Some soon, installs, writeback)
          | Some _ => Ok (result, installs, writeback)
          end
        else Ok (result, installs, writeback)
      else Ok acc
  | Some _ => Raise AttributeError
  end.

(** [installinfo] is what was read from [InstallInfo.plist] ([None] when
    the file cannot be read).  The result holds the returned urgency,
    the [managed_installs] list as the call leaves it, and [writeback],
    which tells that the modified [installinfo] is written to disk. *)
Definition checkForceInstallPackages (now_date : Z)
  (installinfo : option dict) : res (option urgency * list pval * bool) :=
  match installinfo with
  | None => Ok (None, [], false)
  | Some installinfo =>
      let now_xhours :=
        (now_date + FORCE_INSTALL_WARNING_HOURS * 3600)%Z in
      installs <-
        match get_default "managed_installs" (PList []) installinfo with
        | PList l => Ok l
        | _ => Raise TypeError
        end ;;
      forM (force_install_step now_date now_xhours)
           (seq 0 (List.length installs)) (None, installs, false)
  end.

(** *** What a single record asks for *)

(** The deadline the loop compares with, for a record that carries a
    date. *)
Definition deadline_of (install : pval) : option Z :=
  match install with
  | PDict d =>
      match dget "force_install_after_date" d with
      | PDate t => Some (discardTimeZoneFromDate t)
      | _ => None
      end
  | _ => None
  end.

(** The deadline has passed. *)
Definition due (now_date : Z) (install : pval) : bool :=
  match deadline_of install with
  | Some date => (now_date >=? date)%Z
  | None => false
  end.

(** The deadline falls within the warning hours (or has passed). *)
Definition warned (now_date : Z) (install : pval) : bool :=
  match deadline_of install with
  | Some date =>
      (now_date + FORCE_INSTALL_WARNING_HOURS * 3600 >=? date)%Z
  | None => false
  end.

(** The urgency of a record whose deadline has passed. *)
Definition due_urgency (install : pval) : urgency :=
  match install with
  | PDict d =>
      if pval_eqb (dget "RestartAction" d) (PStr "RequireLogout")
      then logout
      else if pval_eqb (dget "RestartAction" d) (PStr "RequireRestart")
      then restart
      else now
  | _ => now
  end.

Definition record_urgency (now_date : Z) (install : pval)
  : option urgency :=
  if due now_date install then Some (due_urgency install)
  else if warned now_date install then Some soon
  else None.

(** The order the specification gives:
    now > logout/restart > soon > none. *)
Definition urgency_rank (u : option urgency) : nat :=
  match u with
  | None => 0
  | Some soon => 1
  | Some logout => 2
  | Some restart => 2
  | Some now => 3
  end.

(** How the loop folds what a record asks for into [result]: a passed
    deadline overwrites it, a warning only fills an empty one. *)
Definition escalate (result u : option urgency) : option urgency :=
  match u with
  | Some soon => match result with
                 | None => Some soon
                 | Some _ => result
                 end
  | Some x => Some x
  | None => result
  end.

(** What the loop computes: the last record whose deadline has passed
    decides; without one, a record within the warning hours gives
    [soon]. *)
Definition last_due_urgency (now_date : Z) (installs : list pval)
  : option urgency :=
  match find (due now_date) (rev installs) with
  | Some install => Some (due_urgency install)
  | None =>
      if existsb (warned now_date) installs then Some soon else None
  end.

End ForceInstall.

(* ================================================================= *)
(** ** Reading the catalog index *)

(** [itemindex in table[k1][k2]] *)
Definition table_has (t : table) (k1 k2 : string) (itemindex : nat) : Prop :=
  exists inner l,
    aget k1 t = Some inner /\ aget k2 inner = Some l /\ In itemindex l.

(** Every version of a name is one key of the table of that name. *)
Definition versions_filed_once (t : table) : Prop :=
  forall k inner, aget k t = Some inner -> NoDup (akeys inner).

(** The database is what [makeCatalogDB] returned for some catalog file,
    as [getCatalogs] stores it. *)
Definition built_by_makeCatalogDB (db : pkgdb) : Prop :=
  exists catalogitems, makeCatalogDB catalogitems = (items db, Ok db).

(** [name] is the name of an updater of the catalog that lists
    [itemname] in its [update_for]. *)
Definition declares_update (itemname : pval) (db : pkgdb) (name : pval)
  : Prop :=
  exists u updater,
    In u (updaters db) /\ nth_error (items db) u = Some updater /\
    aget "name" updater = Some name /\
    py_in itemname (get_default "update_for" (PList []) updater) = Ok true.

(** The keys under which [makeCatalogDB] files an item: its name (or
    ['NO NAME']) and its trimmed version. *)
Definition indexed_as (item : dict) (name vers : string) : Prop :=
  get_default "name" (PStr "NO NAME") item = PStr name /\
  exists s, get_default "version" (PStr "NO VERSION") item = PStr s /\
            vers = trimVersionString s.

(* ================================================================= *)
(** ** Download cache paths *)

Module PyPath.

(** [s.endswith(suffix)] *)
Fixpoint endswith (suffix s : string) : bool :=
  String.eqb suffix s ||
  match s with
  | EmptyString => false
  | String _ s' => endswith suffix s'
  end.

(** [os.path.join(a, b)] *)
Definition join (a b : string) : string :=
  if PyStr.startswith "/" b then b
  else if String.eqb a "" || endswith "/" a then (a ++ b)%string
  else (a ++ "/" ++ b)%string.

End PyPath.

(** [os.path.join(destinationpathprefix, getInstallerItemBasename(url))] *)
Definition getDownloadCachePath {W : Type} {collab : Oracles W}
  (destinationpathprefix : string) (url : pval) : res string :=
  base <- getInstallerItemBasename url ;;
  Ok (PyPath.join destinationpathprefix base).

(* ================================================================= *)
(** ** enoughDiskSpace and processOptionalInstall *)

(** More collaborators: preferences, the size of files, the free space
    of the startup disk, Python's [int] on strings, and the retrieval of
    catalog files. *)
Class HostOracles (W : Type) : Type := {
  (** [munkicommon.pref('ManagedInstallDir')] *)
  ManagedInstallDir : W -> string;
  (** [os.path.getsize] *)
  getsize : W -> string -> Z;
  (** [munkicommon.getAvailableDiskSpace()], in KB *)
  getAvailableDiskSpace : W -> Z;
  (** [int(s)] on a string; [None] is the [ValueError] *)
  int_of_string : string -> option Z;
  (** [munkicommon.pref('CatalogURL') or
      munkicommon.pref('SoftwareRepoURL') + '/catalogs/'];
      [None] when neither preference is set *)
  catalogbaseurl : W -> option string;
  (** [getResourceIfChangedAtomically] for the catalog of that name:
      [false] is the [MunkiDownloadError] *)
  fetch_catalog : W -> string -> bool * W;
  (** [os.unlink] of the catalog file of that name *)
  unlink_catalog : W -> string -> W;
  (** [os.path.lexists] *)
  lexists : W -> string -> bool;
  (** [munkicommon.getmd5hash] *)
  getmd5hash : W -> string -> string;
  (** [FoundationPlist.readPlist]; [None] is the
      [NSPropertyListSerializationException] *)
  readPlist : W -> string -> option dict;
  (** [munkicommon.getVersionString] *)
  getVersionString : dict -> pval;
  (** [munkicommon.getAppData()] *)
  getAppData : W -> list dict;
  (** [INSTALLEDPKGS.get(pkgid)], once [getInstalledPackages] has run *)
  installed_version : W -> string -> pval
}.

Definition set_optional_installs (l : list dict) (i : installinfo) :=
  {| processed_installs := processed_installs i;
     processed_uninstalls := processed_uninstalls i;
     managed_updates := managed_updates i;
     optional_installs := l;
     managed_installs := managed_installs i;
     removals := removals i |}.

Section Optional.

Context {W : Type} {collab : Oracles W} {host : HostOracles W}.
Variable G : globals.

(** [int(v)] *)
Definition py_int (v : pval) : res Z :=
  match v with
  | PInt z => Ok z
  | PBool b => Ok (if b then 1 else 0)%Z
  | PStr s => match int_of_string s with
              | Some z => Ok z
              | None => Raise ValueError
              end
  | _ => Raise TypeError
  end.

(** [int(d[k])] when the key is there, [default] otherwise *)
Definition int_field (k : string) (d : dict) (default : Z) : res Z :=
  match aget k d with
  | Some v => py_int v
  | None => Ok default
  end.

(** One step of [for item in installlist]: the space an install that is
    pending will take is not available. *)
Definition reserve_space (availablediskspace : Z) (item : dict) : res Z :=
  if truthy (dget "installer_item" item) then
    sz <- py_int (get_default "installed_size" (PInt 0) item) ;;
    Ok (availablediskspace - sz)%Z
  else Ok availablediskspace.

(** The warnings of the [warn] branch are not modelled. *)
Definition enoughDiskSpace (w : W) (manifestitem_pl : dict)
  (installlist : list dict) (uninstalling : bool) : res bool :=
  let fudgefactor := 102400%Z in
  alreadydownloadedsize <-
    (if ahas "installer_item_location" manifestitem_pl then
       let cachedir := PyPath.join (ManagedInstallDir w) "Cache" in
       location <- getitem "installer_item_location" manifestitem_pl ;;
       download <- getDownloadCachePath cachedir location ;;
       Ok (if path_exists w download then getsize w download else 0%Z)
     else Ok 0%Z) ;;
  installeritemsize <- int_field "installer_item_size" manifestitem_pl 0 ;;
  installedsize <-
    int_field "installed_size" manifestitem_pl installeritemsize ;;
  '(installeritemsize, installedsize) <-
    (if uninstalling then
       sz <- int_field "uninstaller_item_size" manifestitem_pl
               installeritemsize ;;
       Ok (sz, 0%Z)
     else Ok (installeritemsize, installedsize)) ;;
  let diskspaceneeded :=
    (installeritemsize - alreadydownloadedsize + installedsize
     + fudgefactor)%Z in
  availablediskspace <-
    forM reserve_space installlist (getAvailableDiskSpace w) ;;
  Ok (availablediskspace >? diskspaceneeded)%Z.

(** [for item in installinfo['optional_installs']:
       if manifestitemname == item['name']: return] *)
Fixpoint already_optional (manifestitemname : string) (l : list dict)
  : res bool :=
  match l with
  | [] => Ok false
  | item :: rest =>
      n <- getitem "name" item ;;
      if pval_eqb (PStr manifestitemname) n then Ok true
      else already_optional manifestitemname rest
  end.

(** The record of an optional install. *)
Definition optional_iteminfo (w : W) (manifestitemname : string)
  (item_pl : dict) (installlist : list dict) : res dict :=
  let iteminfo :=
    [("name", get_default "name" (PStr manifestitemname) item_pl);
     ("description", get_default "description" (PStr "") item_pl);
     ("version_to_install",
      get_default "version" (PStr "UNKNOWN") item_pl);
     ("display_name", get_default "display_name" (PStr "") item_pl)] in
  installed <- someVersionInstalled w item_pl ;;
  let iteminfo := aset "installed" (PBool installed) iteminfo in
  iteminfo <-
    (if installed then
       installed_state <- installedState w item_pl ;;
       Ok (aset "needs_update" (PBool (installed_state =? 0)%Z) iteminfo)
     else Ok iteminfo) ;;
  let iteminfo :=
    aset "uninstallable" (get_default "uninstallable" (PBool false) item_pl)
         iteminfo in
  if negb (truthy (dget "installed" iteminfo))
     || truthy (dget "needs_update" iteminfo)
  then
    let iteminfo :=
      aset "installer_item_size"
           (get_default "installer_item_size" (PInt 0) item_pl) iteminfo in
    let iteminfo :=
      aset "installed_size"
           (get_default "installer_item_size"
              (dget "installer_item_size" iteminfo) item_pl)
           iteminfo in
    enough <- enoughDiskSpace w item_pl installlist false ;;
    Ok (if enough then iteminfo
        else aset "note"
               (PStr "Insufficient disk space to download and install.")
               iteminfo)
  else Ok iteminfo.

Definition processOptionalInstall (manifestitem : string)
  (cataloglist : list string) (st : state W) : res (state W) :=
  let manifestitemname := PyStr.basename manifestitem in
  (* have we already processed this?  The first test looks for the name
     in a list of records *)
  if existsb (pval_eqb (PStr manifestitemname))
             (map PDict (optional_installs (info st)))
  then Ok st
  else if str_in manifestitemname (processed_installs (info st))
  then Ok st
  else if str_in manifestitemname (processed_uninstalls (info st))
  then Ok st
  else
  processed <-
    already_optional manifestitemname (optional_installs (info st)) ;;
  if processed then Ok st
  else
  r <- getItemDetail G manifestitem cataloglist "" ;;
  match found_item r with
  | None => Ok st
  | Some item_pl =>
      iteminfo <-
        optional_iteminfo (world st) manifestitemname item_pl
          (managed_installs (info st)) ;;
      Ok (with_info
            (fun i => set_optional_installs
                        (optional_installs i ++ [iteminfo]) i) st)
  end.

(* =============================================================== *)
(** ** getAutoRemovalItems *)

(** [cataloglist] is what [getManifestValueForKey] returned for
    ['catalogs']: [None] when the manifest has no such key. *)
Definition getAutoRemovalItems (installinfo : installinfo)
  (cataloglist : option (list string)) : res (list pval) :=
  let autoremovalnames :=
    flat_map
      (fun catalogname =>
         match aget catalogname (CATALOG G) with
         | Some db => autoremoveitems db
         | None => []
         end)
      (match cataloglist with Some l => l | None => [] end) in
  processed_installs_names <-
    install_basenames (processed_installs installinfo) ;;
  Ok (filter
        (fun item =>
           negb (existsb (pval_eqb item)
                         (map PStr processed_installs_names))
           && negb (existsb (pval_eqb item)
                            (map PStr (processed_uninstalls installinfo))))
        autoremovalnames).

(* =============================================================== *)
(** ** getCatalogs *)

(** One iteration of [for catalogname in cataloglist]; the accumulator
    is [(CATALOG, machine)]. *)
Definition getCatalogs_step (acc : list (string * pkgdb) * W)
  (catalogname : string) : res (list (string * pkgdb) * W) :=
  let '(catalog, w) := acc in
  if ahas catalogname catalog then Ok acc
  else
    let '(retrieved, w) := fetch_catalog w catalogname in
    if retrieved then
      match read_catalog w catalogname with
      | None => Ok (catalog, unlink_catalog w catalogname)
      | Some catalogdata =>
          db <- snd (makeCatalogDB catalogdata) ;;
          Ok (aset catalogname db catalog, w)
      end
    else Ok (catalog, w).

(** [None + '/catalogs/'] is a [TypeError]. *)
Definition getCatalogs (cataloglist : list string)
  (catalog : list (string * pkgdb)) (w : W)
  : res (list (string * pkgdb) * W) :=
  match catalogbaseurl w with
  | None => Raise TypeError
  | Some _ => forM getCatalogs_step cataloglist (catalog, w)
  end.

End Optional.

(* ================================================================= *)
(** ** makePredicateInfoObject *)

Section PredicateInfo.

Context {W : Type} {host : HostOracles W}.

(** [int(os_vers.split('.')[i])] *)
Definition version_component (parts : list string) (i : nat) : res Z :=
  match nth_error parts i with
  | None => Raise IndexError
  | Some p => match int_of_string p with
              | Some z => Ok z
              | None => Raise ValueError
              end
  end.

(** [for key in d.keys(): INFO_OBJECT[key] = d[key]] *)
Definition update_from (d info_object : dict) : dict :=
  fold_left (fun o kv => aset (fst kv) (snd kv) o) d info_object.

(** The globals [MACHINE], [CONDITIONS] and [INFO_OBJECT] are passed
    in; the result is [INFO_OBJECT] as the call leaves it. *)
Definition makePredicateInfoObject (machine_facts conditions
  info_object : dict) : res dict :=
  if truthy (PDict info_object) then Ok info_object
  else
    let info_object := update_from machine_facts info_object in
    os_vers <- (v <- getitem "os_vers" machine_facts ;; as_str v) ;;
    let os_vers := (os_vers ++ ".0.0")%string in
    major <- version_component (PyStr.split "." os_vers) 0 ;;
    let info_object := aset "os_vers_major" (PInt major) info_object in
    minor <- version_component (PyStr.split "." os_vers) 1 ;;
    let info_object := aset "os_vers_minor" (PInt minor) info_object in
    patch <- version_component (PyStr.split "." os_vers) 2 ;;
    let info_object := aset "os_vers_patch" (PInt patch) info_object in
    book <- py_in (PStr "Book")
              (get_default "machine_model" (PStr "") machine_facts) ;;
    let info_object :=
      aset "machine_type" (PStr (if book then "laptop" else "desktop"))
           info_object in
    Ok (update_from conditions info_object).

End PredicateInfo.

(* ================================================================= *)
(** ** Names that can be processed *)

(** Every processed install has a name that [nameAndVersion] splits. *)
Definition well_named (i : installinfo) : Prop :=
  Forall (fun name => exists b v, nameAndVersion name = Ok (b, v))
         (processed_installs i).

(** What [checkForceInstallPackages] may do to a record: nothing, or set
    [unattended_install] on a record without [RestartAction]. *)
Definition marked_unattended (install install' : pval) : Prop :=
  install' = install \/
  exists d,
    install = PDict d /\
    install' = PDict (aset "unattended_install" (PBool true) d) /\
    truthy (dget "RestartAction" d) = false.

(* ================================================================= *)
(** ** The detection helpers *)

(** The functions behind the collaborators [compareItemVersion] and
    [compareReceiptVersion].  [Ok CmpError] stands for the
    [munkicommon.Error] they raise on bad input; other exceptions escape
    as [Raise]. *)
Module Detect.

Section Helpers.

Context {W : Type} {collab : Oracles W} {host : HostOracles W}.

(** [os.path.join(path, a, 'Info.plist')] *)
Definition info_plist_path (path a : string) : string :=
  PyPath.join (PyPath.join path a) "Info.plist".

Definition filesystemItemExists (w : W) (item : dict) : res cmp_result :=
  if ahas "path" item then
    filepath <- (v <- getitem "path" item ;; as_str v) ;;
    if lexists w filepath then
      if ahas "md5checksum" item then
        storedchecksum <- getitem "md5checksum" item ;;
        let ondiskchecksum := PStr (getmd5hash w filepath) in
        if pval_eqb storedchecksum ondiskchecksum
        then Ok (CmpVal 1) else Ok (CmpVal (-1))
      else Ok (CmpVal 1)
    else Ok (CmpVal 0)
  else Ok CmpError.

(** [if installedvers: if minupvers: if compareVersions(installedvers,
    minupvers) < 1: return 0; return compareVersions(installedvers,
    vers); else: return 0] *)
Definition version_against (installedvers minupvers vers : pval) : Z :=
  if truthy installedvers then
    if truthy minupvers
       && (compareVersions installedvers minupvers <? 1)%Z
    then 0%Z
    else compareVersions installedvers vers
  else 0%Z.

Definition compareBundleVersion (w : W) (item : dict) : res cmp_result :=
  if ahas "path" item && ahas "CFBundleShortVersionString" item then
    vers <- getitem "CFBundleShortVersionString" item ;;
    let minupvers := dget "minimum_update_version" item in
    path <- (v <- getitem "path" item ;; str_method v) ;;
    let filepath := info_plist_path path "Contents" in
    let filepath2 := info_plist_path path "Resources" in
    if negb (path_exists w filepath) && negb (path_exists w filepath2)
    then Ok (CmpVal 0)
    else
      let filepath :=
        if path_exists w filepath then filepath else filepath2 in
      match readPlist w filepath with
      | None => Ok (CmpVal 0)
      | Some plist =>
          Ok (CmpVal (version_against (getVersionString plist)
                        minupvers vers))
      end
  else Ok CmpError.

Definition comparePlistVersion (w : W) (item : dict) : res cmp_result :=
  if ahas "path" item && ahas "CFBundleShortVersionString" item then
    filepath <- (v <- getitem "path" item ;; as_str v) ;;
    vers <- getitem "CFBundleShortVersionString" item ;;
    let minupvers := dget "minimum_update_version" item in
    if negb (path_exists w filepath) then Ok (CmpVal 0)
    else
      match readPlist w filepath with
      | None => Ok (CmpVal 0)
      | Some plist =>
          Ok (CmpVal (version_against (getVersionString plist)
                        minupvers vers))
      end
  else Ok CmpError.

(** Applications in [/Users] but not in [/Users/Shared] are skipped. *)
Definition in_users_home (path : string) : bool :=
  PyStr.startswith "/Users/" path
  && negb (PyStr.startswith "/Users/Shared/" path).

(** One step of [for item in appdata]; the accumulator is [appinfo].
    The message of the skipped case reads [item['name']]. *)
Definition match_app (name bundleid : pval) (appinfo : list dict)
  (item : dict) : res (list dict) :=
  skipped <-
    (if ahas "path" item then
       path <- (v <- getitem "path" item ;; str_method v) ;;
       if in_users_home path
       then _ <- getitem "name" item ;; Ok true
       else Ok false
     else Ok false) ;;
  if skipped then Ok appinfo
  else if truthy bundleid then
    b <- getitem "bundleid" item ;;
    Ok (if pval_eqb b bundleid then appinfo ++ [item] else appinfo)
  else if truthy name then
    n <- getitem "name" item ;;
    Ok (if pval_eqb n name then appinfo ++ [item] else appinfo)
  else Ok appinfo.

(** [for item in appinfo: ...] and the final [return -1]; the debug
    messages read [item['bundleid']] when the item has a path. *)
Fixpoint compare_apps (minupvers versionstring : pval)
  (appinfo : list dict) : res Z :=
  match appinfo with
  | [] => Ok (-1)%Z
  | item :: rest =>
      _ <- (if ahas "path" item then getitem "bundleid" item
            else Ok PNone) ;;
      tooold <-
        (if truthy minupvers then
           v <- getitem "version" item ;;
           Ok (compareVersions v minupvers <? 1)%Z
         else Ok false) ;;
      if tooold then Ok 0%Z
      else
        match aget "version" item with
        | Some v =>
            let c := compareVersions v versionstring in
            if (c =? 1)%Z then Ok 1%Z
            else if (c =? 2)%Z then Ok 2%Z
            else compare_apps minupvers versionstring rest
        | None => compare_apps minupvers versionstring rest
        end
  end.

Definition compareApplicationVersion (w : W) (app : dict)
  : res cmp_result :=
  at_path <-
    (if ahas "path" app && ahas "CFBundleShortVersionString" app then
       path <- (v <- getitem "path" app ;; str_method v) ;;
       Ok (path_exists w (info_plist_path path "Contents"))
     else Ok false) ;;
  if at_path then compareBundleVersion w app
  else
    (* not in default location, so let's search *)
    let name := get_default "CFBundleName" (PStr "") app in
    let bundleid := get_default "CFBundleIdentifier" (PStr "") app in
    let versionstring := dget "CFBundleShortVersionString" app in
    let minupvers := dget "minimum_update_version" app in
    if pval_eqb name (PStr "") && pval_eqb bundleid (PStr "") then
      if ahas "path" app then Ok (CmpVal 0) else Ok CmpError
    else
      appinfo <- forM (match_app name bundleid) (getAppData w) [] ;;
      match appinfo with
      | [] => Ok (CmpVal 0)
      | _ =>
          c <- compare_apps minupvers versionstring appinfo ;;
          Ok (CmpVal c)
      end.

Definition compareItemVersion (w : W) (item : dict) : res cmp_result :=
  let itemtype := dget "type" item in
  if pval_eqb itemtype (PStr "application")
  then compareApplicationVersion w item
  else if pval_eqb itemtype (PStr "bundle")
  then compareBundleVersion w item
  else if pval_eqb itemtype (PStr "plist")
  then comparePlistVersion w item
  else if pval_eqb itemtype (PStr "file")
  then filesystemItemExists w item
  else Ok CmpError.

(** A list or a dictionary cannot be a key of [INSTALLEDPKGS]; a key
    that is not a string is not found. *)
Definition compareReceiptVersion (w : W) (item : dict) : res cmp_result :=
  if ahas "packageid" item && ahas "version" item then
    pkgid <- getitem "packageid" item ;;
    vers <- getitem "version" item ;;
    installedvers <-
      match pkgid with
      | PStr s => Ok (installed_version w s)
      | PList _ | PDict _ => Raise TypeError
      | _ => Ok PNone
      end ;;
    if truthy installedvers
    then Ok (CmpVal (compareVersions installedvers vers))
    else Ok (CmpVal 0)
  else Ok CmpError.

End Helpers.

End Detect.

(** The answers the detection helpers document. *)
Definition documented_answer (r : cmp_result) : Prop :=
  match r with
  | CmpVal z => z = (-1)%Z \/ z = 0%Z \/ z = 1%Z \/ z = 2%Z
  | CmpError => True
  end.

(* ================================================================= *)
(** ** A concrete machine *)

(** Modelled from the spec: [munkicommon.MunkiLooseVersion] is not part of
    the sources at hand.  The spec describes its order as a comparison over
    dot-separated segments in which numeric runs compare numerically,
    non-numeric runs lexically, and the shorter sequence is padded with
    zero. *)
Module LooseVersion.

Inductive component : Type :=
| Num (n : N)
| Alpha (s : string).

Definition flush (cur : option component) : list component :=
  match cur with Some c => [c] | None => [] end.

Definition digit_value (c : ascii) : N := (N_of_ascii c - 48)%N.

Fixpoint parse_go (cur : option component) (s : string)
  : list component :=
  match s with
  | EmptyString => flush cur
  | String c s' =>
      if Ascii.eqb c "."%char then flush cur ++ parse_go None s'
      else if PyStr.is_digit c then
        match cur with
        | Some (Num n) =>
            parse_go (Some (Num (10 * n + digit_value c)%N)) s'
        | _ => flush cur ++ parse_go (Some (Num (digit_value c))) s'
        end
      else
        match cur with
        | Some (Alpha a) => parse_go (Some (Alpha (a ++ String c ""))) s'
        | _ => flush cur ++ parse_go (Some (Alpha (String c ""))) s'
        end
  end.

Definition parse (s : string) : list component := parse_go None s.

Definition compare_component (a b : component) : comparison :=
  match a, b with
  | Num x, Num y => N.compare x y
  | Alpha x, Alpha y => String.compare x y
  | Num _, Alpha _ => Lt
  | Alpha _, Num _ => Gt
  end.

(** against a sequence made of zeros only *)
Fixpoint compare_zero (a : list component) : comparison :=
  match a with
  | [] => Eq
  | x :: a' =>
      match compare_component x (Num 0) with
      | Eq => compare_zero a'
      | c => c
      end
  end.

Fixpoint compare_components (a b : list component) : comparison :=
  match a, b with
  | [], _ => CompOpp (compare_zero b)
  | _ :: _, [] => compare_zero a
  | x :: a', y :: b' =>
      match compare_component x y with
      | Eq => compare_components a' b'
      | c => c
      end
  end.

Definition text (v : pval) : string :=
  match v with PStr s => s | _ => "" end.

Definition compare (a b : pval) : comparison :=
  compare_components (parse (text a)) (parse (text b)).

End LooseVersion.

(** A machine described by the paths on its disk, its receipts, the
    pending Apple updates and the catalog files in its cache. *)
Record machine : Type := {
  disk_paths : list string;
  disk_receipts : list (string * string);
  apple_updates : list string;
  catalog_files : list (string * list dict)
}.

(** [compareItemVersion] for [file] items without checksum
    ([filesystemItemExists]); the other item types need bundle plists,
    which this machine does not have. *)
Definition machine_compareItemVersion (w : machine) (item : pval)
  : cmp_result :=
  match item with
  | PDict d =>
      if pval_eqb (dget "type" d) (PStr "file") then
        match aget "path" d with
        | Some (PStr p) => CmpVal (if str_in p (disk_paths w) then 1 else 0)
        | _ => CmpError
        end
      else CmpError
  | _ => CmpError
  end.

Definition machine_compareReceiptVersion (w : machine) (item : pval)
  : cmp_result :=
  match item with
  | PDict d =>
      match aget "packageid" d, aget "version" d with
      | Some (PStr pkgid), Some vers =>
          match aget pkgid (disk_receipts w) with
          | Some installedvers =>
              if String.eqb installedvers "" then CmpVal 0
              else CmpVal (match LooseVersion.compare (PStr installedvers) vers
                           with
                           | Lt => -1
                           | Eq => 1
                           | Gt => 2
                           end)
          | None => CmpVal 0
          end
      | _, _ => CmpError
      end
  | _ => CmpError
  end.

(** [download_installeritem] on a machine where every transfer succeeds:
    only the missing location is an error. *)
Definition machine_download (w : machine) (item_pl : dict) (_ : installinfo)
  (uninstalling : bool) : download_result * machine :=
  let download_item_key :=
    if uninstalling && ahas "uninstaller_item_location" item_pl
    then "uninstaller_item_location" else "installer_item_location" in
  if truthy (dget download_item_key item_pl)
  then (Downloaded true 1, w)
  else (MunkiDownloadError
          ("No " ++ download_item_key ++ " in item info."), w).

#[global] Instance machine_oracles : Oracles machine := {
  looseCompare := LooseVersion.compare;
  compareItemVersion := machine_compareItemVersion;
  compareReceiptVersion := machine_compareReceiptVersion;
  softwareUpdateList := apple_updates;
  getInstalledVersion := fun _ _ => "UNKNOWN";
  download_installeritem := machine_download;
  path_exists := fun w p => str_in p (disk_paths w);
  path_executable := fun w p => str_in p (disk_paths w);
  installed_pkgids := fun w => map fst (disk_receipts w);
  read_catalog := fun w name => aget name (catalog_files w);
  url_path := fun u => u;
  stopRequested := fun _ => false
}.

Definition empty_machine : machine :=
  {| disk_paths := []; disk_receipts := []; apple_updates := [];
     catalog_files := [] |}.

(** The database [getCatalogs] stores for a catalog file. *)
Definition catalog_of (catalogitems : list dict) : pkgdb :=
  match snd (makeCatalogDB catalogitems) with
  | Ok db => db
  | _ => {| named := []; receipts := []; updaters := [];
            autoremoveitems := []; items := [] |}
  end.

Definition start_state (w : machine) : state machine :=
  {| info := empty_installinfo; world := w; PKGDATA := None |}.

Definition utc : Z -> utc_offset :=
  fun _ => {| offset_negative := false; offset_hh := 0; offset_mm := 0 |}.

(* ================================================================= *)
(** ** Sample catalogs and machines *)

Definition sample_machine_facts : dict :=
  [("os_vers", PStr "10.7"); ("arch", PStr "i386")].

(** An updater whose [update_for] was written as a string. *)
Definition updater_by_string : dict :=
  [("name", PStr "PhotoshopUpdate"); ("version", PStr "11.0.1");
   ("update_for", PStr "Photoshop")].

(** Records of [InstallInfo.plist] whose deadline (time 0) has passed. *)
Definition overdue_plain : pval :=
  PDict [("name", PStr "Qux"); ("force_install_after_date", PDate 0)].

Definition overdue_restart : pval :=
  PDict [("name", PStr "Firmware"); ("force_install_after_date", PDate 0);
         ("RestartAction", PStr "RequireRestart")].

Definition overdue_logout : pval :=
  PDict [("name", PStr "Login"); ("force_install_after_date", PDate 0);
         ("RestartAction", PStr "RequireLogout")].

Definition overdue_unattended : pval :=
  PDict [("name", PStr "Qux"); ("force_install_after_date", PDate 0);
         ("unattended_install", PBool true)].

Definition installinfo_plist (installs : list pval) : dict :=
  [("managed_installs", PList installs)].

(** A catalog in which [A] requires [B], which no catalog offers. *)
Definition sample_A : dict :=
  [("name", PStr "A"); ("version", PStr "1.0");
   ("requires", PList [PStr "B"]);
   ("installer_item_location", PStr "A.dmg")].

Definition sample_C : dict :=
  [("name", PStr "C"); ("version", PStr "2.0");
   ("installer_item_location", PStr "C.dmg");
   ("installs",
    PList [PDict [("type", PStr "file"); ("path", PStr "/Applications/C")]])].

Definition sample_globals : globals :=
  {| CATALOG := [("production", catalog_of [sample_A; sample_C])];
     MACHINE := sample_machine_facts |}.

(** A machine on which [C] is installed. *)
Definition machine_with_C : machine :=
  {| disk_paths := ["/Applications/C"]; disk_receipts := [];
     apple_updates := []; catalog_files := [] |}.

Definition state_of {W : Type} (r : res (bool * state W)) (default : state W)
  : state W :=
  match r with Ok (_, st) => st | _ => default end.

(** The state in which a run on an empty machine leaves the request [A]. *)
Definition state_after_A : state machine :=
  state_of (processInstall sample_globals 5 "A" ["production"]
              (start_state empty_machine))
           (start_state empty_machine).

(** The state in which a run on an empty machine leaves the request [C]. *)
Definition state_after_C : state machine :=
  state_of (processInstall sample_globals 5 "C" ["production"]
              (start_state empty_machine))
           (start_state empty_machine).

(** The record made for [C] once its installer item is downloaded. *)
Definition pending_record_C : dict :=
  match pending_iteminfo sample_C
          (sized_iteminfo sample_C (new_iteminfo sample_C)) true 1 with
  | Ok record => record
  | _ => []
  end.

Definition run_state {W : Type} (r : res (state W)) (default : state W)
  : state W :=
  match r with Ok st => st | _ => default end.

(** A catalog with version 1 of [A]. *)
Definition sample_A1 : dict :=
  [("name", PStr "A"); ("version", PStr "1");
   ("installer_item_location", PStr "A.dmg")].

Definition versioned_globals : globals :=
  {| CATALOG := [("production", catalog_of [sample_A1])];
     MACHINE := sample_machine_facts |}.

Definition sample_request (G : globals) (key : manifest_key)
  (items : list string) : request :=
  {| req_globals := G; req_key := key; req_items := items;
     req_catalogs := ["production"] |}.

(** Install [A-1], then remove [A-1-2]. *)
Definition state_after_versioned_requests : state machine :=
  run_state
    (run 5 [sample_request versioned_globals managed_installs_key ["A-1"];
            sample_request versioned_globals managed_uninstalls_key
              ["A-1-2"]]
         (start_state empty_machine))
    (start_state empty_machine).

(** Install [C]. *)
Definition state_after_install_C : state machine :=
  run_state
    (run 5 [sample_request sample_globals managed_installs_key ["C"]]
         (start_state empty_machine))
    (start_state empty_machine).

(** [C] processed as a managed update on a machine that has it, then
    requested for removal. *)
Definition state_after_update_C : state machine :=
  run_state
    (processManagedUpdate sample_globals 5 "C" ["production"]
       (start_state machine_with_C))
    (start_state machine_with_C).

Definition state_after_update_removal_C : state machine :=
  state_of
    (processRemoval sample_globals 5 "C" ["production"] state_after_update_C)
    state_after_update_C.

(** Two items that share the receipt [com.shared], and an application
    that requires the first of them. *)
Definition shared_receipt : pval :=
  PList [PDict [("packageid", PStr "com.shared"); ("version", PStr "1.0")]].

Definition sample_X : dict :=
  [("name", PStr "X"); ("version", PStr "1.0");
   ("uninstallable", PBool true);
   ("uninstall_method", PStr "removepackages");
   ("receipts", shared_receipt)].

Definition sample_Y : dict :=
  [("name", PStr "Y"); ("version", PStr "1.0");
   ("uninstallable", PBool true);
   ("uninstall_method", PStr "removepackages");
   ("receipts", shared_receipt)].

Definition sample_D : dict :=
  [("name", PStr "D"); ("version", PStr "1.0");
   ("requires", PList [PStr "X"]);
   ("uninstallable", PBool true);
   ("uninstall_method", PStr "remove_app");
   ("installs",
    PList [PDict [("type", PStr "file");
                  ("path", PStr "/Applications/D.app")]])].

Definition receipt_globals : globals :=
  {| CATALOG := [("production", catalog_of [sample_X; sample_Y; sample_D])];
     MACHINE := sample_machine_facts |}.

(** The shared receipt is installed; the dependent application is on disk
    or not. *)
Definition receipt_machine (with_D : bool) : machine :=
  {| disk_paths := if with_D then ["/Applications/D.app"] else [];
     disk_receipts := [("com.shared", "1.0")];
     apple_updates := [];
     catalog_files := [("production", [sample_X; sample_Y; sample_D])] |}.

Definition state_after_removal_X (with_D : bool) : state machine :=
  state_of
    (processRemoval receipt_globals 5 "X" ["production"]
       (start_state (receipt_machine with_D)))
    (start_state (receipt_machine with_D)).

(** [PKGDATA] as [analyzeInstalledPkgs] builds it on that machine. *)
Definition receipt_pkgdata : pkgdata :=
  {| receipts_for_name := [("X", ["com.shared"]); ("Y", ["com.shared"])];
     installed_names := ["X"; "Y"];
     pkg_references := [("com.shared", ["X"; "Y"])] |}.

Definition receipt_state : state machine :=
  {| info := empty_installinfo;
     world := receipt_machine false;
     PKGDATA := Some receipt_pkgdata |}.

(** Items with two prerequisites: [C], which the catalog offers, and
    [B], which it does not; [F] asks for [C] by name and version. *)
Definition sample_E : dict :=
  [("name", PStr "E"); ("version", PStr "1.0");
   ("requires", PList [PStr "C"; PStr "B"]);
   ("installer_item_location", PStr "E.dmg")].

Definition sample_F : dict :=
  [("name", PStr "F"); ("version", PStr "1.0");
   ("requires", PList [PStr "C-2.0"; PStr "B"]);
   ("installer_item_location", PStr "F.dmg")].

Definition prerequisite_globals : globals :=
  {| CATALOG := [("production", catalog_of [sample_E; sample_F; sample_C])];
     MACHINE := sample_machine_facts |}.

(** The state in which the prerequisite [C] of [E] leaves an empty
    machine: [E] is marked, [C] is marked and scheduled. *)
Definition state_before_B : state machine :=
  state_of (processInstall prerequisite_globals 4 "C" ["production"]
              (mark_processed "E" (start_state empty_machine)))
           (start_state empty_machine).







(* ================================================================= *)
(** ** More sample data *)

(** [int] on a string of decimal digits (the sample machine reads
    nothing else). *)
Fixpoint decimal_value (acc : Z) (s : string) : option Z :=
  match s with
  | EmptyString => Some acc
  | String c s' =>
      if PyStr.is_digit c
      then decimal_value (10 * acc + Z.of_N (LooseVersion.digit_value c)) s'
      else None
  end.

(** The sample machine has a gigabyte free, an empty cache, and a server
    that offers the catalogs listed in [catalog_files]. *)
#[global] Instance machine_host : HostOracles machine := {
  ManagedInstallDir := fun _ => "/Library/Managed Installs";
  getsize := fun _ _ => 0%Z;
  getAvailableDiskSpace := fun _ => 1048576%Z;
  int_of_string := fun s =>
    match s with
    | EmptyString => None
    | _ => decimal_value 0 s
    end;
  catalogbaseurl := fun _ => Some "http://munki/repo/catalogs/";
  fetch_catalog := fun w catalogname =>
    (ahas catalogname (catalog_files w), w);
  unlink_catalog := fun w _ => w;
  lexists := fun w p => str_in p (disk_paths w);
  getmd5hash := fun _ _ => "d41d8cd98f00b204e9800998ecf8427e";
  readPlist := fun _ _ => None;
  getVersionString := fun plist => get_default "CFBundleShortVersionString"
                                     (PStr "") plist;
  getAppData := fun w =>
    map (fun p => [("name", PStr (PyStr.basename p)); ("path", PStr p);
                   ("bundleid", PStr ""); ("version", PStr "1.0")])
        (disk_paths w);
  installed_version := fun w pkgid =>
    match aget pkgid (disk_receipts w) with
    | Some v => PStr v
    | None => PNone
    end
}.

Definition update_globals : globals :=
  {| CATALOG := [("production", catalog_of [updater_by_string])];
     MACHINE := sample_machine_facts |}.

(** An item that is removed when no manifest asks for it. *)
Definition sample_R : dict :=
  [("name", PStr "R"); ("version", PStr "1.0"); ("autoremove", PBool true)].

Definition autoremove_globals : globals :=
  {| CATALOG := [("production", catalog_of [sample_R])];
     MACHINE := sample_machine_facts |}.

(** An item whose only receipt names no package id. *)
Definition sample_N : dict :=
  [("name", PStr "N"); ("version", PStr "1.0");
   ("receipts", PList [PDict [("version", PStr "1.0")]])].

Definition broken_receipt_globals : globals :=
  {| CATALOG := [("production", catalog_of [sample_N])];
     MACHINE := sample_machine_facts |}.

(** [C] listed as an optional install on an empty machine. *)
Definition state_after_optional_C : state machine :=
  run_state
    (processOptionalInstall sample_globals "C" ["production"]
       (start_state empty_machine))
    (start_state empty_machine).

(** The info object built for the sample machine. *)
Definition sample_info_object : dict :=
  match makePredicateInfoObject sample_machine_facts [] [] with
  | Ok info_object => info_object
  | _ => []
  end.

(** [CATALOG] after the catalog [production] was retrieved. *)
Definition loaded_catalogs : list (string * pkgdb) :=
  match getCatalogs ["production"; "testing"] [] (receipt_machine false) with
  | Ok (catalog, _) => catalog
  | _ => []
  end.

(** A machine together with the application data that
    [system_profiler] reported for it. *)
Definition profiled_machine : Type := (machine * list dict)%type.

#[global] Instance profiled_oracles : Oracles profiled_machine := {
  looseCompare := LooseVersion.compare;
  compareItemVersion := fun w => machine_compareItemVersion (fst w);
  compareReceiptVersion := fun w => machine_compareReceiptVersion (fst w);
  softwareUpdateList := fun w => apple_updates (fst w);
  getInstalledVersion := fun _ _ => "UNKNOWN";
  download_installeritem := fun w item i b =>
    let '(r, m) := machine_download (fst w) item i b in (r, (m, snd w));
  path_exists := fun w p => str_in p (disk_paths (fst w));
  path_executable := fun w p => str_in p (disk_paths (fst w));
  installed_pkgids := fun w => map fst (disk_receipts (fst w));
  read_catalog := fun w name => aget name (catalog_files (fst w));
  url_path := fun u => u;
  stopRequested := fun _ => false
}.

#[global] Instance profiled_host : HostOracles profiled_machine := {
  ManagedInstallDir := fun w => ManagedInstallDir (fst w);
  getsize := fun w => getsize (fst w);
  getAvailableDiskSpace := fun w => getAvailableDiskSpace (fst w);
  int_of_string := int_of_string (W := machine);
  catalogbaseurl := fun w => catalogbaseurl (fst w);
  fetch_catalog := fun w catalogname =>
    let '(ok, m) := fetch_catalog (fst w) catalogname in (ok, (m, snd w));
  unlink_catalog := fun w catalogname =>
    (unlink_catalog (fst w) catalogname, snd w);
  lexists := fun w => lexists (fst w);
  getmd5hash := fun w => getmd5hash (fst w);
  readPlist := fun w => readPlist (fst w);
  getVersionString := getVersionString (W := machine);
  getAppData := snd;
  installed_version := fun w => installed_version (fst w)
}.

(** What a manifest says of Safari, and two copies of it: one in
    [/Applications], one in the home directory of a user. *)
Definition safari_wanted : dict :=
  [("type", PStr "application"); ("CFBundleName", PStr "Safari");
   ("CFBundleShortVersionString", PStr "5.0")].

Definition safari_installed : dict :=
  [("name", PStr "Safari"); ("path", PStr "/Applications/Safari.app");
   ("bundleid", PStr "com.apple.Safari"); ("version", PStr "4.0")].

Definition safari_at_home : dict :=
  [("name", PStr "Safari");
   ("path", PStr "/Users/alice/Applications/Safari.app");
   ("bundleid", PStr "com.apple.Safari"); ("version", PStr "5.0")].

(** A [file] item of an [installs] list. *)
Definition file_wanted : dict :=
  [("type", PStr "file"); ("path", PStr "/Applications/D.app")].

(** An item whose pkginfo gives both sizes, listed as an optional
    install on an empty machine. *)
Definition sample_S : dict :=
  [("name", PStr "S"); ("version", PStr "1.0");
   ("installer_item_location", PStr "S.dmg");
   ("installer_item_size", PInt 100); ("installed_size", PInt 500);
   ("installs",
    PList [PDict [("type", PStr "file"); ("path", PStr "/Applications/S")]])].

Definition sized_globals : globals :=
  {| CATALOG := [("production", catalog_of [sample_S])];
     MACHINE := sample_machine_facts |}.

Definition state_after_optional_S : state machine :=
  run_state
    (processOptionalInstall sized_globals "S" ["production"]
       (start_state empty_machine))
    (start_state empty_machine).

Definition optional_record_S : dict :=
  last (optional_installs (info state_after_optional_S)) [].
(* ================================================================= *)
(** * Properties *)

(** ** The outcome monad *)

Lemma bind_Ok_inv {A B : Type} (m : res A) (k : A -> res B) (b : B) :
  bind m k = Ok b -> exists a, m = Ok a /\ k a = Ok b.
Proof.
  destruct m as [a| |]; simpl; intros H; try discriminate.
  exists a. split; [reflexivity | exact H].
Qed.

Lemma Ok_inj {A : Type} (a b : A) : Ok a = Ok b -> a = b.
Proof. intros H. congruence. Qed.

Lemma forM_cons {A S : Type} (body : S -> A -> res S) (x : A) (xs : list A)
  (s : S) :
  forM body (x :: xs) s = bind (body s x) (fun s' => forM body xs s').
Proof. reflexivity. Qed.

Lemma forM_app {A S : Type} (body : S -> A -> res S) (xs ys : list A) (s : S) :
  forM body (xs ++ ys) s = bind (forM body xs s) (fun s' => forM body ys s').
Proof.
  revert s. induction xs as [|x xs IH]; intros s; simpl; [reflexivity|].
  destruct (body s x); simpl; auto.
Qed.

(** A loop keeps what each of its iterations keeps. *)
Lemma forM_invariant {A S : Type} (P : S -> Prop) (body : S -> A -> res S)
  (xs : list A) :
  (forall s x s', In x xs -> P s -> body s x = Ok s' -> P s') ->
  forall s s', P s -> forM body xs s = Ok s' -> P s'.
Proof.
  induction xs as [|x xs IH]; intros Hbody s s' Hs H; simpl in H.
  - inversion H; subst. exact Hs.
  - apply bind_Ok_inv in H. destruct H as [s1 [H1 H2]].
    apply (IH (fun s0 x0 s0' Hin => Hbody s0 x0 s0' (or_intror Hin)) s1 s');
      [|exact H2].
    apply (Hbody s x s1); [left; reflexivity | exact Hs | exact H1].
Qed.

(** ** Association lists and lists *)

Lemma aget_aset {V : Type} (k k' : string) (v : V) (d : list (string * V)) :
  aget k (aset k' v d) = if String.eqb k k' then Some v else aget k d.
Proof.
  induction d as [|[k0 v0] d IH]; simpl.
  - destruct (String.eqb k k'); reflexivity.
  - destruct (String.eqb k' k0) eqn:E0; simpl.
    + apply String.eqb_eq in E0. subst k0.
      destruct (String.eqb k k'); reflexivity.
    + destruct (String.eqb k k0) eqn:E1.
      * apply String.eqb_eq in E1. subst k0.
        rewrite String.eqb_sym, E0. reflexivity.
      * exact IH.
Qed.

Lemma aget_aset_other {V : Type} (k k' : string) (v : V)
  (d : list (string * V)) :
  k <> k' -> aget k (aset k' v d) = aget k d.
Proof.
  intros H. rewrite aget_aset.
  destruct (String.eqb k k') eqn:E; [|reflexivity].
  apply String.eqb_eq in E. contradiction.
Qed.

Lemma str_in_In (x : string) (l : list string) :
  str_in x l = true <-> In x l.
Proof.
  unfold str_in. rewrite existsb_exists. split.
  - intros [y [Hy E]]. apply String.eqb_eq in E. subst. exact Hy.
  - intros H. exists x. split; [exact H | apply String.eqb_refl].
Qed.

Lemma str_in_false (x : string) (l : list string) :
  str_in x l = false <-> ~ In x l.
Proof.
  rewrite <- str_in_In. destruct (str_in x l); split; intros H;
    try discriminate; try reflexivity; auto.
  exfalso. apply H. reflexivity.
Qed.

Lemma str_in_app (x : string) (l m : list string) :
  str_in x (l ++ m) = str_in x l || str_in x m.
Proof. unfold str_in. apply existsb_app. Qed.

Lemma nth_error_list_set {A : Type} (i j : nat) (x : A) (l : list A) :
  nth_error (list_set i x l) j =
  if Nat.eqb i j
  then match nth_error l j with Some _ => Some x | None => None end
  else nth_error l j.
Proof.
  revert i j. induction l as [|y l IH]; intros i j.
  - replace (list_set i x []) with (@nil A) by (destruct i; reflexivity).
    destruct (Nat.eqb i j); destruct j; reflexivity.
  - destruct i as [|i]; destruct j as [|j]; simpl; try reflexivity.
    apply IH.
Qed.

Lemma length_list_set {A : Type} (i : nat) (x : A) (l : list A) :
  List.length (list_set i x l) = List.length l.
Proof.
  revert i. induction l as [|y l IH]; intros [|i]; simpl; auto.
Qed.

(** ** nameAndVersion *)

(** C8.  [nameAndVersion] is not total: on a name that ends in a hyphen
    or a double hyphen the token after the delimiter is empty and
    [vers[0]] raises [IndexError], where the specification expects the
    pair (input, ""). *)
Theorem nameAndVersion_trailing_hyphen_raises :
  nameAndVersion "Name-" = Raise IndexError /\
  nameAndVersion "Name--" = Raise IndexError /\
  nameAndVersion "-" = Raise IndexError.
Proof. repeat split; reflexivity. Qed.

Example nameAndVersion_TextWrangler :
  nameAndVersion "TextWrangler-2.3b1" = Ok ("TextWrangler", "2.3b1").
Proof. reflexivity. Qed.

Example nameAndVersion_Photoshop :
  nameAndVersion "AdobePhotoshopCS3--11.2.1" = Ok ("AdobePhotoshopCS3", "11.2.1").
Proof. reflexivity. Qed.

Example nameAndVersion_plain :
  nameAndVersion "PlainName" = Ok ("PlainName", "").
Proof. reflexivity. Qed.

Example nameAndVersion_not_idempotent :
  nameAndVersion "A-1-2" = Ok ("A-1", "2") /\ nameAndVersion "A-1" = Ok ("A", "1").
Proof. split; reflexivity. Qed.

Example trimVersionString_examples :
  trimVersionString "10.0.0.0" = "10.0" /\
  trimVersionString "10.0.0.1" = "10.0.0.1" /\
  trimVersionString "10.0.0-abc1" = "10.0.0-abc1" /\
  trimVersionString "10.0.0-abc1.0" = "10.0.0-abc1".
Proof. repeat split; reflexivity. Qed.

(** ** makeCatalogDB *)

Lemma fix_update_for_other (k : string) (item : dict) :
  k <> "update_for" -> aget k (fix_update_for item) = aget k item.
Proof.
  intros H. unfold fix_update_for.
  destruct (aget "update_for" item) as [[]|]; try reflexivity.
  apply aget_aset_other. exact H.
Qed.

Lemma fix_update_for_idem (item : dict) :
  fix_update_for (fix_update_for item) = fix_update_for item.
Proof.
  unfold fix_update_for at 2 3.
  destruct (aget "update_for" item) as [v|] eqn:E.
  - destruct v; try (unfold fix_update_for; rewrite E; reflexivity).
    unfold fix_update_for. rewrite aget_aset. simpl. reflexivity.
  - unfold fix_update_for. rewrite E. reflexivity.
Qed.

Lemma nth_error_fix_updater (store : list dict) (u j : nat) :
  nth_error (fix_updater store u) j =
  if Nat.eqb u j then option_map fix_update_for (nth_error store j)
  else nth_error store j.
Proof.
  unfold fix_updater. destruct (nth_error store u) as [update|] eqn:E.
  - rewrite nth_error_list_set. destruct (Nat.eqb u j) eqn:Ej.
    + apply Nat.eqb_eq in Ej. subst j. rewrite E. reflexivity.
    + reflexivity.
  - destruct (Nat.eqb u j) eqn:Ej; [|reflexivity].
    apply Nat.eqb_eq in Ej. subst j. rewrite E. reflexivity.
Qed.

Lemma nth_error_fold_fix_updater (us : list nat) (store : list dict) (j : nat) :
  nth_error (fold_left fix_updater us store) j =
  if existsb (Nat.eqb j) us then option_map fix_update_for (nth_error store j)
  else nth_error store j.
Proof.
  revert store. induction us as [|u us IH]; intros store; simpl.
  - reflexivity.
  - rewrite IH, nth_error_fix_updater. rewrite (Nat.eqb_sym j u).
    destruct (Nat.eqb u j); simpl.
    + destruct (nth_error store j); simpl; [|destruct (existsb _ us); reflexivity].
      rewrite fix_update_for_idem. destruct (existsb _ us); reflexivity.
    + reflexivity.
Qed.

Lemma In_combine_seq {A : Type} (l : list A) (k i : nat) (x : A) :
  In (i, x) (combine (seq k (List.length l)) l) <->
  (k <= i /\ nth_error l (i - k) = Some x).
Proof.
  revert k. induction l as [|y l IH]; intros k; simpl.
  - split; [contradiction|]. intros [_ H]. destruct (i - k); discriminate.
  - rewrite IH. split.
    + intros [E | [Hk Hn]].
      * inversion E; subst. split; [lia|]. rewrite Nat.sub_diag. reflexivity.
      * split; [lia|]. replace (i - k) with (S (i - S k)) by lia. exact Hn.
    + intros [Hk Hn]. destruct (i - k) as [|m] eqn:Em.
      * left. simpl in Hn. inversion Hn. f_equal. lia.
      * right. split; [lia|]. simpl in Hn.
        replace (i - S k) with m by lia. exact Hn.
Qed.

Lemma In_enumerate {A : Type} (l : list A) (i : nat) (x : A) :
  In (i, x) (enumerate l) <-> nth_error l i = Some x.
Proof.
  unfold enumerate. rewrite In_combine_seq. rewrite Nat.sub_0_r.
  split; [intros [_ H]; exact H | intros H; split; [lia | exact H]].
Qed.

(** The objects [makeCatalogDB] rewrites are those with a true
    [update_for]. *)
Lemma updater_index (catalogitems : list dict) (j : nat) :
  existsb (Nat.eqb j)
    (map fst (filter (fun e => has_update_for (snd e)) (enumerate catalogitems)))
  = match nth_error catalogitems j with
    | Some item => has_update_for item
    | None => false
    end.
Proof.
  destruct (existsb _ _) eqn:E.
  - apply existsb_exists in E. destruct E as [i [Hi Ei]].
    apply Nat.eqb_eq in Ei. subst i.
    apply in_map_iff in Hi. destruct Hi as [[i x] [Ei Hi]]. simpl in Ei. subst i.
    apply filter_In in Hi. destruct Hi as [Hi Hx]. simpl in Hx.
    apply In_enumerate in Hi. rewrite Hi. symmetry. exact Hx.
  - destruct (nth_error catalogitems j) as [item|] eqn:En; [|reflexivity].
    destruct (has_update_for item) eqn:Hu; [|reflexivity].
    exfalso. rewrite <- not_true_iff_false in E. apply E.
    apply existsb_exists. exists j. split; [|apply Nat.eqb_refl].
    apply in_map_iff. exists (j, item). split; [reflexivity|].
    apply filter_In. split; [apply In_enumerate; exact En | exact Hu].
Qed.

(** What the call leaves at each position of the catalog list. *)
Lemma makeCatalogDB_store (catalogitems : list dict) (j : nat) :
  nth_error (fst (makeCatalogDB catalogitems)) j =
  match snd (makeCatalogDB catalogitems), nth_error catalogitems j with
  | Ok _, Some item =>
      Some (if has_update_for item then fix_update_for item else item)
  | _, o => o
  end.
Proof.
  unfold makeCatalogDB.
  destruct (forM index_item (enumerate catalogitems) ([], [])) as [[nt pt]| |];
    simpl; try (destruct (nth_error catalogitems j); reflexivity).
  rewrite nth_error_fold_fix_updater, updater_index.
  destruct (nth_error catalogitems j) as [item|]; [|reflexivity].
  destruct (has_update_for item); reflexivity.
Qed.




(** ** checkForceInstallPackages *)

Section ForceInstallFacts.

Variable local_offset : Z -> utc_offset.

Lemma due_urgency_not_soon (install : pval) : due_urgency install <> soon.
Proof.
  destruct install; simpl; try discriminate.
  destruct (pval_eqb _ _); [discriminate|].
  destruct (pval_eqb _ _); discriminate.
Qed.

Lemma due_warned (now_date : Z) (install : pval) :
  due local_offset now_date install = true ->
  warned local_offset now_date install = true.
Proof.
  unfold due, warned. destruct (deadline_of local_offset install); [|discriminate].
  unfold FORCE_INSTALL_WARNING_HOURS. intros H.
  apply Z.geb_le in H. apply Z.geb_le. lia.
Qed.

(** One iteration reads the record at its index, folds what it asks for
    into [result] and touches that record only. *)
Lemma force_install_step_spec (now_date : Z) (result : option urgency)
  (installs : list pval) (writeback : bool) (i : nat)
  (result' : option urgency) (installs' : list pval) (writeback' : bool) :
  force_install_step local_offset now_date
    (now_date + FORCE_INSTALL_WARNING_HOURS * 3600)
    (result, installs, writeback) i = Ok (result', installs', writeback') ->
  exists install,
    nth_error installs i = Some install /\
    result' = escalate result (record_urgency local_offset now_date install) /\
    (forall j, j <> i -> nth_error installs' j = nth_error installs j).
Proof.
  unfold force_install_step.
  destruct (nth_error installs i) as [install|] eqn:En; [|discriminate].
  destruct install as [| | | | | |d]; try discriminate.
  intros H. exists (PDict d). split; [reflexivity|].
  unfold record_urgency, due, warned, deadline_of.
  destruct (truthy (dget "force_install_after_date" d)) eqn:Et.
  - destruct (dget "force_install_after_date" d) as [| | | |t| |] eqn:Ed;
      simpl in H; try discriminate.
    unfold getitem in H. destruct (aget "name" d); simpl in H; [|discriminate].
    destruct (now_date >=? discardTimeZoneFromDate local_offset t)%Z eqn:Edue.
    + assert (Hw : (now_date + 14400 >=?
                    discardTimeZoneFromDate local_offset t)%Z = true).
      { apply Z.geb_le. apply Z.geb_le in Edue. lia. }
      rewrite Hw in H. simpl.
      destruct (truthy (dget "RestartAction" d)) eqn:Er.
      * destruct (pval_eqb (dget "RestartAction" d) (PStr "RequireLogout"));
          simpl in H.
        { inversion H; subst. split; [reflexivity | auto]. }
        destruct (pval_eqb (dget "RestartAction" d) (PStr "RequireRestart"));
          simpl in H; inversion H; subst; split; auto.
      * assert (E1 : pval_eqb (dget "RestartAction" d) (PStr "RequireLogout")
                     = false).
        { destruct (dget "RestartAction" d); try reflexivity.
          simpl in *. destruct s; [reflexivity | discriminate]. }
        assert (E2 : pval_eqb (dget "RestartAction" d) (PStr "RequireRestart")
                     = false).
        { destruct (dget "RestartAction" d); try reflexivity.
          simpl in *. destruct s; [reflexivity | discriminate]. }
        rewrite E1, E2.
        destruct (negb (truthy (get_default "unattended_install"
                                  (PBool false) d))); simpl in H;
          inversion H; subst; split; auto.
        intros j Hj. rewrite nth_error_list_set.
        destruct (Nat.eqb i j) eqn:Eij; [|reflexivity].
        apply Nat.eqb_eq in Eij. congruence.
    + simpl in H.
      change (FORCE_INSTALL_WARNING_HOURS * 3600)%Z with 14400%Z.
      destruct (now_date + 14400 >=?
                discardTimeZoneFromDate local_offset t)%Z.
      * destruct result; inversion H; subst; split; auto.
      * inversion H; subst; split; auto.
  - inversion H; subst.
    destruct (dget "force_install_after_date" d); try (split; auto; fail).
    discriminate.
Qed.

Lemma skipn_nth_error {A : Type} (l : list A) (i : nat) (x : A) :
  nth_error l i = Some x -> skipn i l = x :: skipn (S i) l.
Proof.
  revert i. induction l as [|y l IH]; intros [|i] H; simpl in *;
    try discriminate.
  - inversion H. reflexivity.
  - apply IH. exact H.
Qed.

(** The loop from index [i] on folds the records of the list as it was
    read: an iteration changes no record that is still to come. *)
Lemma force_install_loop_spec (now_date : Z) (orig : list pval) (k i : nat)
  (result : option urgency) (installs : list pval) (writeback : bool)
  (result' : option urgency) (installs' : list pval) (writeback' : bool) :
  (forall j, i <= j -> nth_error installs j = nth_error orig j) ->
  forM (force_install_step local_offset now_date
          (now_date + FORCE_INSTALL_WARNING_HOURS * 3600))
       (seq i k) (result, installs, writeback)
    = Ok (result', installs', writeback') ->
  result' =
    fold_left escalate
      (map (record_urgency local_offset now_date) (firstn k (skipn i orig)))
      result.
Proof.
  revert i result installs writeback.
  induction k as [|k IH]; intros i result installs writeback Hsame H.
  - simpl in H. inversion H. reflexivity.
  - change (seq i (S k)) with (i :: seq (S i) k) in H.
    rewrite forM_cons in H. apply bind_Ok_inv in H.
    destruct H as [[[r1 l1] w1] [Es H]].
    apply force_install_step_spec in Es.
    destruct Es as [install [En [Er Hl]]].
    rewrite Hsame in En by lia.
    rewrite (skipn_nth_error _ _ En). simpl. rewrite <- Er.
    apply (IH (S i) r1 l1 w1); [|exact H].
    intros j Hj. rewrite Hl by lia. apply Hsame. lia.
Qed.

Lemma fold_escalate_last_due (now_date : Z) (installs : list pval) :
  fold_left escalate
    (map (record_urgency local_offset now_date) installs) None
  = last_due_urgency local_offset now_date installs.
Proof.
  induction installs as [|x l IH] using rev_ind.
  - reflexivity.
  - rewrite map_app, fold_left_app, IH. simpl.
    unfold last_due_urgency. rewrite rev_app_distr, existsb_app. simpl.
    unfold record_urgency.
    destruct (due local_offset now_date x) eqn:Ed.
    + pose proof (due_urgency_not_soon x) as Hn.
      destruct (due_urgency x); try reflexivity. contradiction.
    + destruct (warned local_offset now_date x) eqn:Ew; simpl.
      * destruct (find (due local_offset now_date) (rev l)); [reflexivity|].
        rewrite orb_true_r.
        destruct (existsb (warned local_offset now_date) l); reflexivity.
      * rewrite orb_false_r. reflexivity.
Qed.

(** C3, as amended.  The urgency returned is decided by the last record
    of the list whose deadline has passed (now, logout or restart by its
    RestartAction); when no deadline has passed it is soon if some
    deadline falls within the warning hours, and none otherwise. *)
Theorem checkForceInstallPackages_last_due_record_decides
  (now_date : Z) (installinfo : dict) (installs : list pval)
  (result : option urgency) (installs' : list pval) (writeback : bool) :
  get_default "managed_installs" (PList []) installinfo = PList installs ->
  checkForceInstallPackages local_offset now_date (Some installinfo)
    = Ok (result, installs', writeback) ->
  result = last_due_urgency local_offset now_date installs.
Proof.
  intros Hl H. unfold checkForceInstallPackages in H. rewrite Hl in H.
  simpl in H.
  apply (force_install_loop_spec now_date installs) in H.
  - rewrite skipn_O, firstn_all in H. rewrite H.
    apply fold_escalate_last_due.
  - intros j _. reflexivity.
Qed.

(** C9, as amended.  For a single record whose deadline has passed, whose
    RestartAction is unset and whose unattended_install flag is not set
    yet, the check returns now, sets the flag and writes the list back. *)
Theorem checkForceInstallPackages_sets_unattended
  (now_date : Z) (installinfo install : dict) (t : Z) :
  get_default "managed_installs" (PList []) installinfo
    = PList [PDict install] ->
  dget "force_install_after_date" install = PDate t ->
  (discardTimeZoneFromDate local_offset t <= now_date)%Z ->
  truthy (dget "RestartAction" install) = false ->
  truthy (get_default "unattended_install" (PBool false) install) = false ->
  ahas "name" install = true ->
  checkForceInstallPackages local_offset now_date (Some installinfo)
    = Ok (Some now,
          [PDict (aset "unattended_install" (PBool true) install)],
          true).
Proof.
  intros Hl Hd Hpast Hr Hu Hn.
  unfold checkForceInstallPackages. rewrite Hl. simpl.
  rewrite Hd. simpl. unfold getitem, ahas in *.
  destruct (aget "name" install); [|discriminate]. simpl.
  assert (E : (now_date >=? discardTimeZoneFromDate local_offset t)%Z = true)
    by (apply Z.geb_le; exact Hpast).
  rewrite E, Hr, Hu. simpl.
  assert (Ew : (now_date + 14400 >=?
                discardTimeZoneFromDate local_offset t)%Z = true)
    by (apply Z.geb_le; lia).
  rewrite Ew. reflexivity.
Qed.

(** When the flag is set already the check still returns now, but the
    record is left as it is and nothing is written back. *)
Lemma checkForceInstallPackages_already_unattended
  (now_date : Z) (installinfo install : dict) (t : Z) :
  get_default "managed_installs" (PList []) installinfo
    = PList [PDict install] ->
  dget "force_install_after_date" install = PDate t ->
  (discardTimeZoneFromDate local_offset t <= now_date)%Z ->
  truthy (dget "RestartAction" install) = false ->
  truthy (get_default "unattended_install" (PBool false) install) = true ->
  ahas "name" install = true ->
  checkForceInstallPackages local_offset now_date (Some installinfo)
    = Ok (Some now, [PDict install], false).
Proof.
  intros Hl Hd Hpast Hr Hu Hn.
  unfold checkForceInstallPackages. rewrite Hl. simpl.
  rewrite Hd. simpl. unfold getitem, ahas in *.
  destruct (aget "name" install); [|discriminate]. simpl.
  assert (E : (now_date >=? discardTimeZoneFromDate local_offset t)%Z = true)
    by (apply Z.geb_le; exact Hpast).
  rewrite E, Hr, Hu. simpl.
  assert (Ew : (now_date + 14400 >=?
                discardTimeZoneFromDate local_offset t)%Z = true)
    by (apply Z.geb_le; lia).
  rewrite Ew. reflexivity.
Qed.

End ForceInstallFacts.

Lemma checkForceInstallPackages_last_due_record_decides_witness :
  Some restart =
  last_due_urgency utc 100 [overdue_plain; overdue_restart].
Proof.
  apply (@checkForceInstallPackages_last_due_record_decides utc 100
           (installinfo_plist [overdue_plain; overdue_restart])
           [overdue_plain; overdue_restart] (Some restart)
           [PDict [("name", PStr "Qux"); ("force_install_after_date", PDate 0);
                   ("unattended_install", PBool true)];
            overdue_restart]
           true).
  - reflexivity.
  - reflexivity.
Defined.

(** C3, as stated, fails: the result depends on the order of the records.
    With a record that asks for now and one that asks for restart, the
    check returns restart when the restart record comes last, although now
    ranks higher in the order of the specification, and returns now when
    the same two records come in the other order. *)
Lemma checkForceInstallPackages_depends_on_order :
  checkForceInstallPackages utc 100
    (Some (installinfo_plist [overdue_plain; overdue_restart]))
  = Ok (Some restart, [overdue_unattended; overdue_restart], true) /\
  checkForceInstallPackages utc 100
    (Some (installinfo_plist [overdue_restart; overdue_plain]))
  = Ok (Some now, [overdue_restart; overdue_unattended], true) /\
  record_urgency utc 100 overdue_plain = Some now /\
  urgency_rank (Some restart) < urgency_rank (Some now).
Proof. repeat split. simpl. lia. Qed.

Lemma checkForceInstallPackages_sets_unattended_witness :
  checkForceInstallPackages utc 100 (Some (installinfo_plist [overdue_plain]))
  = Ok (Some now, [overdue_unattended], true).
Proof.
  apply (@checkForceInstallPackages_sets_unattended utc 100
           (installinfo_plist [overdue_plain])
           [("name", PStr "Qux"); ("force_install_after_date", PDate 0)] 0);
    try reflexivity.
  vm_compute. discriminate.
Defined.

(** C9, as stated, fails: when the record already carries
    unattended_install the check returns now but changes nothing and does
    not write the list back. *)
Lemma checkForceInstallPackages_no_writeback :
  checkForceInstallPackages utc 100
    (Some (installinfo_plist [overdue_unattended]))
  = Ok (Some now, [overdue_unattended], false).
Proof. reflexivity. Qed.

(** ** processInstall: what it keeps *)

Ltac inv_bind H :=
  let x := fresh "x" in
  let E := fresh "E" in
  apply bind_Ok_inv in H; destruct H as [x [E H]].

Section InstallFacts.

Context {W : Type} {collab : Oracles W}.
Variable G : globals.

Lemma install_extends_refl (st : state W) : install_extends st st.
Proof.
  repeat split; try reflexivity.
  - exists []. split; [symmetry; apply app_nil_r | constructor].
  - exists []. symmetry. apply app_nil_r.
Qed.

Lemma install_extends_trans (st1 st2 st3 : state W) :
  install_extends st1 st2 -> install_extends st2 st3 ->
  install_extends st1 st3.
Proof.
  intros (Hu & Hm & Hr & Ho & Hp & (a1 & Ha1 & Hf1) & (r1 & Hr1))
         (Hu' & Hm' & Hr' & Ho' & Hp' & (a2 & Ha2 & Hf2) & (r2 & Hr2)).
  repeat split; try congruence.
  - exists (a1 ++ a2). split.
    + rewrite Ha2, Ha1, app_assoc. reflexivity.
    + apply Forall_app. split; [exact Hf1|].
      rewrite Hu, Hm in Hf2. exact Hf2.
  - exists (r1 ++ r2). rewrite Hr2, Hr1, app_assoc. reflexivity.
Qed.

Lemma install_extends_world (st : state W) (w : W) :
  install_extends st (with_world w st).
Proof.
  repeat split; try reflexivity.
  - exists []. split; [symmetry; apply app_nil_r | constructor].
  - exists []. symmetry. apply app_nil_r.
Qed.

Lemma install_extends_append (st : state W) (iteminfo : dict) :
  install_extends st (append_managed_install iteminfo st).
Proof.
  repeat split; try reflexivity.
  - exists []. split; [symmetry; apply app_nil_r | constructor].
  - exists [iteminfo]. reflexivity.
Qed.

Lemma install_extends_mark (st : state W) (name b v : string) :
  nameAndVersion name = Ok (b, v) ->
  str_in b (processed_uninstalls (info st)) = false ->
  install_extends st (mark_processed name st).
Proof.
  intros Hn Hb. unfold mark_processed.
  destruct (str_in name (managed_updates (info st))) eqn:Em.
  - apply install_extends_refl.
  - repeat split; try reflexivity.
    + exists [name]. split; [reflexivity|]. constructor; [|constructor].
      split.
      * apply str_in_false. exact Em.
      * exists b, v. split; [exact Hn | apply str_in_false; exact Hb].
    + exists []. symmetry. apply app_nil_r.
Qed.

Section Loops.

Variable self : string -> list string -> state W -> res (bool * state W).
Hypothesis self_extends :
  forall item cataloglist st b st',
    self item cataloglist st = Ok (b, st') -> install_extends st st'.

Lemma process_requires_extends (cataloglist : list string)
  (item_pl : dict) (st : state W) (met : bool) (st' : state W) :
  process_requires self cataloglist item_pl st = Ok (met, st') ->
  install_extends st st'.
Proof.
  unfold process_requires.
  destruct (aget "requires" item_pl) as [requires|].
  - intros H. inv_bind H.
    change (install_extends st (snd (met, st'))).
    revert H.
    apply forM_invariant
      with (P := fun acc : bool * state W => install_extends st (snd acc)).
    + intros [m s] item [m' s'] _ Hs Hb. simpl in *.
      inv_bind Hb. inv_bind Hb. destruct x1 as [success s1].
      inversion Hb; subst.
      eapply install_extends_trans; [exact Hs|].
      eapply self_extends. exact E1.
    + apply install_extends_refl.
  - intros H. inversion H; subst. apply install_extends_refl.
Qed.

Lemma process_updates_extends (cataloglist : list string)
  (update_list : list pval) (st st' : state W) :
  process_updates self cataloglist update_list st = Ok st' ->
  install_extends st st'.
Proof.
  unfold process_updates.
  apply forM_invariant with (P := fun s : state W => install_extends st s).
  - intros s item s' _ Hs Hb.
    inv_bind Hb. inv_bind Hb. destruct x0 as [b s1].
    inversion Hb; subst.
    eapply install_extends_trans; [exact Hs|].
    eapply self_extends. exact E0.
  - apply install_extends_refl.
Qed.

End Loops.

Lemma failed_install_extends (iteminfo : dict) (note : string)
  (st : state W) (b : bool) (st' : state W) :
  failed_install iteminfo note st = Ok (b, st') -> install_extends st st'.
Proof.
  unfold failed_install. intros H. inversion H; subst.
  apply install_extends_append.
Qed.

Lemma copy_keys_other (k : string) (keys : list string) (src dst : dict) :
  ~ In k keys -> aget k (copy_keys keys src dst) = aget k dst.
Proof.
  unfold copy_keys. revert dst.
  induction keys as [|key keys IH]; intros dst Hk; simpl; [reflexivity|].
  rewrite IH by (intros Hin; apply Hk; right; exact Hin).
  destruct (aget key src); [|reflexivity].
  apply aget_aset_other. intros ->. apply Hk. left. reflexivity.
Qed.

Lemma recorded_extends (item_pl record : dict) (st st' : state W) :
  In record (managed_installs (info st)) ->
  aget "name" record = Some (get_default "name" (PStr "") item_pl) ->
  (truthy (dget "installed" record) = true \/
   dget "version_to_install" record
     = get_default "version" (PStr "UNKNOWN") item_pl) ->
  install_extends st st' ->
  recorded item_pl record st'.
Proof.
  intros Hin Hn Hq (_ & _ & _ & _ & _ & _ & (records & Hr)).
  split; [|split; assumption].
  rewrite Hr. apply in_or_app. left. exact Hin.
Qed.

Lemma In_append_managed_install (iteminfo : dict) (st : state W) :
  In iteminfo (managed_installs (info (append_managed_install iteminfo st))).
Proof. simpl. apply in_or_app. right. left. reflexivity. Qed.

Lemma pending_iteminfo_spec (item_pl iteminfo record : dict)
  (changed : bool) (download_seconds : Z) :
  pending_iteminfo item_pl iteminfo changed download_seconds = Ok record ->
  aget "name" record = aget "name" iteminfo /\
  dget "version_to_install" record
    = get_default "version" (PStr "UNKNOWN") item_pl.
Proof.
  unfold pending_iteminfo. intros H.
  inv_bind H. inv_bind H. inv_bind H. apply Ok_inj in H. subst record.
  unfold dget at 1.
  rewrite !copy_keys_other
    by (unfold optional_keys; simpl; intuition discriminate).
  destruct (truthy (dget "unattended_install" item_pl)
            || truthy (dget "forced_install" item_pl));
    [destruct (truthy (dget "RestartAction" item_pl))|].
  - inv_bind E1. apply Ok_inj in E1. subst x1.
    rewrite !aget_aset. simpl. auto.
  - apply Ok_inj in E1. subst x1. rewrite !aget_aset. simpl. auto.
  - apply Ok_inj in E1. subst x1. rewrite !aget_aset. simpl. auto.
Qed.

Lemma installed_iteminfo_spec (w : W) (item_pl iteminfo record : dict)
  (installed_state : Z) :
  installed_iteminfo w item_pl iteminfo installed_state = Ok record ->
  aget "name" record = aget "name" iteminfo /\
  truthy (dget "installed" record) = true.
Proof.
  unfold installed_iteminfo. intros H. inv_bind H.
  apply Ok_inj in H. subst record.
  unfold dget. rewrite !aget_aset. simpl. auto.
Qed.

(** One call, given that the calls it makes extend the state. *)
Lemma processInstall_step (fuel : nat)
  (IH : forall manifestitem cataloglist (st : state W) b st',
      processInstall G fuel manifestitem cataloglist st = Ok (b, st') ->
      install_extends st st')
  (manifestitem : string) (cataloglist : list string) (st : state W)
  (b : bool) (st' : state W) :
  processInstall G (S fuel) manifestitem cataloglist st = Ok (b, st') ->
  processInstall_outcome G fuel manifestitem cataloglist st b st'.
Proof.
  intros H. cbn [processInstall] in H. unfold processInstall_outcome.
  inv_bind H. destruct x as [base includedversion].
  exists base, includedversion. split; [exact E|].
  destruct (str_in _ (processed_installs (info st))) eqn:Epi.
  { inversion H; subst. left. apply str_in_In in Epi. auto. }
  apply str_in_false in Epi.
  destruct (str_in base (processed_uninstalls (info st))) eqn:Epu.
  { inversion H; subst. right. left. apply str_in_In in Epu. auto. }
  apply str_in_false in Epu.
  right. right. split; [exact Epi|]. split; [exact Epu|].
  inv_bind H. exists x. split; [exact E0|].
  destruct (found_item x) as [item_pl|].
  2: { inversion H; subst. auto. }
  cbv zeta.
  set (st0 := mark_processed (PyStr.basename manifestitem) st) in *.
  destruct (isItemInInstallInfo _ _ _).
  { inversion H; subst. auto. }
  inv_bind H. destruct x0 as [dependenciesMet st1].
  exists dependenciesMet, st1. split; [exact E1|].
  destruct dependenciesMet; simpl negb in H; cbv iota in H.
  2: { inversion H; subst. auto. }
  inv_bind H.
  destruct (x0 =? 0)%Z.
  - destruct (download_installeritem (world st1) item_pl (info st1) false)
      as [dl w].
    pose proof (install_extends_world st1 w) as H2.
    destruct dl.
    + inv_bind H. inv_bind H. inv_bind H. inversion H; subst. clear H.
      apply (process_updates_extends (processInstall G fuel) IH) in E5.
      apply pending_iteminfo_spec in E3. destruct E3 as [Hname Hvers].
      split.
      * eapply install_extends_trans; [|exact E5].
        eapply install_extends_trans; [exact H2|].
        apply install_extends_append.
      * intros _. exists x1. eapply recorded_extends; [| | |exact E5].
        -- apply In_append_managed_install.
        -- rewrite Hname. reflexivity.
        -- right. exact Hvers.
    + apply failed_install_extends in H as Hext.
      unfold failed_install in H. inversion H; subst.
      split; [|discriminate].
      eapply install_extends_trans; [exact H2 | exact Hext].
    + apply failed_install_extends in H as Hext.
      unfold failed_install in H. inversion H; subst.
      split; [|discriminate].
      eapply install_extends_trans; [exact H2 | exact Hext].
    + apply failed_install_extends in H as Hext.
      unfold failed_install in H. inversion H; subst.
      split; [|discriminate].
      eapply install_extends_trans; [exact H2 | exact Hext].
  - inv_bind H. inv_bind H. inv_bind H. inversion H; subst. clear H.
    apply (process_updates_extends (processInstall G fuel) IH) in E5.
    apply installed_iteminfo_spec in E3. destruct E3 as [Hname Hinst].
    split.
    + eapply install_extends_trans; [|exact E5].
      apply install_extends_append.
    + intros _. exists x1. eapply recorded_extends; [| | |exact E5].
      * apply In_append_managed_install.
      * rewrite Hname. reflexivity.
      * left. exact Hinst.
Qed.

Lemma processInstall_outcome_extends (fuel : nat)
  (IH : forall manifestitem cataloglist (st : state W) b st',
      processInstall G fuel manifestitem cataloglist st = Ok (b, st') ->
      install_extends st st')
  (manifestitem : string) (cataloglist : list string) (st : state W)
  (b : bool) (st' : state W) :
  processInstall_outcome G fuel manifestitem cataloglist st b st' ->
  install_extends st st'.
Proof.
  intros (base & iv & Hn & [(_ & _ & ->) | [(_ & _ & _ & ->) | H]]);
    try apply install_extends_refl.
  destruct H as (Hpi & Hpu & r & Hr & H).
  destruct (found_item r) as [item_pl|].
  2: { destruct H as [_ ->]. apply install_extends_refl. }
  cbv zeta in H.
  assert (Hmark : install_extends st
                    (mark_processed (PyStr.basename manifestitem) st)).
  { eapply install_extends_mark; [exact Hn | apply str_in_false; exact Hpu]. }
  destruct (isItemInInstallInfo _ _ _).
  { destruct H as [_ ->]. exact Hmark. }
  destruct H as (met & st1 & Hreq & H).
  apply (process_requires_extends (processInstall G fuel) IH) in Hreq.
  destruct met.
  - destruct H as [Hext _].
    eapply install_extends_trans; [exact Hmark|].
    eapply install_extends_trans; [exact Hreq | exact Hext].
  - destruct H as [_ ->].
    eapply install_extends_trans; [exact Hmark | exact Hreq].
Qed.

(** [processInstall] only appends to [processed_installs] and
    [managed_installs]; it never touches the removal side. *)
Lemma processInstall_extends (fuel : nat) :
  forall manifestitem cataloglist (st : state W) b st',
    processInstall G fuel manifestitem cataloglist st = Ok (b, st') ->
    install_extends st st'.
Proof.
  induction fuel as [|fuel IH]; intros manifestitem cataloglist st b st' H.
  - discriminate.
  - eapply processInstall_outcome_extends; [exact IH|].
    apply processInstall_step; [exact IH | exact H].
Qed.

Lemma processInstall_cases (fuel : nat) (manifestitem : string)
  (cataloglist : list string) (st : state W) (b : bool) (st' : state W) :
  processInstall G fuel manifestitem cataloglist st = Ok (b, st') ->
  exists fuel', fuel = S fuel' /\
    processInstall_outcome G fuel' manifestitem cataloglist st b st'.
Proof.
  destruct fuel as [|fuel]; [discriminate|]. intros H.
  exists fuel. split; [reflexivity|].
  apply processInstall_step; [apply processInstall_extends | exact H].
Qed.

End InstallFacts.

(** ** getItemDetail: what a found item carries *)

Section SelectionFacts.

Context {W : Type} {collab : Oracles W}.
Variable G : globals.

Lemma item_eligible_keys (item : dict) :
  item_eligible G item = Ok true ->
  exists n v, aget "name" item = Some n /\ aget "version" item = Some v.
Proof.
  unfold item_eligible. intros H.
  inv_bind H. destruct (negb x); [discriminate|].
  inv_bind H. destruct (negb x0); [discriminate|].
  inv_bind H. destruct (negb x1); [discriminate|].
  inv_bind H. inv_bind H. unfold getitem in E2, E3.
  destruct (aget "name" item) as [n|]; [|discriminate].
  destruct (aget "version" item) as [v|]; [|discriminate].
  exists n, v. split; reflexivity.
Qed.

Lemma first_eligible_keys (catalogitems : list dict) (indexlist : list nat)
  (item : dict) :
  first_eligible G catalogitems indexlist = Ok (Some item) ->
  exists n v, aget "name" item = Some n /\ aget "version" item = Some v.
Proof.
  induction indexlist as [|index rest IH]; simpl; intros H.
  - discriminate.
  - destruct (nth_error catalogitems index) as [candidate|]; [|discriminate].
    inv_bind H. destruct x.
    + apply Ok_inj in H. inversion H; subst.
      apply item_eligible_keys. exact E.
    + apply IH. exact H.
Qed.

Lemma getItemDetail_loop_keys (name vers : string)
  (cataloglist : list string) (item : dict) :
  getItemDetail_loop G name vers cataloglist = Ok (Some item) ->
  exists n v, aget "name" item = Some n /\ aget "version" item = Some v.
Proof.
  induction cataloglist as [|catalogname rest IH]; simpl; intros H.
  - discriminate.
  - destruct (aget catalogname (CATALOG G)) as [db|]; [|auto].
    destruct (aget name (named db)) as [itemsmatchingname|]; [|auto].
    inv_bind H. destruct x as [found|].
    + apply Ok_inj in H. inversion H; subst.
      eapply first_eligible_keys. exact E.
    + auto.
Qed.

(** An item that [getItemDetail] returns has a name and a version: the
    debug message of the last step reads both. *)
Lemma getItemDetail_keys (name : string) (cataloglist : list string)
  (vers : string) (item : dict) :
  getItemDetail G name cataloglist vers = Ok (Some item) ->
  exists n v, aget "name" item = Some n /\ aget "version" item = Some v.
Proof.
  unfold getItemDetail. intros H. inv_bind H. destruct x as [n iv].
  eapply getItemDetail_loop_keys. exact H.
Qed.

Lemma getItemDetail_found (name : string) (cataloglist : list string)
  (vers : string) (item : dict) :
  getItemDetail G name cataloglist vers = Ok (Some item) ->
  found_item (Some item) = Some item.
Proof.
  intros H. apply getItemDetail_keys in H.
  destruct H as (n & v & Hn & _). unfold found_item.
  destruct item; [discriminate | reflexivity].
Qed.

End SelectionFacts.

(** ** processInstall: the claims *)

Section InstallClaims.

Context {W : Type} {collab : Oracles W}.
Variable G : globals.

Lemma install_extends_processed (st st' : state W) (name : string) :
  install_extends st st' ->
  In name (processed_installs (info st)) ->
  In name (processed_installs (info st')).
Proof.
  intros (_ & _ & _ & _ & _ & (added & Ha & _) & _) Hin.
  rewrite Ha. apply in_or_app. left. exact Hin.
Qed.

(** A name that is a managed update is never appended. *)
Lemma install_extends_managed_update (st st' : state W) (name : string) :
  install_extends st st' ->
  In name (managed_updates (info st)) ->
  ~ In name (processed_installs (info st)) ->
  ~ In name (processed_installs (info st')).
Proof.
  intros (_ & _ & _ & _ & _ & (added & Ha & Hf) & _) Hmu Hpi Hin.
  rewrite Ha in Hin. apply in_app_or in Hin. destruct Hin as [Hin|Hin].
  - apply Hpi. exact Hin.
  - rewrite Forall_forall in Hf. apply (Hf name Hin). exact Hmu.
Qed.

Lemma mark_processed_In (name : string) (st : state W) :
  ~ In name (managed_updates (info st)) ->
  In name (processed_installs (info (mark_processed name st))).
Proof.
  intros H. unfold mark_processed. apply str_in_false in H. rewrite H.
  simpl. apply in_or_app. right. left. reflexivity.
Qed.

Lemma mark_processed_managed_update (name : string) (st : state W) :
  In name (managed_updates (info st)) -> mark_processed name st = st.
Proof.
  intros H. unfold mark_processed. apply str_in_In in H. rewrite H.
  reflexivity.
Qed.

Lemma mark_processed_managed_installs (name : string) (st : state W) :
  managed_installs (info (mark_processed name st))
  = managed_installs (info st).
Proof.
  unfold mark_processed.
  destruct (str_in name (managed_updates (info st))); reflexivity.
Qed.

(** An item enqueued through a managed_updates entry is recorded in
    managed_updates, and the call of processInstall made for it never
    appends its name to processed_installs. *)
Lemma processManagedUpdate_enqueued
  (fuel : nat) (manifestitem : string) (cataloglist : list string)
  (st st' : state W) (item_pl : dict) :
  let name := PyStr.basename manifestitem in
  ~ In name (managed_updates (info st)) ->
  ~ In name (processed_installs (info st)) ->
  ~ In name (processed_uninstalls (info st)) ->
  getItemDetail G manifestitem cataloglist "" = Ok (Some item_pl) ->
  someVersionInstalled (world st) item_pl = Ok true ->
  processManagedUpdate G fuel manifestitem cataloglist st = Ok st' ->
  In name (managed_updates (info st')) /\
  ~ In name (processed_installs (info st')).
Proof.
  intros name Hmu Hpi Hpu Hget Hsome H.
  unfold processManagedUpdate in H. fold name in H.
  apply str_in_false in Hmu, Hpi, Hpu. rewrite Hmu, Hpi, Hpu in H.
  rewrite Hget in H. cbn [bind] in H.
  rewrite (getItemDetail_found _ _ _ _ Hget) in H.
  rewrite Hsome in H. cbn [bind] in H.
  inv_bind H. destruct x as [b st1]. apply Ok_inj in H. subst st1.
  apply processInstall_extends in E.
  split.
  - destruct E as (_ & Hm & _). rewrite Hm. simpl.
    apply in_or_app. right. left. reflexivity.
  - eapply install_extends_managed_update; [exact E | |].
    + simpl. apply in_or_app. right. left. reflexivity.
    + simpl. apply str_in_false. exact Hpi.
Qed.

Lemma recorded_isItemInInstallInfo (item_pl record : dict) (st : state W)
  (s : string) (v : pval) :
  (forall x, looseCompare x x = Eq) ->
  aget "name" item_pl = Some (PStr s) ->
  aget "version" item_pl = Some v ->
  recorded item_pl record st ->
  isItemInInstallInfo item_pl (managed_installs (info st))
    (dget "version" item_pl) = true.
Proof.
  intros Hrefl Hn Hv (Hin & Hname & Hq).
  unfold isItemInInstallInfo. apply existsb_exists. exists record.
  split; [exact Hin|].
  unfold install_info_match. rewrite Hname, Hn.
  unfold get_default. rewrite Hn. simpl pval_eqb. rewrite String.eqb_refl.
  simpl andb. destruct Hq as [Hq|Hq].
  - rewrite Hq. rewrite orb_true_r. reflexivity.
  - rewrite Hq. unfold get_default, dget. rewrite Hv.
    unfold compareVersions. rewrite Hrefl. simpl.
    rewrite !orb_true_r. reflexivity.
Qed.

(** C7.  When a call of processInstall has succeeded, an immediately
    following call with the same name returns true and leaves the state
    as it is: no second record is appended.  The version order is taken
    to be reflexive and the name of the pkginfo to be a string. *)
Theorem processInstall_twice
  (fuel fuel' : nat) (manifestitem : string) (cataloglist : list string)
  (st st1 : state W) :
  (forall x, looseCompare x x = Eq) ->
  (forall item_pl,
      getItemDetail G manifestitem cataloglist "" = Ok (Some item_pl) ->
      exists s, aget "name" item_pl = Some (PStr s)) ->
  processInstall G fuel manifestitem cataloglist st = Ok (true, st1) ->
  processInstall G (S fuel') manifestitem cataloglist st1 = Ok (true, st1).
Proof.
  intros Hrefl Hstr H.
  apply processInstall_cases in H.
  destruct H as (f & -> & base & iv & Hn & H).
  cbn [processInstall]. rewrite Hn. cbn [bind].
  destruct H as [(Hin & _ & ->) | [(_ & _ & Hb & _) | H]].
  - apply str_in_In in Hin. rewrite Hin. reflexivity.
  - discriminate.
  - destruct H as (Hpi & Hpu & r & Hr & H).
    destruct (found_item r) as [item_pl|] eqn:Ef.
    2: { destruct H as [Hb _]. discriminate. }
    assert (Hsome : r = Some item_pl).
    { unfold found_item in Ef. destruct r as [d|]; [|discriminate].
      destruct (truthy (PDict d)); [|discriminate]. congruence. }
    subst r.
    destruct (Hstr item_pl Hr) as [s Hs].
    destruct (getItemDetail_keys _ _ _ _ Hr) as (n & v & _ & Hv).
    cbv zeta in H.
    set (name := PyStr.basename manifestitem) in *.
    assert (Hmark : install_extends st (mark_processed name st)).
    { eapply install_extends_mark; [exact Hn | apply str_in_false; exact Hpu]. }
    (* what the first call leaves *)
    assert (Hleft :
              install_extends (mark_processed name st) st1 /\
              isItemInInstallInfo item_pl (managed_installs (info st1))
                (dget "version" item_pl) = true).
    { destruct (isItemInInstallInfo item_pl
                  (managed_installs (info (mark_processed name st)))
                  (dget "version" item_pl)) eqn:Ei.
      - destruct H as [_ ->]. split; [apply install_extends_refl | exact Ei].
      - destruct H as (met & s1 & Hreq & H).
        apply (process_requires_extends (processInstall G f)
                 (processInstall_extends G f)) in Hreq.
        destruct met.
        + destruct H as [Hext Hrec]. destruct (Hrec eq_refl) as [record Hrec'].
          split; [eapply install_extends_trans; eassumption|].
          eapply recorded_isItemInInstallInfo; eassumption.
        + destruct H as [Hb _]. discriminate. }
    destruct Hleft as [Hext Hinfo].
    destruct (str_in name (managed_updates (info st))) eqn:Emu.
    + (* processed as a managed update: the name is still unprocessed,
         and the record is found in the install list *)
      apply str_in_In in Emu.
      pose proof (install_extends_trans Hmark Hext) as Hall.
      assert (Hpi1 : str_in name (processed_installs (info st1)) = false).
      { apply str_in_false.
        eapply install_extends_managed_update; eassumption. }
      rewrite Hpi1.
      destruct Hall as (Hu & Hm & _).
      rewrite Hu. apply str_in_false in Hpu. rewrite Hpu.
      rewrite Hr. cbn [bind]. rewrite Ef.
      rewrite mark_processed_managed_update by (rewrite Hm; exact Emu).
      rewrite Hinfo. reflexivity.
    + apply str_in_false in Emu.
      assert (Hpi1 : str_in name (processed_installs (info st1)) = true).
      { apply str_in_In. eapply install_extends_processed; [exact Hext|].
        apply mark_processed_In. exact Emu. }
      rewrite Hpi1. reflexivity.
Qed.

Lemma process_requires_loop
  (self : string -> list string -> state W -> res (bool * state W))
  (cataloglist : list string) (item_pl : dict) (st : state W)
  (requires : pval) (dependencies : list pval) :
  aget "requires" item_pl = Some requires ->
  dependencies_of requires = Ok dependencies ->
  process_requires self cataloglist item_pl st
  = resolve_prerequisites self cataloglist dependencies (true, st).
Proof.
  intros Hr Hd. unfold process_requires, resolve_prerequisites.
  rewrite Hr, Hd. reflexivity.
Qed.

Lemma resolve_prerequisites_extends
  (self : string -> list string -> state W -> res (bool * state W))
  (self_extends : forall item cataloglist st b st',
      self item cataloglist st = Ok (b, st') -> install_extends st st')
  (cataloglist : list string) (dependencies : list pval)
  (met met' : bool) (st st' : state W) :
  resolve_prerequisites self cataloglist dependencies (met, st)
  = Ok (met', st') ->
  install_extends st st' /\ (met = false -> met' = false).
Proof.
  unfold resolve_prerequisites.
  change (install_extends st st' /\ (met = false -> met' = false))
    with ((fun acc : bool * state W =>
             install_extends st (snd acc) /\ (met = false -> fst acc = false))
            (met', st')).
  apply forM_invariant.
  - intros [m s] item [m' s'] _ [Hs Hm] Hb. cbn [fst snd] in *.
    inv_bind Hb. inv_bind Hb. destruct x0 as [success s1].
    apply Ok_inj in Hb. injection Hb as <- <-. split.
    + eapply install_extends_trans; [exact Hs |].
      eapply self_extends. exact E0.
    + intros Hf. destruct success; [apply Hm; exact Hf | reflexivity].
  - cbn [fst snd]. split; [apply install_extends_refl | auto].
Qed.

(** C1, as amended.  A requested item A, not yet processed, whose
    'requires' names an item B that no given catalog offers and that has
    not been marked as processed when its turn comes: provided the
    resolution of A's other prerequisites returns, processInstall returns
    false and appends no record of its own -- the state it returns is the
    one in which the last prerequisite left it -- but A's name has been
    appended to processed_installs; the manifest loop then goes on with
    the other requested items. *)
Theorem processInstall_missing_prerequisite
  (fuel : nat) (A B : string) (cataloglist : list string)
  (st st1 st' : state W) (met1 met2 : bool) (item_pl : dict)
  (requires : pval) (before after : list pval)
  (base includedversion baseB versionB : string) (rest : list string) :
  let name := PyStr.basename A in
  ~ In name (processed_installs (info st)) ->
  ~ In name (managed_updates (info st)) ->
  nameAndVersion name = Ok (base, includedversion) ->
  ~ In base (processed_uninstalls (info st)) ->
  getItemDetail G A cataloglist "" = Ok (Some item_pl) ->
  isItemInInstallInfo item_pl (managed_installs (info st))
    (dget "version" item_pl) = false ->
  aget "requires" item_pl = Some requires ->
  dependencies_of requires = Ok (before ++ PStr B :: after) ->
  getItemDetail G B cataloglist "" = Ok None ->
  nameAndVersion (PyStr.basename B) = Ok (baseB, versionB) ->
  resolve_prerequisites (processInstall G (S fuel)) cataloglist before
    (true, mark_processed name st) = Ok (met1, st1) ->
  ~ In (PyStr.basename B) (processed_installs (info st1)) ->
  resolve_prerequisites (processInstall G (S fuel)) cataloglist after
    (false, st1) = Ok (met2, st') ->
  stopRequested (world st) = false ->
  processInstall G (S (S fuel)) A cataloglist st = Ok (false, st') /\
  In name (processed_installs (info st')) /\
  install_extends (mark_processed name st) st' /\
  processManifestItems G (S (S fuel)) managed_installs_key (A :: rest)
    cataloglist st
  = processManifestItems G (S (S fuel)) managed_installs_key rest
      cataloglist st'.
Proof.
  intros name Hpi Hmu Hn Hpu Hget Hinfo Hreq Hdeps HgetB HnB Hbefore HBpi
         Hafter Hstop.
  assert (HB : processInstall G (S fuel) B cataloglist st1
               = Ok (false, st1)).
  { cbn [processInstall]. rewrite HnB. cbn [bind].
    apply str_in_false in HBpi. rewrite HBpi.
    destruct (str_in baseB (processed_uninstalls (info st1)));
      [reflexivity |].
    rewrite HgetB. reflexivity. }
  assert (Hloop :
            process_requires (processInstall G (S fuel)) cataloglist item_pl
              (mark_processed name st) = Ok (false, st')).
  { rewrite (process_requires_loop _ _ _ _ Hreq Hdeps).
    unfold resolve_prerequisites in *. rewrite forM_app, Hbefore.
    cbn [bind]. rewrite forM_cons. cbn [str_method bind]. rewrite HB.
    cbn [bind]. rewrite Hafter.
    apply (resolve_prerequisites_extends (processInstall G (S fuel))
             (processInstall_extends G (S fuel))) in Hafter.
    destruct Hafter as [_ Hm]. rewrite (Hm eq_refl). reflexivity. }
  assert (Hcall : processInstall G (S (S fuel)) A cataloglist st
                  = Ok (false, st')).
  { revert Hloop. generalize (S fuel). intros f Hloop.
    cbn [processInstall]. fold name. rewrite Hn. cbn [bind].
    apply str_in_false in Hpi, Hpu. rewrite Hpi, Hpu, Hget. cbn [bind].
    rewrite (getItemDetail_found _ _ _ _ Hget).
    rewrite mark_processed_managed_installs, Hinfo, Hloop. reflexivity. }
  assert (Hext : install_extends (mark_processed name st) st').
  { eapply install_extends_trans.
    - apply (resolve_prerequisites_extends (processInstall G (S fuel))
               (processInstall_extends G (S fuel)) _ _ _ _ Hbefore).
    - apply (resolve_prerequisites_extends (processInstall G (S fuel))
               (processInstall_extends G (S fuel)) _ _ _ _ Hafter). }
  split; [exact Hcall |]. split.
  { eapply install_extends_processed; [exact Hext |].
    apply mark_processed_In. exact Hmu. }
  split; [exact Hext |].
  revert Hcall. generalize (S (S fuel)). intros f Hcall.
  cbn [processManifestItems]. rewrite Hstop, Hcall. reflexivity.
Qed.

(** C4.  A request whose manifest name embeds a version, for an item
    that is detected absent and whose download succeeds, does not return
    true: once the record is appended, the call of
    lookForUpdatesForVersion that should find the updaters of the
    name-version forms passes two arguments instead of three, and the
    TypeError escapes processInstall. *)
Theorem processInstall_versioned_download_raises
  (fuel : nat) (manifestitem : string) (cataloglist : list string)
  (st st1 : state W) (item_pl record : dict) (base includedversion : string)
  (changed : bool) (download_seconds : Z) (w : W) :
  let name := PyStr.basename manifestitem in
  nameAndVersion name = Ok (base, includedversion) ->
  includedversion <> "" ->
  ~ In name (processed_installs (info st)) ->
  ~ In base (processed_uninstalls (info st)) ->
  getItemDetail G manifestitem cataloglist "" = Ok (Some item_pl) ->
  isItemInInstallInfo item_pl (managed_installs (info st))
    (dget "version" item_pl) = false ->
  process_requires (processInstall G fuel) cataloglist item_pl
    (mark_processed name st) = Ok (true, st1) ->
  installedState (world st1) item_pl = Ok 0%Z ->
  download_installeritem (world st1) item_pl (info st1) false
    = (Downloaded changed download_seconds, w) ->
  pending_iteminfo item_pl (sized_iteminfo item_pl (new_iteminfo item_pl))
    changed download_seconds = Ok record ->
  processInstall G (S fuel) manifestitem cataloglist st = Raise TypeError.
Proof.
  intros name Hn Hiv Hpi Hpu Hget Hinfo Hreq Hstate Hdl Hrec.
  cbn [processInstall]. fold name. rewrite Hn. cbn [bind].
  apply str_in_false in Hpi, Hpu. rewrite Hpi, Hpu, Hget. cbn [bind].
  rewrite (getItemDetail_found _ _ _ _ Hget).
  rewrite mark_processed_managed_installs, Hinfo, Hreq. cbn [bind negb].
  rewrite Hstate. cbn [bind]. change (0 =? 0)%Z with true. cbv iota.
  rewrite Hdl, Hrec. cbn [bind].
  unfold pending_updates.
  destruct (String.eqb includedversion "") eqn:E.
  - apply String.eqb_eq in E. contradiction.
  - reflexivity.
Qed.

End InstallClaims.

(** ** The sample machine *)

Lemma string_compare_refl (s : string) : String.compare s s = Eq.
Proof.
  induction s as [|c s IH]; simpl; [reflexivity|].
  unfold Ascii.compare. rewrite N.compare_refl. exact IH.
Qed.

Lemma LooseVersion_compare_refl (x : pval) : LooseVersion.compare x x = Eq.
Proof.
  unfold LooseVersion.compare.
  induction (LooseVersion.parse (LooseVersion.text x)) as [|c l IH];
    simpl; [reflexivity|].
  assert (E : LooseVersion.compare_component c c = Eq).
  { destruct c; simpl; [apply N.compare_refl | apply string_compare_refl]. }
  rewrite E. exact IH.
Qed.

Lemma processInstall_missing_prerequisite_witness :
  processInstall prerequisite_globals 5 "E" ["production"]
    (start_state empty_machine) = Ok (false, state_before_B) /\
  In (PyStr.basename "E") (processed_installs (info state_before_B)) /\
  install_extends
    (mark_processed (PyStr.basename "E") (start_state empty_machine))
    state_before_B /\
  processManifestItems prerequisite_globals 5 managed_installs_key
    ["E"; "C"] ["production"] (start_state empty_machine)
  = processManifestItems prerequisite_globals 5 managed_installs_key ["C"]
      ["production"] state_before_B.
Proof.
  apply (@processInstall_missing_prerequisite machine machine_oracles
           prerequisite_globals 3 "E" "B" ["production"]
           (start_state empty_machine) state_before_B state_before_B
           true false sample_E (PList [PStr "C"; PStr "B"]) [PStr "C"] []
           "E" "" "B" "" ["C"]).
  - simpl. intros [].
  - simpl. intros [].
  - reflexivity.
  - simpl. intros [].
  - reflexivity.
  - reflexivity.
  - reflexivity.
  - reflexivity.
  - reflexivity.
  - reflexivity.
  - reflexivity.
  - vm_compute. intros [H | [H | []]]; discriminate H.
  - reflexivity.
  - reflexivity.
Defined.

(** C1, as stated, fails: [A] requires [B], no catalog offers [B];
    processInstall returns false and appends no record, but [A] is in
    processed_installs afterwards. *)
Lemma processInstall_marks_before_prerequisites :
  getItemDetail sample_globals "B" ["production"] "" = Ok None /\
  processInstall sample_globals 5 "A" ["production"]
    (start_state empty_machine) = Ok (false, state_after_A) /\
  In "A" (processed_installs (info state_after_A)) /\
  managed_installs (info state_after_A) = [].
Proof.
  split; [reflexivity|]. split; [reflexivity|].
  split; [left; reflexivity | reflexivity].
Qed.

(** What the prerequisites scheduled stays: [E] has no record, [C] has
    one. *)
Example processInstall_prerequisite_record_stays :
  processed_installs (info state_before_B) = ["E"; "C"] /\
  map (dget "name") (managed_installs (info state_before_B)) = [PStr "C"].
Proof. split; reflexivity. Qed.

(** The other prerequisites have to return: [F] requires [C-2.0] and
    [B], and the exception that the request of [C-2.0] raises leaves
    processInstall before [B] is looked at. *)
Example processInstall_prerequisite_raises :
  getItemDetail prerequisite_globals "B" ["production"] "" = Ok None /\
  processInstall prerequisite_globals 5 "F" ["production"]
    (start_state empty_machine) = Raise TypeError.
Proof. split; reflexivity. Qed.

(** The other requested item is still processed: [C] gets its record. *)
Example processInstall_sibling_processed :
  exists st,
    processManifestItems sample_globals 5 managed_installs_key ["A"; "C"]
      ["production"] (start_state empty_machine) = Ok st /\
    processed_installs (info st) = ["A"; "C"] /\
    map (dget "name") (managed_installs (info st)) = [PStr "C"].
Proof. eexists. split; [reflexivity|]. split; reflexivity. Qed.

Lemma processInstall_twice_witness :
  processInstall sample_globals 1 "C" ["production"] state_after_C
  = Ok (true, state_after_C).
Proof.
  apply (@processInstall_twice machine machine_oracles sample_globals 5 0 "C"
           ["production"] (start_state empty_machine) state_after_C).
  - exact LooseVersion_compare_refl.
  - intros item_pl H. vm_compute in H. inversion H. eexists. reflexivity.
  - reflexivity.
Defined.

Lemma processInstall_versioned_download_raises_witness :
  processInstall sample_globals 5 "C-2.0" ["production"]
    (start_state empty_machine) = Raise TypeError.
Proof.
  apply (@processInstall_versioned_download_raises machine machine_oracles
           sample_globals 4 "C-2.0" ["production"]
           (start_state empty_machine)
           (mark_processed "C-2.0" (start_state empty_machine))
           sample_C
           pending_record_C
           "C" "2.0" true 1 empty_machine).
  - reflexivity.
  - discriminate.
  - simpl. intros [].
  - simpl. intros [].
  - reflexivity.
  - reflexivity.
  - reflexivity.
  - reflexivity.
  - reflexivity.
  - reflexivity.
Defined.

(** The same item requested without a version is processed and the call
    returns true. *)
Example processInstall_unversioned_download :
  processInstall sample_globals 5 "C" ["production"]
    (start_state empty_machine) = Ok (true, state_after_C).
Proof. reflexivity. Qed.

(** ** processRemoval: what it keeps *)

Section RemovalFacts.

Context {W : Type} {collab : Oracles W}.
Variable G : globals.

Lemma removal_extends_refl (st : state W) : removal_extends st st.
Proof.
  unfold removal_extends. repeat split.
  - exists []. split; [symmetry; apply app_nil_r | intros b []].
  - exists []. symmetry. apply app_nil_r.
Qed.

Lemma removal_extends_trans (st1 st2 st3 : state W) :
  removal_extends st1 st2 -> removal_extends st2 st3 ->
  removal_extends st1 st3.
Proof.
  intros (Hp & Hm & Hi & Ho & (a1 & Ha1 & Hf1) & (r1 & Hr1))
         (Hp' & Hm' & Hi' & Ho' & (a2 & Ha2 & Hf2) & (r2 & Hr2)).
  unfold removal_extends.
  split; [congruence|]. split; [congruence|]. split; [congruence|].
  split; [congruence|]. split.
  - exists (a1 ++ a2). split.
    + rewrite Ha2, Ha1, app_assoc. reflexivity.
    + intros b Hb. apply in_app_or in Hb. destruct Hb as [Hb|Hb].
      * apply Hf1. exact Hb.
      * rewrite <- Hp. apply Hf2. exact Hb.
  - exists (r1 ++ r2). rewrite Hr2, Hr1, app_assoc. reflexivity.
Qed.

Lemma removal_extends_same_info (st st' : state W) :
  info st' = info st -> removal_extends st st'.
Proof.
  intros H. unfold removal_extends. rewrite H. repeat split.
  - exists []. split; [symmetry; apply app_nil_r | intros b []].
  - exists []. symmetry. apply app_nil_r.
Qed.

Lemma removal_extends_append (st : state W) (iteminfo : dict) :
  removal_extends st (append_removal iteminfo st).
Proof.
  unfold removal_extends. simpl. repeat split.
  - exists []. split; [symmetry; apply app_nil_r | intros b []].
  - exists [iteminfo]. reflexivity.
Qed.

Lemma set_pkg_references_info (refs : list (string * list string))
  (st : state W) :
  info (set_pkg_references refs st) = info st.
Proof. unfold set_pkg_references. destruct (PKGDATA st); reflexivity. Qed.

Lemma evidenceThisIsInstalled_info (item_pl : dict) (st st' : state W)
  (b : bool) :
  evidenceThisIsInstalled G item_pl st = Ok (b, st') -> info st' = info st.
Proof.
  unfold evidenceThisIsInstalled. intros H. inv_bind H.
  destruct x.
  - apply Ok_inj in H. inversion H. reflexivity.
  - destruct (truthy (dget "receipts" item_pl)).
    + inv_bind H. inv_bind H. apply Ok_inj in H. inversion H. reflexivity.
    + apply Ok_inj in H. inversion H. reflexivity.
Qed.

Lemma find_evidence_info (infoitems : list dict) (st st' : state W)
  (found : option dict) :
  find_evidence G infoitems st = Ok (found, st') -> info st' = info st.
Proof.
  revert st. induction infoitems as [|item rest IH]; intros st H; simpl in H.
  - apply Ok_inj in H. inversion H. reflexivity.
  - inv_bind H. inv_bind H. inv_bind H. destruct x1 as [evidence s1].
    apply evidenceThisIsInstalled_info in E1.
    destruct evidence.
    + apply Ok_inj in H. inversion H; subst. exact E1.
    + apply IH in H. congruence.
Qed.

Lemma unique_packages_info (packagesToRemove : list string)
  (iteminfo : dict) (st st' : state W) (r : option dict) :
  unique_packages packagesToRemove iteminfo st = Ok (r, st') ->
  info st' = info st.
Proof.
  unfold unique_packages. intros H.
  destruct packagesToRemove as [|pkg rest].
  - apply Ok_inj in H. inversion H. reflexivity.
  - destruct (PKGDATA st) as [pd|] eqn:Ep; [|discriminate].
    inv_bind H. destruct x as [really refs].
    destruct really; apply Ok_inj in H; inversion H;
      apply set_pkg_references_info.
Qed.

Lemma method_info_info (item uninstall_item : dict) (uninstallmethod : pval)
  (iteminfo : dict) (st st' : state W) (r : option dict) :
  method_info item uninstall_item uninstallmethod iteminfo st = Ok (r, st') ->
  info st' = info st.
Proof.
  unfold method_info. intros H. inv_bind H.
  destruct (PyStr.startswith "Adobe" x).
  - destruct (ahas "adobe_install_info" item).
    + inv_bind H. apply Ok_inj in H. inversion H. reflexivity.
    + inv_bind H.
      destruct (download_installeritem (world st) item (info st) true)
        as [dl w].
      destruct dl.
      * inv_bind H. apply Ok_inj in H. inversion H. reflexivity.
      * apply Ok_inj in H. inversion H. reflexivity.
      * apply Ok_inj in H. inversion H. reflexivity.
      * apply Ok_inj in H. inversion H. reflexivity.
  - destruct (String.eqb x "remove_copied_items").
    { apply Ok_inj in H. inversion H. reflexivity. }
    destruct (String.eqb x "remove_app").
    { destruct (truthy (dget "installs" uninstall_item)).
      - inv_bind H. apply Ok_inj in H. inversion H. reflexivity.
      - apply Ok_inj in H. inversion H. reflexivity. }
    destruct (String.eqb x "uninstall_script");
      apply Ok_inj in H; inversion H; reflexivity.
Qed.

Section Loops.

Variable self : string -> list string -> state W -> res (bool * state W).
Hypothesis self_extends :
  forall item cataloglist st b st',
    self item cataloglist st = Ok (b, st') -> removal_extends st st'.

Lemma removal_updates_extends (cataloglist : list string)
  (update_list : list pval) (st st' : state W) :
  process_updates self cataloglist update_list st = Ok st' ->
  removal_extends st st'.
Proof.
  unfold process_updates.
  apply forM_invariant with (P := fun s : state W => removal_extends st s).
  - intros s item s' _ Hs Hb.
    inv_bind Hb. inv_bind Hb. destruct x0 as [b s1].
    apply Ok_inj in Hb. subst s'.
    eapply removal_extends_trans; [exact Hs|].
    eapply self_extends. exact E0.
  - apply removal_extends_refl.
Qed.

Lemma remove_dependents_extends (names : list pval)
  (cataloglist : list string) (catalog_pl : list dict) :
  forall (processednames : list pval) (st : state W) (failed : bool)
         (processednames' : list pval) (st' : state W),
    remove_dependents G self names cataloglist catalog_pl
      processednames st = Ok (failed, processednames', st') ->
    removal_extends st st'.
Proof.
  induction catalog_pl as [|item_pl rest IH];
    intros processednames st failed processednames' st' H; simpl in H.
  - apply Ok_inj in H. inversion H. apply removal_extends_refl.
  - destruct (existsb (pval_eqb (dget "name" item_pl)) processednames).
    { eapply IH. exact H. }
    inv_bind H. destruct x as [failed1 s1].
    assert (Hs1 : removal_extends st s1).
    { destruct (ahas "requires" item_pl).
      - inv_bind E. destruct x.
        + inv_bind E. destruct x as [evidence s2].
          apply evidenceThisIsInstalled_info in E1.
          destruct evidence.
          * inv_bind E. inv_bind E. destruct x0 as [success s3].
            apply Ok_inj in E. inversion E; subst.
            eapply removal_extends_trans;
              [apply removal_extends_same_info; exact E1|].
            eapply self_extends. exact E3.
          * apply Ok_inj in E. inversion E; subst.
            apply removal_extends_same_info. exact E1.
        + apply Ok_inj in E. inversion E. apply removal_extends_refl.
      - apply Ok_inj in E. inversion E. apply removal_extends_refl. }
    destruct failed1.
    + apply Ok_inj in H. inversion H; subst. exact Hs1.
    + eapply removal_extends_trans; [exact Hs1|]. eapply IH. exact H.
Qed.

Lemma removal_dependents_extends (names : list pval)
  (cataloglist : list string) (st st' : state W) (removed : bool) :
  removal_dependents G self names cataloglist st = Ok (removed, st') ->
  removal_extends st st'.
Proof.
  unfold removal_dependents. intros H. inv_bind H.
  destruct x as [[removed' processednames] s1].
  apply Ok_inj in H. inversion H; subst. clear H.
  change (removal_extends st (snd (removed, processednames, st'))).
  revert E.
  apply forM_invariant
    with (P := fun acc : bool * list pval * state W =>
                 removal_extends st (snd acc)).
  - intros [[r pn] s] catalogname [[r' pn'] s'] _ Hs Hb. simpl in *.
    destruct (read_catalog (world s) catalogname); [|discriminate].
    inv_bind Hb. destruct x as [[failed pn1] s2].
    apply Ok_inj in Hb. inversion Hb; subst.
    eapply removal_extends_trans; [exact Hs|].
    eapply remove_dependents_extends. exact E.
  - apply removal_extends_refl.
Qed.

Lemma record_removal_extends (names : list pval)
  (cataloglist : list string) (item : dict) (uninstallmethod : pval)
  (packagesToRemove : list string) (st st' : state W) (b : bool) :
  record_removal G self names cataloglist item uninstallmethod
    packagesToRemove st = Ok (b, st') ->
  removal_extends st st'.
Proof.
  unfold record_removal. intros H. inv_bind H. inv_bind H.
  destruct x0 as [[iteminfo|] s1].
  2: { apply Ok_inj in H. inversion H; subst.
       apply removal_extends_same_info.
       eapply unique_packages_info. exact E0. }
  apply unique_packages_info in E0.
  inv_bind H. destruct x0 as [[iteminfo2|] s2].
  2: { apply Ok_inj in H. inversion H; subst.
       apply removal_extends_same_info.
       apply method_info_info in E1. congruence. }
  apply method_info_info in E1.
  inv_bind H. inv_bind H. apply Ok_inj in H. inversion H; subst.
  apply removal_updates_extends in E3.
  apply removal_extends_trans with (st2 := s2);
    [apply removal_extends_same_info; congruence|].
  eapply removal_extends_trans; [exact E3|].
  apply removal_extends_append.
Qed.

End Loops.

Lemma removal_extends_mark (st : state W) (name : string)
  (names : list string) :
  install_basenames (processed_installs (info st)) = Ok names ->
  ~ In name names ->
  removal_extends st (mark_removed name st).
Proof.
  intros Hn Hin. unfold removal_extends. simpl. repeat split.
  - exists [name]. split; [reflexivity|].
    intros b0 [<-|[]]. exists names. split; assumption.
  - exists []. symmetry. apply app_nil_r.
Qed.

(** One call, given that the calls it makes extend the state. *)
Lemma processRemoval_step (fuel : nat)
  (IH : forall manifestitem cataloglist (st : state W) b st',
      processRemoval G fuel manifestitem cataloglist st = Ok (b, st') ->
      removal_extends st st')
  (manifestitem : string) (cataloglist : list string) (st : state W)
  (b : bool) (st' : state W) :
  processRemoval G (S fuel) manifestitem cataloglist st = Ok (b, st') ->
  processRemoval_outcome manifestitem st b st'.
Proof.
  intros H. cbn [processRemoval] in H.
  inv_bind H. destruct x as [name includedversion].
  inv_bind H. exists name, includedversion, x.
  split; [exact E|]. split; [exact E0|].
  destruct (str_in name x) eqn:Ein.
  { apply Ok_inj in H. injection H as Hb Hs. subst b st'.
    left. apply str_in_In in Ein. auto. }
  apply str_in_false in Ein.
  destruct (str_in name (processed_uninstalls (info st))) eqn:Epu.
  { apply Ok_inj in H. injection H as Hb Hs. subst b st'.
    right. left. apply str_in_In in Epu. auto. }
  apply str_in_false in Epu.
  right. right. split; [exact Ein|]. split; [exact Epu|].
  set (st0 := mark_removed name st) in *.
  inv_bind H.
  destruct x0 as [|item0 items0].
  { apply Ok_inj in H. injection H as Hb Hs. subst b st'. apply removal_extends_refl. }
  inv_bind H. destruct x0 as [found s1].
  apply find_evidence_info in E2.
  assert (H1 : removal_extends st0 s1)
    by (apply removal_extends_same_info; exact E2).
  destruct found as [item|].
  2: { apply Ok_inj in H. injection H as Hb Hs. subst b st'.
       eapply removal_extends_trans; [exact H1|].
       apply removal_extends_append. }
  inv_bind H. destruct x0 as [[uninstallmethod packagesToRemove]|].
  2: { apply Ok_inj in H. injection H as Hb Hs. subst b st'. exact H1. }
  inv_bind H. inv_bind H. destruct x1 as [removed s2].
  apply (removal_dependents_extends (processRemoval G fuel) IH) in E5.
  destruct (negb removed).
  { apply Ok_inj in H. injection H as Hb Hs. subst b st'.
    eapply removal_extends_trans; [exact H1 | exact E5]. }
  apply (record_removal_extends (processRemoval G fuel) IH) in H.
  eapply removal_extends_trans; [exact H1|].
  eapply removal_extends_trans; [exact E5 | exact H].
Qed.

Lemma processRemoval_outcome_extends (manifestitem : string)
  (st : state W) (b : bool) (st' : state W) :
  processRemoval_outcome manifestitem st b st' -> removal_extends st st'.
Proof.
  intros (name & iv & names & _ & Hn &
          [(_ & _ & ->) | [(_ & _ & _ & ->) | (Hin & _ & H)]]);
    try apply removal_extends_refl.
  eapply removal_extends_trans; [|exact H].
  eapply removal_extends_mark; eassumption.
Qed.

(** [processRemoval] only appends to [processed_uninstalls] and to
    [removals]; it never touches the install side. *)
Lemma processRemoval_extends (fuel : nat) :
  forall manifestitem cataloglist (st : state W) b st',
    processRemoval G fuel manifestitem cataloglist st = Ok (b, st') ->
    removal_extends st st'.
Proof.
  induction fuel as [|fuel IH]; intros manifestitem cataloglist st b st' H.
  - discriminate.
  - eapply processRemoval_outcome_extends.
    eapply processRemoval_step; [exact IH | exact H].
Qed.

Lemma processRemoval_cases (fuel : nat) (manifestitem : string)
  (cataloglist : list string) (st : state W) (b : bool) (st' : state W) :
  processRemoval G fuel manifestitem cataloglist st = Ok (b, st') ->
  processRemoval_outcome manifestitem st b st'.
Proof.
  destruct fuel as [|fuel]; [discriminate|]. intros H.
  eapply processRemoval_step; [apply processRemoval_extends | exact H].
Qed.

End RemovalFacts.

(** ** Installs against removals *)

Section ConflictFacts.

Context {W : Type} {collab : Oracles W}.

Lemma install_basenames_loop (processed : list string) :
  forall (acc names : list string),
    forM (fun acc item => '(n, _) <- nameAndVersion item ;; Ok (acc ++ [n]))
         processed acc = Ok names ->
    (forall b, In b acc -> In b names) /\
    (forall name b v, In name processed ->
                      nameAndVersion name = Ok (b, v) -> In b names).
Proof.
  induction processed as [|item rest IH]; intros acc names H.
  - simpl in H. apply Ok_inj in H. subst. split; [auto|].
    intros name b v [].
  - rewrite forM_cons in H. inv_bind H. inv_bind E. destruct x0 as [n iv].
    apply Ok_inj in E. subst x.
    apply IH in H. destruct H as [Hacc Hall]. split.
    + intros b Hb. apply Hacc. apply in_or_app. left. exact Hb.
    + intros name b v [<-|Hin] Hn.
      * rewrite E0 in Hn. apply Ok_inj in Hn. inversion Hn; subst.
        apply Hacc. apply in_or_app. right. left. reflexivity.
      * eapply Hall; eassumption.
Qed.

(** Every processed install has its base name in the list the removal
    check builds. *)
Lemma install_basenames_In (processed names : list string)
  (name b v : string) :
  install_basenames processed = Ok names ->
  In name processed -> nameAndVersion name = Ok (b, v) -> In b names.
Proof.
  unfold install_basenames. intros H.
  apply install_basenames_loop in H. destruct H as [_ H]. apply H.
Qed.

Lemma no_conflict_install (st st' : state W) :
  install_extends st st' ->
  no_conflict (info st) -> no_conflict (info st').
Proof.
  intros (Hu & _ & _ & _ & _ & (added & Ha & Hf) & _) Hno name b v Hin Hn.
  rewrite Hu. rewrite Ha in Hin. apply in_app_or in Hin.
  destruct Hin as [Hin|Hin].
  - eapply Hno; eassumption.
  - rewrite Forall_forall in Hf.
    destruct (Hf name Hin) as (_ & b' & v' & Hn' & Hb').
    rewrite Hn in Hn'. apply Ok_inj in Hn'. inversion Hn'; subst.
    exact Hb'.
Qed.

Lemma no_conflict_removal (st st' : state W) :
  removal_extends st st' ->
  no_conflict (info st) -> no_conflict (info st').
Proof.
  intros (Hp & _ & _ & _ & (added & Ha & Hf) & _) Hno name b v Hin Hn Hb.
  rewrite Hp in Hin. rewrite Ha in Hb. apply in_app_or in Hb.
  destruct Hb as [Hb|Hb].
  - eapply Hno; eassumption.
  - destruct (Hf b Hb) as (names & Hnames & Hnot).
    apply Hnot. eapply install_basenames_In; eassumption.
Qed.

Lemma no_conflict_managed_update (G : globals) (fuel : nat)
  (manifestitem : string) (cataloglist : list string) (st st' : state W) :
  processManagedUpdate G fuel manifestitem cataloglist st = Ok st' ->
  no_conflict (info st) -> no_conflict (info st').
Proof.
  unfold processManagedUpdate. intros H Hno.
  destruct (str_in _ (managed_updates (info st))).
  { apply Ok_inj in H. subst. exact Hno. }
  destruct (str_in _ (processed_installs (info st))).
  { apply Ok_inj in H. subst. exact Hno. }
  destruct (str_in _ (processed_uninstalls (info st))).
  { apply Ok_inj in H. subst. exact Hno. }
  inv_bind H. destruct (found_item x) as [item_pl|].
  2: { apply Ok_inj in H. subst. exact Hno. }
  inv_bind H. destruct x0.
  2: { apply Ok_inj in H. subst. exact Hno. }
  inv_bind H. destruct x0 as [b s1]. apply Ok_inj in H. subst s1.
  apply processInstall_extends in E1.
  eapply no_conflict_install; [exact E1|]. exact Hno.
Qed.

Lemma no_conflict_items (G : globals) (fuel : nat) (key : manifest_key)
  (items : list string) (cataloglist : list string) :
  forall st st' : state W,
    processManifestItems G fuel key items cataloglist st = Ok st' ->
    no_conflict (info st) -> no_conflict (info st').
Proof.
  induction items as [|item rest IH]; intros st st' H Hno.
  - simpl in H. apply Ok_inj in H. subst. exact Hno.
  - cbn [processManifestItems] in H.
    destruct (stopRequested (world st)).
    { apply Ok_inj in H. subst. exact Hno. }
    inv_bind H. apply IH in H; [exact H|].
    destruct key.
    + inv_bind E. destruct x0 as [b s1]. apply Ok_inj in E. subst s1.
      apply processInstall_extends in E0.
      eapply no_conflict_install; eassumption.
    + eapply no_conflict_managed_update; eassumption.
    + inv_bind E. destruct x0 as [b s1]. apply Ok_inj in E. subst s1.
      apply processRemoval_extends in E0.
      eapply no_conflict_removal; eassumption.
Qed.

Lemma no_conflict_run (fuel : nat) (requests : list request) :
  forall st st' : state W,
    run fuel requests st = Ok st' ->
    no_conflict (info st) -> no_conflict (info st').
Proof.
  induction requests as [|r rest IH]; intros st st' H Hno.
  - simpl in H. apply Ok_inj in H. subst. exact Hno.
  - simpl in H. inv_bind H. apply IH in H; [exact H|].
    eapply no_conflict_items; eassumption.
Qed.

(** C2, as amended.  After any sequence of install, managed-update and
    removal requests, no entry of processed_installs has its base name
    (version stripped) in processed_uninstalls; so a name that embeds no
    version is in at most one of the two lists.  And processRemoval on a
    name whose base name is the base name of a processed install returns
    false and changes nothing. *)
Theorem run_keeps_installs_and_removals_apart
  (G : globals) (fuel fuel' : nat) (requests : list request)
  (st st' : state W) (manifestitem : string) (cataloglist : list string)
  (b v : string) (names : list string) :
  no_conflict (info st) ->
  run fuel requests st = Ok st' ->
  nameAndVersion (PyStr.basename manifestitem) = Ok (b, v) ->
  install_basenames (processed_installs (info st')) = Ok names ->
  In b names ->
  no_conflict (info st') /\
  (forall name,
      nameAndVersion name = Ok (name, "") ->
      ~ (In name (processed_installs (info st')) /\
         In name (processed_uninstalls (info st')))) /\
  processRemoval G (S fuel') manifestitem cataloglist st' = Ok (false, st').
Proof.
  intros Hno Hrun Hn Hnames Hb.
  assert (Hno' : no_conflict (info st'))
    by (eapply no_conflict_run; eassumption).
  split; [exact Hno'|]. split.
  - intros name Hname [Hpi Hpu]. eapply Hno'; eassumption.
  - cbn [processRemoval]. rewrite Hn. cbn [bind]. rewrite Hnames.
    cbn [bind]. apply str_in_In in Hb. rewrite Hb. reflexivity.
Qed.

(** C10.  An item enqueued through a managed_updates entry is recorded in
    managed_updates, and the call of processInstall made for it never
    appends its name to processed_installs.  So, when no processed install
    has the same base name, a later removal request for that name is not
    stopped by the install/removal conflict check, which looks at
    processed_installs only: the name reaches processed_uninstalls. *)
Theorem managed_update_not_in_processed_installs
  (G : globals) (fuel fuel' : nat) (manifestitem : string)
  (cataloglist cataloglist' : list string) (st st' st'' : state W)
  (item_pl : dict) (b v : string) (names : list string) (r : bool) :
  let name := PyStr.basename manifestitem in
  ~ In name (managed_updates (info st)) ->
  ~ In name (processed_installs (info st)) ->
  ~ In name (processed_uninstalls (info st)) ->
  getItemDetail G manifestitem cataloglist "" = Ok (Some item_pl) ->
  someVersionInstalled (world st) item_pl = Ok true ->
  processManagedUpdate G fuel manifestitem cataloglist st = Ok st' ->
  nameAndVersion name = Ok (b, v) ->
  install_basenames (processed_installs (info st')) = Ok names ->
  ~ In b names ->
  processRemoval G fuel' manifestitem cataloglist' st' = Ok (r, st'') ->
  In name (managed_updates (info st')) /\
  ~ In name (processed_installs (info st')) /\
  In b (processed_uninstalls (info st'')).
Proof.
  intros name Hmu Hpi Hpu Hget Hsome Hupd Hn Hnames Hb Hrem.
  destruct (processManagedUpdate_enqueued G fuel manifestitem cataloglist
              st Hmu Hpi Hpu Hget Hsome Hupd) as [H1 H2].
  split; [exact H1|]. split; [exact H2|].
  apply processRemoval_cases in Hrem.
  destruct Hrem as (name' & iv & names' & Hn' & Hnames' & Hcases).
  fold name in Hn'. rewrite Hn in Hn'. apply Ok_inj in Hn'.
  inversion Hn'; subst name' iv.
  rewrite Hnames in Hnames'. apply Ok_inj in Hnames'. subst names'.
  destruct Hcases as [(Hin & _) | [(_ & Hin & _ & ->) | (_ & _ & Hext)]].
  - contradiction.
  - exact Hin.
  - destruct Hext as (_ & _ & _ & _ & (added & Ha & _) & _).
    rewrite Ha. simpl. apply in_or_app. left.
    apply in_or_app. right. left. reflexivity.
Qed.

End ConflictFacts.

(** ** Receipts shared between items *)

Section ReceiptFacts.

Context {W : Type} {collab : Oracles W}.
Variable G : globals.













End ReceiptFacts.



(** Without an installed dependent the removals list stays as it was. *)
Example processRemoval_shared_receipt :
  processRemoval receipt_globals 5 "X" ["production"]
    (start_state (receipt_machine false))
  = Ok (false, state_after_removal_X false) /\
  removals (info (state_after_removal_X false)) = [] /\
  option_map pkg_references (PKGDATA (state_after_removal_X false))
  = Some [("com.shared", ["Y"])].
Proof. repeat split. Qed.

(** ** Installs against removals on the sample machine *)

Lemma run_keeps_installs_and_removals_apart_witness :
  no_conflict (info state_after_install_C) /\
  (forall name,
      nameAndVersion name = Ok (name, "") ->
      ~ (In name (processed_installs (info state_after_install_C)) /\
         In name (processed_uninstalls (info state_after_install_C)))) /\
  processRemoval sample_globals 5 "C" ["production"] state_after_install_C
  = Ok (false, state_after_install_C).
Proof.
  apply (@run_keeps_installs_and_removals_apart machine machine_oracles
           sample_globals 5 4
           [sample_request sample_globals managed_installs_key ["C"]]
           (start_state empty_machine) state_after_install_C "C"
           ["production"] "C" "" ["C"]).
  - intros name b v [].
  - reflexivity.
  - reflexivity.
  - reflexivity.
  - left. reflexivity.
Defined.

(** C2, as stated, fails: after the install of [A-1] (version 1 of [A])
    and the removal request [A-1-2] (version 2 of an item [A-1]) the name
    [A-1] is in both lists. *)
Lemma versioned_name_in_both_lists :
  run 5 [sample_request versioned_globals managed_installs_key ["A-1"];
         sample_request versioned_globals managed_uninstalls_key ["A-1-2"]]
    (start_state empty_machine)
  = Ok state_after_versioned_requests /\
  In "A-1" (processed_installs (info state_after_versioned_requests)) /\
  In "A-1" (processed_uninstalls (info state_after_versioned_requests)).
Proof. split; [reflexivity|]. split; left; reflexivity. Qed.

Lemma managed_update_not_in_processed_installs_witness :
  In (PyStr.basename "C") (managed_updates (info state_after_update_C)) /\
  ~ In (PyStr.basename "C") (processed_installs (info state_after_update_C)) /\
  In "C" (processed_uninstalls (info state_after_update_removal_C)).
Proof.
  apply (@managed_update_not_in_processed_installs machine machine_oracles
           sample_globals 5 5 "C" ["production"] ["production"]
           (start_state machine_with_C) state_after_update_C
           state_after_update_removal_C sample_C "C" "" [] false).
  - simpl. intros [].
  - simpl. intros [].
  - simpl. intros [].
  - reflexivity.
  - reflexivity.
  - reflexivity.
  - reflexivity.
  - reflexivity.
  - simpl. intros [].
  - reflexivity.
Defined.

(** The item is scheduled for install, as a managed update, and its name
    is then accepted for removal. *)
Example managed_update_then_removal :
  map (dget "name") (managed_installs (info state_after_update_removal_C))
  = [PStr "C"] /\
  processed_installs (info state_after_update_removal_C) = [] /\
  processed_uninstalls (info state_after_update_removal_C) = ["C"].
Proof. repeat split. Qed.
(* ================================================================= *)
(** ** Splitting and joining strings *)

Lemma prefix_cons (a c : ascii) (p s : string) :
  prefix (String a p) (String c s) = Ascii.eqb a c && prefix p s.
Proof.
  cbn [prefix]. destruct (ascii_dec a c) as [e | n].
  - subst. rewrite Ascii.eqb_refl. reflexivity.
  - apply Ascii.eqb_neq in n. rewrite n. reflexivity.
Qed.

Lemma prefix_empty (s : string) : prefix "" s = true.
Proof. destruct s; reflexivity. Qed.

Lemma prefix_char (d c : ascii) (s : string) :
  prefix (String d "") (String c s) = Ascii.eqb d c.
Proof. rewrite prefix_cons, prefix_empty. apply andb_true_r. Qed.

Lemma append_assoc (a b c : string) : ((a ++ b) ++ c = a ++ (b ++ c))%string.
Proof. induction a; simpl; congruence. Qed.

Lemma append_nil_r (a : string) : (a ++ "" = a)%string.
Proof. induction a; simpl; congruence. Qed.

(** [split] on a one-character separator cuts at every occurrence. *)
Lemma split_go_char_app (d : ascii) (a b cur : string) :
  PyStr.split_go (String d "") 0 cur (a ++ String d b)
  = PyStr.split_go (String d "") 0 cur a
    ++ PyStr.split_go (String d "") 0 "" b.
Proof.
  revert cur. induction a as [| c a IH]; intro cur.
  - cbn [append PyStr.split_go]. rewrite prefix_char, Ascii.eqb_refl.
    reflexivity.
  - cbn [append]. cbn [PyStr.split_go]. rewrite !prefix_char.
    destruct (Ascii.eqb d c).
    + cbn [String.length Nat.sub]. simpl app. f_equal. apply IH.
    + apply IH.
Qed.

Lemma split_go_char_none (d : ascii) (s cur : string) :
  PyStr.contains (String d "") s = false ->
  PyStr.split_go (String d "") 0 cur s = [(cur ++ s)%string].
Proof.
  revert cur. induction s as [| c s IH]; intros cur H.
  - simpl. rewrite append_nil_r. reflexivity.
  - cbn [PyStr.contains] in H. apply orb_false_iff in H. destruct H as [H1 H2].
    cbn [PyStr.split_go]. rewrite H1. rewrite IH by exact H2.
    rewrite append_assoc. reflexivity.
Qed.

Lemma concat_cons (sep x : string) (l : list string) :
  l <> [] ->
  String.concat sep (x :: l) = (x ++ sep ++ String.concat sep l)%string.
Proof. destruct l; [congruence | reflexivity]. Qed.

Lemma split_go_nonempty (sep : string) (skip : nat) (cur s : string) :
  PyStr.split_go sep skip cur s <> [].
Proof.
  revert skip cur. induction s as [| c s IH]; intros skip cur.
  - simpl. congruence.
  - cbn [PyStr.split_go]. destruct skip.
    + destruct (prefix sep (String c s)); [congruence | apply IH].
    + apply IH.
Qed.

(** [sep.join(s.split(sep)) == s] for a one-character separator. *)
Lemma concat_split_go_char (d : ascii) (s cur : string) :
  String.concat (String d "") (PyStr.split_go (String d "") 0 cur s)
  = (cur ++ s)%string.
Proof.
  revert cur. induction s as [| c s IH]; intro cur.
  - simpl. rewrite append_nil_r. reflexivity.
  - cbn [PyStr.split_go]. rewrite prefix_char.
    destruct (Ascii.eqb d c) eqn:E.
    + apply Ascii.eqb_eq in E. subst c.
      cbn [String.length Nat.sub].
      rewrite concat_cons by apply split_go_nonempty.
      rewrite IH. reflexivity.
    + rewrite IH. rewrite append_assoc. reflexivity.
Qed.

(** The same for the two-character separator of [nameAndVersion]; after
    a match one character of the separator is still to be skipped. *)
Lemma concat_split_go_dash2 (s : string) :
  (forall cur,
     String.concat "--" (PyStr.split_go "--" 0 cur s) = (cur ++ s)%string) /\
  (forall cur,
     String.concat "--" (PyStr.split_go "--" 1 cur s)
     = (cur ++ match s with String _ s' => s' | EmptyString => "" end)%string).
Proof.
  induction s as [| c s [IH0 IH1]].
  - split; intro cur; simpl; rewrite append_nil_r; reflexivity.
  - split; intro cur.
    + cbn [PyStr.split_go].
      destruct (prefix "--" (String c s)) eqn:E.
      * cbn [String.length Nat.sub].
        rewrite concat_cons by apply split_go_nonempty.
        rewrite IH1.
        rewrite prefix_cons in E. apply andb_true_iff in E.
        destruct E as [E1 E2]. apply Ascii.eqb_eq in E1. subst c.
        destruct s as [| c' s']; [discriminate |].
        rewrite prefix_char in E2. apply Ascii.eqb_eq in E2. subst c'.
        reflexivity.
      * rewrite IH0. rewrite append_assoc. reflexivity.
    + cbn [PyStr.split_go]. apply IH0.
Qed.

Lemma length_split_go (sep : string) (skip : nat) (cur s : string) :
  List.length (PyStr.split_go sep skip cur s) = S (PyStr.count_go sep skip s).
Proof.
  revert skip cur. induction s as [| c s IH]; intros skip cur.
  - reflexivity.
  - cbn [PyStr.split_go PyStr.count_go]. destruct skip.
    + destruct (prefix sep (String c s)); [simpl; f_equal |]; apply IH.
    + apply IH.
Qed.

Lemma concat_removelast (sep : string) (l : list string) :
  (2 <= List.length l)%nat ->
  String.concat sep l
  = (String.concat sep (removelast l) ++ sep ++ last l "")%string.
Proof.
  induction l as [| x l IH]; intro H; [simpl in H; lia |].
  destruct l as [| y l]; [simpl in H; lia |].
  destruct l as [| z l].
  - reflexivity.
  - rewrite concat_cons by congruence.
    rewrite IH by (simpl; lia).
    change (removelast (x :: y :: z :: l)) with (x :: removelast (y :: z :: l)).
    change (last (x :: y :: z :: l) "") with (last (y :: z :: l) "").
    rewrite concat_cons.
    + rewrite !append_assoc. reflexivity.
    + destruct l; simpl; congruence.
Qed.

Lemma join_split (delim s : string) :
  delim = "--" \/ delim = "-" ->
  PyStr.join delim (PyStr.split delim s) = s.
Proof.
  unfold PyStr.join, PyStr.split. intros [-> | ->].
  - apply (proj1 (concat_split_go_dash2 s) "").
  - apply (concat_split_go_char "-" s "").
Qed.

(** What one iteration of the loop of [nameAndVersion] returns. *)
Lemma nameAndVersion_step_parts (aString delim name vers : string) :
  delim = "--" \/ delim = "-" ->
  nameAndVersion_step aString delim = Ok (Some (name, vers)) ->
  aString = (name ++ delim ++ vers)%string /\
  exists c rest, vers = String c rest /\ PyStr.is_digit c = true.
Proof.
  intros Hd H. unfold nameAndVersion_step in H.
  destruct (0 <? PyStr.count delim aString)%nat eqn:Hc; [| discriminate].
  apply Nat.ltb_lt in Hc.
  destruct (last (PyStr.split delim aString) "") as [| c rest] eqn:Hl;
    [discriminate |].
  destruct (PyStr.is_digit c) eqn:Hdig; [| discriminate].
  apply Ok_inj in H. injection H as Hn Hv. subst name vers.
  split; [| exists c, rest; split; [reflexivity | exact Hdig]].
  rewrite <- Hl. unfold PyStr.join.
  rewrite <- concat_removelast.
  - symmetry. apply (join_split aString Hd).
  - unfold PyStr.split. rewrite length_split_go.
    unfold PyStr.count in Hc. lia.
Qed.

(** X1.  The parts returned by [nameAndVersion] reassemble to the input. *)
Theorem nameAndVersion_parts_rejoin (aString name vers : string) :
  nameAndVersion aString = Ok (name, vers) ->
  (vers = "" /\ name = aString) \/
  (exists delim c rest,
      (delim = "--" \/ delim = "-") /\
      aString = (name ++ delim ++ vers)%string /\
      vers = String c rest /\ PyStr.is_digit c = true).
Proof.
  unfold nameAndVersion. cbn [nameAndVersion_loop]. intro H.
  destruct (nameAndVersion_step aString "--") as [[[n v] |] | e |] eqn:H1;
    cbn [bind] in H; try discriminate.
  - apply Ok_inj in H. injection H as -> ->.
    destruct (nameAndVersion_step_parts aString (or_introl eq_refl) H1)
      as [Hs [c [rest [Hv Hd]]]].
    right. exists "--", c, rest. auto.
  - destruct (nameAndVersion_step aString "-") as [[[n v] |] | e |] eqn:H2;
      cbn [bind] in H; try discriminate.
    + apply Ok_inj in H. injection H as -> ->.
      destruct (nameAndVersion_step_parts aString (or_intror eq_refl) H2)
        as [Hs [c [rest [Hv Hd]]]].
      right. exists "-", c, rest. auto.
    + apply Ok_inj in H. injection H as -> ->. left. auto.
Qed.

Lemma split_go_none (sep s cur : string) :
  PyStr.contains sep s = false ->
  PyStr.split_go sep 0 cur s = [(cur ++ s)%string].
Proof.
  revert cur. induction s as [| c s IH]; intros cur H.
  - simpl. rewrite append_nil_r. reflexivity.
  - cbn [PyStr.contains] in H. apply orb_false_iff in H. destruct H as [H1 H2].
    cbn [PyStr.split_go]. rewrite H1. rewrite IH by exact H2.
    rewrite append_assoc. reflexivity.
Qed.

Lemma contains_dash2_of_dash (s : string) :
  PyStr.contains "-" s = false -> PyStr.contains "--" s = false.
Proof.
  induction s as [| c s IH]; intro H; [reflexivity |].
  cbn [PyStr.contains] in *. apply orb_false_iff in H. destruct H as [H1 H2].
  rewrite prefix_char in H1. rewrite prefix_cons, H1, (IH H2). reflexivity.
Qed.

Lemma is_digit_not_dash (c : ascii) :
  PyStr.is_digit c = true -> Ascii.eqb "-" c = false.
Proof.
  intro H. destruct (Ascii.eqb "-" c) eqn:E; [| reflexivity].
  apply Ascii.eqb_eq in E. subst c. discriminate H.
Qed.

(** A hyphen that follows a name without double hyphen does not start
    one. *)
Lemma prefix_dash2_app (c0 : ascii) (n t : string) :
  prefix "--" (String c0 (n ++ "-")) = false ->
  prefix "--" (String c0 (n ++ String "-" t)) = false.
Proof.
  rewrite !prefix_cons. destruct (Ascii.eqb "-" c0); [| reflexivity].
  cbn [andb]. destruct n as [| c1 n].
  - cbn [append]. rewrite prefix_char. discriminate.
  - cbn [append]. rewrite !prefix_char. auto.
Qed.

Lemma contains_dash2_app (n v : string) (c : ascii) (rest : string) :
  PyStr.contains "--" (n ++ "-") = false ->
  v = String c rest -> PyStr.is_digit c = true ->
  PyStr.contains "-" v = false ->
  PyStr.contains "--" (n ++ "-" ++ v) = false.
Proof.
  intros Hn Hv Hd Hc. induction n as [| c0 n IH].
  - cbn [append PyStr.contains]. rewrite (contains_dash2_of_dash v Hc).
    subst v. rewrite !prefix_cons, prefix_empty, (is_digit_not_dash c Hd).
    reflexivity.
  - cbn [append PyStr.contains] in *. apply orb_false_iff in Hn.
    destruct Hn as [H1 H2]. rewrite (IH H2).
    rewrite (prefix_dash2_app c0 n v H1). reflexivity.
Qed.

Lemma split_dash2_at (n v cur : string) :
  PyStr.contains "--" (n ++ "-") = false ->
  PyStr.contains "-" v = false ->
  PyStr.split_go "--" 0 cur (n ++ "--" ++ v) = [(cur ++ n)%string; v].
Proof.
  intros Hn Hv. revert cur. induction n as [| c0 n IH]; intro cur.
  - cbn [append PyStr.split_go]. rewrite !prefix_cons, prefix_empty.
    rewrite Ascii.eqb_refl. cbn [andb String.length Nat.sub].
    rewrite split_go_none by (apply contains_dash2_of_dash; exact Hv).
    rewrite append_nil_r. reflexivity.
  - cbn [append PyStr.contains] in Hn. apply orb_false_iff in Hn.
    destruct Hn as [H1 H2].
    cbn [append PyStr.split_go].
    change (n ++ String "-" (String "-" v))%string
      with (n ++ String "-" ("-" ++ v))%string.
    rewrite (prefix_dash2_app c0 n ("-" ++ v) H1).
    change (n ++ String "-" ("-" ++ v))%string with (n ++ "--" ++ v)%string.
    rewrite (IH H2). rewrite append_assoc. reflexivity.
Qed.

Lemma last_app_singleton {A : Type} (l : list A) (x d : A) :
  last (l ++ [x]) d = x.
Proof.
  induction l as [| y l IH]; [reflexivity |].
  simpl app. destruct (l ++ [x]) eqn:E.
  - destruct l; discriminate.
  - simpl. simpl in IH. exact IH.
Qed.

Lemma removelast_app_singleton {A : Type} (l : list A) (x : A) :
  removelast (l ++ [x]) = l.
Proof. rewrite removelast_app by congruence. simpl. apply app_nil_r. Qed.

(** X2.  A name and a version joined by a hyphen or a double hyphen are
    split again into the same name and version. *)
Theorem nameAndVersion_of_joined (name vers delim : string) (c : ascii)
  (rest : string) :
  delim = "--" \/ delim = "-" ->
  PyStr.contains "--" (name ++ "-") = false ->
  vers = String c rest -> PyStr.is_digit c = true ->
  PyStr.contains "-" vers = false ->
  nameAndVersion (name ++ delim ++ vers) = Ok (name, vers).
Proof.
  intros Hdelim Hn Hv Hd Hc.
  unfold nameAndVersion. cbn [nameAndVersion_loop].
  destruct Hdelim as [-> | ->].
  - assert (Hs : PyStr.split "--" (name ++ "--" ++ vers) = [name; vers])
      by (apply (split_dash2_at name vers "" Hn Hc)).
    unfold nameAndVersion_step.
    assert (Hcount : PyStr.count "--" (name ++ "--" ++ vers) = 1%nat).
    { assert (H := length_split_go "--" 0 "" (name ++ "--" ++ vers)).
      assert (Hs' := Hs). unfold PyStr.split in Hs'.
      rewrite Hs' in H. cbn [List.length] in H.
      unfold PyStr.count. lia. }
    rewrite Hcount, Hs. cbn [Nat.ltb Nat.leb last removelast].
    rewrite Hv at 1. rewrite Hd. reflexivity.
  - assert (Hnone : PyStr.contains "--" (name ++ "-" ++ vers) = false)
      by (apply (contains_dash2_app name Hn Hv Hd Hc) || apply (contains_dash2_app name vers Hn Hv Hd Hc)).
    assert (Hcount2 : PyStr.count "--" (name ++ "-" ++ vers) = 0%nat).
    { assert (H := length_split_go "--" 0 "" (name ++ "-" ++ vers)).
      rewrite split_go_none in H by exact Hnone. cbn [List.length] in H.
      unfold PyStr.count. lia. }
    unfold nameAndVersion_step at 1. rewrite Hcount2.
    cbn [Nat.ltb Nat.leb bind].
    assert (Hs : PyStr.split "-" (name ++ "-" ++ vers)
                 = PyStr.split "-" name ++ [vers]).
    { unfold PyStr.split.
      change (name ++ "-" ++ vers)%string with (name ++ String "-" vers)%string.
      rewrite split_go_char_app.
      rewrite (split_go_none "-" vers "" Hc). reflexivity. }
    assert (Hcount : (0 < PyStr.count "-" (name ++ "-" ++ vers))%nat).
    { assert (H := length_split_go "-" 0 "" (name ++ "-" ++ vers)).
      assert (Hs' := Hs). unfold PyStr.split in Hs'.
      rewrite Hs', length_app in H.
      assert (H' := length_split_go "-" 0 "" name).
      cbn [List.length] in H. unfold PyStr.count. lia. }
    unfold nameAndVersion_step. apply Nat.ltb_lt in Hcount. rewrite Hcount.
    rewrite Hs, last_app_singleton, removelast_app_singleton.
    rewrite (join_split name (or_intror eq_refl)).
    rewrite Hv at 1. rewrite Hd. reflexivity.
Qed.

(* ================================================================= *)
(** ** trimVersionString *)

Lemma contains_char_app (d : ascii) (a b : string) :
  PyStr.contains (String d "") (a ++ b)
  = PyStr.contains (String d "") a || PyStr.contains (String d "") b.
Proof.
  induction a as [| c a IH].
  - cbn [append PyStr.contains]. destruct b; reflexivity.
  - cbn [append PyStr.contains]. rewrite !prefix_char, IH.
    rewrite orb_assoc. reflexivity.
Qed.

(** No part of [s.split('.')] holds a dot. *)
Lemma split_go_char_parts (d : ascii) (s cur : string) :
  PyStr.contains (String d "") cur = false ->
  Forall (fun p => PyStr.contains (String d "") p = false)
         (PyStr.split_go (String d "") 0 cur s).
Proof.
  revert cur. induction s as [| c s IH]; intros cur Hcur.
  - constructor; [exact Hcur | constructor].
  - cbn [PyStr.split_go]. rewrite prefix_char.
    destruct (Ascii.eqb d c) eqn:E.
    + constructor; [exact Hcur |]. apply IH. reflexivity.
    + apply IH. rewrite contains_char_app, Hcur.
      cbn [PyStr.contains orb]. rewrite prefix_char, E. reflexivity.
Qed.

(** [sep.join(parts).split(sep) == parts] when no part holds the
    separator. *)
Lemma split_go_concat_char (d : ascii) (l : list string) (x cur : string) :
  Forall (fun p => PyStr.contains (String d "") p = false) (x :: l) ->
  PyStr.split_go (String d "") 0 cur (String.concat (String d "") (x :: l))
  = (cur ++ x)%string :: l.
Proof.
  revert x cur. induction l as [| y l IH]; intros x cur H.
  - cbn [String.concat]. apply split_go_none.
    inversion H; assumption.
  - rewrite concat_cons by congruence.
    change (x ++ String d "" ++ String.concat (String d "") (y :: l))%string
      with (x ++ String d (String.concat (String d "") (y :: l)))%string.
    rewrite split_go_char_app.
    inversion H as [| ? ? Hx Hl]; subst.
    rewrite split_go_none by exact Hx.
    rewrite IH by exact Hl. reflexivity.
Qed.

Lemma trim_rev_idem (l : list string) :
  trim_rev (List.length (trim_rev (List.length l) l))
           (trim_rev (List.length l) l)
  = trim_rev (List.length l) l.
Proof.
  induction l as [| p rest IH]; [reflexivity |].
  cbn [List.length trim_rev].
  destruct ((2 <? S (List.length rest))%nat && String.eqb p "0") eqn:E.
  - cbn [pred]. exact IH.
  - cbn [List.length trim_rev]. rewrite E. reflexivity.
Qed.

Lemma trim_rev_Forall (P : string -> Prop) (n : nat) (l : list string) :
  Forall P l -> Forall P (trim_rev n l).
Proof.
  revert n. induction l as [| p rest IH]; intros n H; [constructor |].
  cbn [trim_rev]. destruct ((2 <? n)%nat && String.eqb p "0").
  - apply IH. inversion H; assumption.
  - exact H.
Qed.

Lemma trim_rev_nonempty (l : list string) :
  l <> [] -> trim_rev (List.length l) l <> [].
Proof.
  induction l as [| p rest IH]; intro H; [congruence |].
  cbn [List.length trim_rev].
  destruct ((2 <? S (List.length rest))%nat && String.eqb p "0") eqn:E;
    [| congruence].
  cbn [pred]. apply IH. apply andb_true_iff in E. destruct E as [E _].
  apply Nat.ltb_lt in E. destruct rest; [simpl in E; lia | congruence].
Qed.

(** X3.  Trimming a version that is trimmed already changes nothing. *)
Theorem trimVersionString_idempotent (version_string : string) :
  trimVersionString (trimVersionString version_string)
  = trimVersionString version_string.
Proof.
  destruct (String.eqb version_string "") eqn:E.
  { apply String.eqb_eq in E. subst. reflexivity. }
  set (parts := PyStr.split "." version_string).
  set (R := trim_rev (List.length parts) (rev parts)).
  assert (Hv : trimVersionString version_string = PyStr.join "." (rev R)).
  { unfold trimVersionString. rewrite E. reflexivity. }
  rewrite Hv. clear Hv.
  assert (HR : trim_rev (List.length R) R = R).
  { unfold R. rewrite <- (length_rev parts). apply trim_rev_idem. }
  assert (Hne : rev R <> []).
  { unfold R. rewrite <- (length_rev parts). intro H.
    apply (f_equal (@rev string)) in H. rewrite rev_involutive in H.
    simpl in H. revert H. apply trim_rev_nonempty.
    intro H. apply (f_equal (@rev string)) in H.
    rewrite rev_involutive in H. simpl in H.
    revert H. apply split_go_nonempty. }
  assert (Hparts : Forall (fun p => PyStr.contains "." p = false) (rev R)).
  { apply Forall_rev. unfold R. apply trim_rev_Forall. apply Forall_rev.
    apply split_go_char_parts. reflexivity. }
  unfold trimVersionString.
  destruct (String.eqb (PyStr.join "." (rev R)) "") eqn:E2.
  - apply String.eqb_eq in E2. symmetry. exact E2.
  - destruct (rev R) as [| x l] eqn:ER; [congruence |].
    unfold PyStr.join, PyStr.split.
    rewrite split_go_concat_char by exact Hparts. cbn [append].
    rewrite <- ER, length_rev, rev_involutive, HR. reflexivity.
Qed.

Lemma count_go_contains (d : ascii) (s : string) :
  PyStr.contains (String d "") s = true ->
  (0 < PyStr.count_go (String d "") 0 s)%nat.
Proof.
  induction s as [| c s IH]; intro H; [discriminate |].
  cbn [PyStr.contains] in H. cbn [PyStr.count_go].
  destruct (prefix (String d "") (String c s)); [lia |].
  apply IH. exact H.
Qed.

(** X4.  A trailing [.0] after major.minor is dropped. *)
Theorem trimVersionString_drops_trailing_zero (version_string : string) :
  PyStr.contains "." version_string = true ->
  trimVersionString (version_string ++ ".0")
  = trimVersionString version_string.
Proof.
  intro H. unfold trimVersionString.
  destruct version_string as [| c0 v0] eqn:Ev; [discriminate |].
  rewrite <- Ev in *. clear Ev c0 v0.
  assert (E1 : String.eqb version_string "" = false).
  { destruct version_string; [discriminate | reflexivity]. }
  assert (E2 : String.eqb (version_string ++ ".0") "" = false).
  { destruct version_string; reflexivity. }
  rewrite E1, E2. f_equal. f_equal.
  unfold PyStr.split.
  change (version_string ++ ".0")%string
    with (version_string ++ String "." "0")%string.
  rewrite split_go_char_app.
  change (PyStr.split_go "." 0 "" "0") with ["0"].
  rewrite length_app, rev_app_distr. cbn [List.length rev app].
  rewrite Nat.add_1_r. cbn [trim_rev].
  assert (Hlen := length_split_go "." 0 "" version_string).
  assert (Hc := count_go_contains "." version_string H).
  replace (2 <? S (List.length (PyStr.split_go "." 0 "" version_string)))%nat
    with true by (symmetry; apply Nat.ltb_lt; lia).
  reflexivity.
Qed.

(* ================================================================= *)
(** ** The name table of makeCatalogDB *)

Lemma Some_inj {A : Type} (a b : A) : Some a = Some b -> a = b.
Proof. intros H. congruence. Qed.

Lemma table_add_has (k1 k2 : string) (i : nat) (t : table)
  (n v : string) (j : nat) :
  table_has (table_add k1 k2 i t) n v j <->
  (n = k1 /\ v = k2 /\ j = i) \/ table_has t n v j.
Proof.
  unfold table_has, table_add.
  destruct (String.eqb n k1) eqn:En.
  - apply String.eqb_eq in En. subst k1. split.
    + intros (inner & l & H1 & H2 & H3).
      rewrite aget_aset, String.eqb_refl in H1. apply Some_inj in H1.
      subst inner. rewrite aget_aset in H2.
      destruct (String.eqb v k2) eqn:Ev.
      * apply String.eqb_eq in Ev. subst k2. apply Some_inj in H2. subst l.
        apply in_app_or in H3. destruct H3 as [H3 | [H3 | []]].
        -- right. destruct (aget n t) as [inner |] eqn:E1;
             [| contradiction].
           destruct (aget v inner) as [l |] eqn:E2; [| contradiction].
           exists inner, l. auto.
        -- left. auto.
      * right. destruct (aget n t) as [inner |] eqn:E1; [| discriminate].
        exists inner, l. auto.
    + intros [(_ & -> & ->) | (inner & l & H1 & H2 & H3)].
      * eexists. eexists. rewrite aget_aset, String.eqb_refl.
        split; [reflexivity |]. rewrite aget_aset, String.eqb_refl.
        split; [reflexivity |]. apply in_or_app. right. left. reflexivity.
      * rewrite H1. destruct (String.eqb v k2) eqn:Ev.
        -- apply String.eqb_eq in Ev. subst k2. rewrite H2.
           exists (aset v (l ++ [i]) inner), (l ++ [i]).
           rewrite aget_aset, String.eqb_refl. split; [reflexivity |].
           rewrite aget_aset, String.eqb_refl. split; [reflexivity |].
           apply in_or_app. left. exact H3.
        -- eexists. exists l. rewrite aget_aset, String.eqb_refl.
           split; [reflexivity |]. rewrite aget_aset, Ev.
           split; [exact H2 | exact H3].
  - assert (Hne : n <> k1) by (apply String.eqb_neq; exact En). split.
    + intros (inner & l & H1 & H2 & H3).
      rewrite aget_aset_other in H1 by exact Hne.
      right. exists inner, l. auto.
    + intros [(E & _) | (inner & l & H1 & H2 & H3)]; [contradiction |].
      exists inner, l. rewrite aget_aset_other by exact Hne. auto.
Qed.

Lemma index_item_has (tables tables' : table * table) (i : nat) (item : dict)
  (n v : string) (j : nat) :
  index_item tables (i, item) = Ok tables' ->
  (table_has (fst tables') n v j <->
   (j = i /\ indexed_as item n v) \/ table_has (fst tables) n v j).
Proof.
  destruct tables as [nt pt]. unfold index_item. intros H.
  inv_bind H. inv_bind H. inv_bind H. apply Ok_inj in H. subst tables'.
  cbn [fst]. rewrite table_add_has. unfold indexed_as.
  destruct (get_default "name" (PStr "NO NAME") item) as [| nm | | | | |];
    try discriminate.
  apply Ok_inj in E. subst x.
  destruct (get_default "version" (PStr "NO VERSION") item) as [| s | | | | |];
    try discriminate.
  apply Ok_inj in E0. subst x0.
  split.
  - intros [(-> & -> & ->) | H]; [left | right; exact H].
    split; [reflexivity |]. split; [reflexivity |].
    exists s. split; reflexivity.
  - intros [(-> & Hn & s' & Hs & ->) | H]; [left | right; exact H].
    injection Hn as ->. injection Hs as ->. auto.
Qed.

Lemma forM_index_item_has (xs : list (nat * dict))
  (tables tables' : table * table) (n v : string) (j : nat) :
  forM index_item xs tables = Ok tables' ->
  (table_has (fst tables') n v j <->
   (exists item, In (j, item) xs /\ indexed_as item n v) \/
   table_has (fst tables) n v j).
Proof.
  revert tables. induction xs as [| [i item] xs IH]; intros tables H.
  - apply Ok_inj in H. subst tables'. split; [auto |].
    intros [(item & [] & _) | H]; exact H.
  - rewrite forM_cons in H. inv_bind H.
    rewrite (IH x H). rewrite (@index_item_has tables x i item n v j E). split.
    + intros [(it & Hin & Hk) | [(-> & Hk) | Ht]].
      * left. exists it. split; [right; exact Hin | exact Hk].
      * left. exists item. split; [left; reflexivity | exact Hk].
      * right. exact Ht.
    + intros [(it & [Heq | Hin] & Hk) | Ht].
      * injection Heq as -> ->. right. left. auto.
      * left. exists it. auto.
      * right. right. exact Ht.
Qed.

Lemma table_has_nil (n v : string) (j : nat) : ~ table_has [] n v j.
Proof. intros (inner & l & H & _). discriminate. Qed.

(** The name table of the database [makeCatalogDB] returns. *)
Lemma makeCatalogDB_named (catalogitems store : list dict) (db : pkgdb)
  (n v : string) (j : nat) :
  makeCatalogDB catalogitems = (store, Ok db) ->
  (table_has (named db) n v j <->
   exists item, nth_error catalogitems j = Some item /\ indexed_as item n v).
Proof.
  unfold makeCatalogDB. intros H.
  destruct (forM index_item (enumerate catalogitems) ([], []))
    as [[nt pt] | |] eqn:E; try (injection H as _ H; discriminate).
  injection H as _ H. subst db. cbn [named].
  rewrite (@forM_index_item_has _ _ _ n v j E). cbn [fst]. split.
  - intros [(item & Hin & Hk) | Ht]; [| destruct (table_has_nil Ht)].
    exists item. split; [apply In_enumerate; exact Hin | exact Hk].
  - intros (item & Hn & Hk). left. exists item.
    split; [apply In_enumerate; exact Hn | exact Hk].
Qed.

(** X5.  The name table is exact: an index is filed under a name and a
    version exactly when the item at that index carries that name and a
    version that trims to that one. *)
Theorem makeCatalogDB_name_table_exact (catalogitems store : list dict)
  (db : pkgdb) (name vers : string) (itemindex : nat) :
  makeCatalogDB catalogitems = (store, Ok db) ->
  (table_has (named db) name vers itemindex <->
   exists item, nth_error catalogitems itemindex = Some item /\
                indexed_as item name vers).
Proof. apply makeCatalogDB_named. Qed.

(* ================================================================= *)
(** ** getItemDetail over catalogs built by makeCatalogDB *)

Section LookupFacts.

Context {W : Type} {collab : Oracles W}.
Variable G : globals.

Lemma first_eligible_index (catalogitems : list dict)
  (indexlist : list nat) (item : dict) :
  first_eligible G catalogitems indexlist = Ok (Some item) ->
  exists index, In index indexlist /\
                nth_error catalogitems index = Some item.
Proof.
  induction indexlist as [| index rest IH]; simpl; intros H.
  - discriminate.
  - destruct (nth_error catalogitems index) as [candidate |] eqn:En;
      [| discriminate].
    inv_bind H. destruct x.
    + apply Ok_inj in H. injection H as ->.
      exists index. split; [left; reflexivity | exact En].
    + destruct (IH H) as (i & Hi & Hn). exists i. auto.
Qed.

Lemma candidate_indexes_has (vers : string)
  (itemsmatchingname : list (string * list nat)) (index : nat) :
  In index (candidate_indexes vers itemsmatchingname) ->
  exists versionkey l,
    aget versionkey itemsmatchingname = Some l /\ In index l /\
    (vers <> "latest" -> versionkey = vers).
Proof.
  unfold candidate_indexes. destruct (String.eqb vers "latest") eqn:E.
  - intros H. apply in_flat_map in H. destruct H as (k & _ & Hk).
    destruct (aget k itemsmatchingname) as [l |] eqn:El; [| contradiction].
    exists k, l. split; [exact El |]. split; [exact Hk |].
    intros Hne. apply String.eqb_eq in E. contradiction.
  - intros H.
    destruct (aget vers itemsmatchingname) as [l |] eqn:El;
      [| contradiction].
    exists vers, l. auto.
Qed.

Hypothesis catalogs_built :
  forall catalogname db,
    aget catalogname (CATALOG G) = Some db -> built_by_makeCatalogDB db.

Lemma getItemDetail_loop_indexed (name vers : string)
  (cataloglist : list string) (item : dict) :
  getItemDetail_loop G name vers cataloglist = Ok (Some item) ->
  exists versionkey original,
    indexed_as original name versionkey /\
    (vers <> "latest" -> versionkey = vers) /\
    forall k, k <> "update_for" -> aget k item = aget k original.
Proof.
  induction cataloglist as [| catalogname rest IH]; simpl; intros H.
  - discriminate.
  - destruct (aget catalogname (CATALOG G)) as [db |] eqn:Ec; [| auto].
    destruct (aget name (named db)) as [itemsmatchingname |] eqn:En;
      [| auto].
    inv_bind H. destruct x as [found |]; [| auto].
    apply Ok_inj in H. injection H as ->.
    destruct (first_eligible_index _ _ E) as (index & Hin & Hnth).
    destruct (candidate_indexes_has _ _ _ Hin) as (vk & l & Hl & Hil & Hv).
    destruct (catalogs_built _ Ec) as (catalogitems & Hb).
    assert (Hhas : table_has (named db) name vk index)
      by (exists itemsmatchingname, l; auto).
    apply (@makeCatalogDB_named _ _ _ name vk index Hb) in Hhas.
    destruct Hhas as (original & Ho & Hk).
    exists vk, original. split; [exact Hk |]. split; [exact Hv |].
    assert (Hs := makeCatalogDB_store catalogitems index).
    rewrite Hb in Hs. cbn [fst snd] in Hs. rewrite Ho, Hnth in Hs.
    apply Some_inj in Hs. subst item. intros k Hne.
    destruct (has_update_for original); [| reflexivity].
    apply fix_update_for_other. exact Hne.
Qed.

(** What [getItemDetail] returns over catalogs built by
    [makeCatalogDB]. *)
Lemma getItemDetail_built_item (name : string)
  (cataloglist : list string) (vers base includedversion : string)
  (item : dict) :
  nameAndVersion name = Ok (base, includedversion) ->
  getItemDetail G name cataloglist vers = Ok (Some item) ->
  aget "name" item = Some (PStr base) /\
  exists s,
    aget "version" item = Some (PStr s) /\
    forall requested,
      requested = (if String.eqb vers "" then includedversion else vers) ->
      requested <> "" -> trimVersionString requested <> "latest" ->
      trimVersionString s = trimVersionString requested.
Proof.
  intros Hnv H.
  destruct (getItemDetail_keys _ _ _ _ H) as (n & v & Hn & Hv).
  unfold getItemDetail in H. rewrite Hnv in H. cbn [bind] in H.
  apply getItemDetail_loop_indexed in H.
  destruct H as (vk & original & (Hname & s & Hs & Hvk) & Hreq & Hsame).
  unfold get_default in Hname, Hs.
  rewrite <- (Hsame "name") in Hname by discriminate.
  rewrite <- (Hsame "version") in Hs by discriminate.
  rewrite Hn in Hname. rewrite Hv in Hs. subst n v.
  split; [exact Hn |]. exists s. split; [exact Hv |].
  intros requested Hr Hne Hlatest. subst vk.
  assert (Heq : (if String.eqb
                      (if String.eqb vers ""
                       then if String.eqb includedversion ""
                            then vers else includedversion
                       else vers) ""
                 then "latest"
                 else trimVersionString
                        (if String.eqb vers ""
                         then if String.eqb includedversion ""
                              then vers else includedversion
                         else vers))
                = trimVersionString requested).
  { subst requested. destruct (String.eqb vers "") eqn:Ev.
    - destruct (String.eqb includedversion "") eqn:Ei.
      + apply String.eqb_eq in Ei. contradiction.
      + rewrite Ei. reflexivity.
    - rewrite Ev. reflexivity. }
  rewrite Heq in Hreq. apply Hreq. exact Hlatest.
Qed.

(** X6.  Over catalogs that [makeCatalogDB] built, the item that
    [getItemDetail] returns carries the name that was asked for and,
    when a version was asked for, a version that trims to the same
    string. *)
Theorem getItemDetail_returns_requested (name : string)
  (cataloglist : list string) (vers base includedversion : string)
  (item : dict) :
  nameAndVersion name = Ok (base, includedversion) ->
  getItemDetail G name cataloglist vers = Ok (Some item) ->
  aget "name" item = Some (PStr base) /\
  exists s,
    aget "version" item = Some (PStr s) /\
    forall requested,
      requested = (if String.eqb vers "" then includedversion else vers) ->
      requested <> "" -> trimVersionString requested <> "latest" ->
      trimVersionString s = trimVersionString requested.
Proof. apply getItemDetail_built_item. Qed.

End LookupFacts.

(* ================================================================= *)
(** ** lookForUpdates *)

Lemma In_uniq {A : Type} (eqb : A -> A -> bool) (l : list A) (x : A) :
  In x (uniq eqb l) -> In x l.
Proof.
  induction l as [| y l IH]; simpl; intros H; [exact H |].
  destruct H as [-> | H]; [left; reflexivity |].
  apply filter_In in H. right. apply IH. apply H.
Qed.

Section UpdateFacts.

Context {W : Type} {collab : Oracles W}.
Variable G : globals.

Lemma updates_in_declared (db : pkgdb) (itemname : pval) :
  forall (us : list nat) (acc l : list pval),
    (forall u, In u us -> In u (updaters db)) ->
    forM (updates_in db itemname) us acc = Ok l ->
    forall name, In name l -> In name acc \/ declares_update itemname db name.
Proof.
  induction us as [| u us IH]; intros acc l Hus H name Hin.
  - apply Ok_inj in H. subst l. left. exact Hin.
  - rewrite forM_cons in H. inv_bind H.
    destruct (IH x l (fun u' Hu' => Hus u' (or_intror Hu')) H name Hin)
      as [Hx | Hd]; [| right; exact Hd].
    unfold updates_in in E.
    destruct (nth_error (items db) u) as [catalogitem |] eqn:En;
      [| discriminate].
    inv_bind E. destruct x0.
    + inv_bind E. apply Ok_inj in E. subst x.
      apply in_app_or in Hx. destruct Hx as [Hx | [<- | []]];
        [left; exact Hx |].
      right. exists u, catalogitem. split; [apply Hus; left; reflexivity |].
      split; [exact En |]. split; [| exact E0].
      unfold getitem in E1.
      destruct (aget "name" catalogitem); [| discriminate].
      apply Ok_inj in E1. subst. reflexivity.
    + apply Ok_inj in E. subst x. left. exact Hx.
Qed.

(** X7.  Every update that [lookForUpdates] returns is the name of an
    updater, in a loaded catalog of the given list, whose [update_for]
    holds the item name. *)
Theorem lookForUpdates_only_declared_updates (itemname : pval)
  (cataloglist : list string) (update_list : list pval) (name : pval) :
  lookForUpdates G itemname cataloglist = Ok update_list ->
  In name update_list ->
  exists catalogname db u updater,
    In catalogname cataloglist /\
    aget catalogname (CATALOG G) = Some db /\
    In u (updaters db) /\ nth_error (items db) u = Some updater /\
    aget "name" updater = Some name /\
    py_in itemname (get_default "update_for" (PList []) updater) = Ok true.
Proof.
  unfold lookForUpdates. intros H Hin. inv_bind H.
  apply Ok_inj in H. subst update_list. apply In_uniq in Hin.
  assert (Hinv : In name x ->
                 exists catalogname db,
                   In catalogname cataloglist /\
                   aget catalogname (CATALOG G) = Some db /\
                   declares_update itemname db name).
  { eapply forM_invariant
      with (P := fun l : list pval =>
                   In name l ->
                   exists catalogname db,
                     In catalogname cataloglist /\
                     aget catalogname (CATALOG G) = Some db /\
                     declares_update itemname db name);
      [| | exact E].
    - intros s catalogname s' Hc Hs Hbody Hin'. cbv beta in Hbody.
      destruct (aget catalogname (CATALOG G)) as [db |] eqn:Edb.
      + inv_bind Hbody. apply Ok_inj in Hbody. subst s'.
        apply in_app_or in Hin'. destruct Hin' as [Hin' | Hin'];
          [apply Hs; exact Hin' |].
        destruct (updates_in_declared db itemname (updaters db) nil
                    (fun u Hu => Hu) E0 name Hin') as [[] | Hd].
        exists catalogname, db. auto.
      + apply Ok_inj in Hbody. subst s'. apply Hs. exact Hin'.
    - intros []. }
  destruct (Hinv Hin) as (c & db & Hc & Hdb & Hd).
  destruct Hd as (u & updater & Hd). exists c, db, u, updater. auto.
Qed.

End UpdateFacts.

(* ================================================================= *)
(** ** What the resolvers leave alone *)

Section ResolverFrames.

Context {W : Type} {collab : Oracles W}.
Variable G : globals.


(** A managed update leaves the state as it is or marks the update and
    hands over to [processInstall]. *)
Lemma processManagedUpdate_changes (fuel : nat) (manifestitem : string)
  (cataloglist : list string) (st st' : state W) :
  processManagedUpdate G fuel manifestitem cataloglist st = Ok st' ->
  st' = st \/
  install_extends
    (with_info (fun i => set_managed_updates
                           (managed_updates i
                            ++ [PyStr.basename manifestitem]) i) st)
    st'.
Proof.
  unfold processManagedUpdate. intros H.
  destruct (str_in _ (managed_updates (info st))).
  { apply Ok_inj in H. left. congruence. }
  destruct (str_in _ (processed_installs (info st))).
  { apply Ok_inj in H. left. congruence. }
  destruct (str_in _ (processed_uninstalls (info st))).
  { apply Ok_inj in H. left. congruence. }
  inv_bind H. destruct (found_item x) as [item |].
  2: { apply Ok_inj in H. left. congruence. }
  inv_bind H. destruct x0.
  2: { apply Ok_inj in H. left. congruence. }
  inv_bind H. destruct x0 as [b s1]. apply Ok_inj in H. subst s1.
  right. eapply processInstall_extends. exact E1.
Qed.

(** X8.  [processInstall] only appends to [processed_installs] and to
    [managed_installs]; the removal lists, the managed updates, the
    optional installs and the receipt database are left as they were. *)
Theorem processInstall_only_appends_installs (fuel : nat)
  (manifestitem : string) (cataloglist : list string) (st : state W)
  (b : bool) (st' : state W) :
  processInstall G fuel manifestitem cataloglist st = Ok (b, st') ->
  processed_uninstalls (info st') = processed_uninstalls (info st) /\
  removals (info st') = removals (info st) /\
  managed_updates (info st') = managed_updates (info st) /\
  optional_installs (info st') = optional_installs (info st) /\
  PKGDATA st' = PKGDATA st /\
  (exists added,
      processed_installs (info st')
      = processed_installs (info st) ++ added) /\
  (exists records,
      managed_installs (info st') = managed_installs (info st) ++ records).
Proof.
  intros H. apply processInstall_extends in H.
  destruct H as (H1 & H2 & H3 & H4 & H5 & (added & H6 & _) & H7).
  repeat split; try assumption. exists added. exact H6.
Qed.

(** X9.  [processRemoval] only appends to [processed_uninstalls] and to
    [removals]; the install lists, the managed updates and the optional
    installs are left as they were. *)
Theorem processRemoval_only_appends_removals (fuel : nat)
  (manifestitem : string) (cataloglist : list string) (st : state W)
  (b : bool) (st' : state W) :
  processRemoval G fuel manifestitem cataloglist st = Ok (b, st') ->
  processed_installs (info st') = processed_installs (info st) /\
  managed_installs (info st') = managed_installs (info st) /\
  managed_updates (info st') = managed_updates (info st) /\
  optional_installs (info st') = optional_installs (info st) /\
  (exists added,
      processed_uninstalls (info st')
      = processed_uninstalls (info st) ++ added) /\
  (exists records, removals (info st') = removals (info st) ++ records).
Proof.
  intros H. apply processRemoval_extends in H.
  destruct H as (H1 & H2 & H3 & H4 & (added & H5 & _) & H6).
  repeat split; try assumption. exists added. exact H5.
Qed.

(** X10.  An item that no catalog of the list describes is not recorded:
    the call returns without changing anything. *)
Theorem processInstall_unknown_item (fuel : nat) (manifestitem : string)
  (cataloglist : list string) (st : state W) (base includedversion : string) :
  nameAndVersion (PyStr.basename manifestitem) = Ok (base, includedversion) ->
  getItemDetail G manifestitem cataloglist "" = Ok None ->
  processInstall G (S fuel) manifestitem cataloglist st
  = Ok (str_in (PyStr.basename manifestitem) (processed_installs (info st)),
        st).
Proof.
  intros Hn Hg. cbn [processInstall]. rewrite Hn. cbn [bind].
  destruct (str_in (PyStr.basename manifestitem)
                   (processed_installs (info st))); [reflexivity |].
  destruct (str_in base (processed_uninstalls (info st))); [reflexivity |].
  rewrite Hg. reflexivity.
Qed.

(** X11.  A removal request that is repeated changes nothing, and it is
    answered [True] unless the name is that of a processed install --
    whatever the first answer was. *)
Theorem processRemoval_twice (fuel fuel2 : nat) (manifestitem : string)
  (cataloglist cataloglist2 : list string) (st : state W) (b : bool)
  (st' : state W) :
  processRemoval G fuel manifestitem cataloglist st = Ok (b, st') ->
  exists name includedversion names,
    nameAndVersion (PyStr.basename manifestitem)
      = Ok (name, includedversion) /\
    install_basenames (processed_installs (info st')) = Ok names /\
    processRemoval G (S fuel2) manifestitem cataloglist2 st'
    = Ok (negb (str_in name names), st').
Proof.
  intros H. apply processRemoval_cases in H.
  destruct H as (name & iv & names & Hn & Hnames & H).
  exists name, iv, names. split; [exact Hn |].
  cbn [processRemoval]. rewrite Hn. cbn [bind].
  destruct H as [(Hin & _ & ->) | [(Hnot & Hpu & _ & ->) | (Hnot & _ & H)]].
  - split; [exact Hnames |]. rewrite Hnames. cbn [bind].
    apply str_in_In in Hin. rewrite Hin. reflexivity.
  - split; [exact Hnames |]. rewrite Hnames. cbn [bind].
    apply str_in_false in Hnot. apply str_in_In in Hpu.
    rewrite Hnot, Hpu. reflexivity.
  - destruct H as (Hpi & _ & _ & _ & (added & Ha & _) & _).
    unfold mark_removed, with_info in Hpi, Ha.
    cbn [info processed_installs processed_uninstalls
         set_processed_uninstalls] in Hpi, Ha.
    rewrite Hpi. split; [exact Hnames |].
    rewrite Hnames. cbn [bind]. apply str_in_false in Hnot. rewrite Hnot.
    rewrite Ha. rewrite !str_in_app.
    replace (str_in name [name]) with true
      by (symmetry; apply str_in_In; left; reflexivity).
    rewrite orb_true_r. reflexivity.
Qed.

(** X12.  A managed update changes the state only when the item is found
    in the catalogs and some version of it is installed; its name is
    then new in [managed_updates]. *)
Theorem processManagedUpdate_only_for_installed (fuel : nat)
  (manifestitem : string) (cataloglist : list string) (st st' : state W) :
  processManagedUpdate G fuel manifestitem cataloglist st = Ok st' ->
  st' = st \/
  exists item_pl,
    getItemDetail G manifestitem cataloglist "" = Ok (Some item_pl) /\
    someVersionInstalled (world st) item_pl = Ok true /\
    ~ In (PyStr.basename manifestitem) (managed_updates (info st)) /\
    In (PyStr.basename manifestitem) (managed_updates (info st')).
Proof.
  unfold processManagedUpdate. intros H.
  destruct (str_in _ (managed_updates (info st))) eqn:Emu.
  { apply Ok_inj in H. left. congruence. }
  destruct (str_in _ (processed_installs (info st))).
  { apply Ok_inj in H. left. congruence. }
  destruct (str_in _ (processed_uninstalls (info st))).
  { apply Ok_inj in H. left. congruence. }
  inv_bind H. destruct x as [item |]; cbn [found_item] in H.
  2: { apply Ok_inj in H. left. congruence. }
  destruct (truthy (PDict item)) eqn:Et.
  2: { apply Ok_inj in H. left. congruence. }
  inv_bind H. destruct x.
  2: { apply Ok_inj in H. left. congruence. }
  inv_bind H. destruct x as [b s1]. apply Ok_inj in H. subst s1.
  right. exists item. split; [exact E |]. split; [exact E0 |].
  split; [apply str_in_false; exact Emu |].
  apply processInstall_extends in E1.
  destruct E1 as (_ & Hm & _). rewrite Hm. cbn.
  apply in_or_app. right. left. reflexivity.
Qed.

End ResolverFrames.

(* ================================================================= *)
(** ** getAutoRemovalItems *)

Lemma pval_eqb_PStr_refl (s : string) : pval_eqb (PStr s) (PStr s) = true.
Proof. simpl. apply String.eqb_refl. Qed.

Lemma install_basenames_total (processed : list string) :
  Forall (fun name => exists b v, nameAndVersion name = Ok (b, v)) processed ->
  forall acc, exists names,
    forM (fun acc item => '(n, _) <- nameAndVersion item ;; Ok (acc ++ [n]))
         processed acc = Ok names.
Proof.
  induction 1 as [| name rest (b & v & Hn) _ IH]; intros acc.
  - exists acc. reflexivity.
  - rewrite forM_cons. rewrite Hn. cbn [bind]. apply IH.
Qed.

Section AutoRemovalFacts.

Context {W : Type} {collab : Oracles W}.

Lemma well_named_install (st st' : state W) :
  install_extends st st' ->
  well_named (info st) -> well_named (info st').
Proof.
  intros (_ & _ & _ & _ & _ & (added & Ha & Hf) & _) Hw.
  unfold well_named. rewrite Ha. apply Forall_app. split; [exact Hw |].
  eapply Forall_impl; [| exact Hf]. intros name (_ & b & v & Hn & _).
  exists b, v. exact Hn.
Qed.

Lemma well_named_removal (st st' : state W) :
  removal_extends st st' ->
  well_named (info st) -> well_named (info st').
Proof. intros (Hp & _) Hw. unfold well_named. rewrite Hp. exact Hw. Qed.

Lemma well_named_managed_update (G : globals) (fuel : nat)
  (manifestitem : string) (cataloglist : list string) (st st' : state W) :
  processManagedUpdate G fuel manifestitem cataloglist st = Ok st' ->
  well_named (info st) -> well_named (info st').
Proof.
  intros H Hw.
  apply processManagedUpdate_changes in H. destruct H as [-> | Hext];
    [exact Hw |].
  eapply well_named_install; [exact Hext |]. exact Hw.
Qed.

Lemma well_named_items (G : globals) (fuel : nat) (key : manifest_key)
  (items : list string) (cataloglist : list string) :
  forall st st' : state W,
    processManifestItems G fuel key items cataloglist st = Ok st' ->
    well_named (info st) -> well_named (info st').
Proof.
  induction items as [| item rest IH]; intros st st' H Hw.
  - simpl in H. apply Ok_inj in H. subst. exact Hw.
  - cbn [processManifestItems] in H.
    destruct (stopRequested (world st)).
    { apply Ok_inj in H. subst. exact Hw. }
    inv_bind H. apply IH in H; [exact H |].
    destruct key.
    + inv_bind E. destruct x0 as [b s1]. apply Ok_inj in E. subst s1.
      apply processInstall_extends in E0.
      eapply well_named_install; eassumption.
    + eapply well_named_managed_update; eassumption.
    + inv_bind E. destruct x0 as [b s1]. apply Ok_inj in E. subst s1.
      apply processRemoval_extends in E0.
      eapply well_named_removal; eassumption.
Qed.

Lemma well_named_run (fuel : nat) (requests : list request) :
  forall st st' : state W,
    run fuel requests st = Ok st' ->
    well_named (info st) -> well_named (info st').
Proof.
  induction requests as [| r rest IH]; intros st st' H Hw.
  - simpl in H. apply Ok_inj in H. subst. exact Hw.
  - simpl in H. inv_bind H. apply IH in H; [exact H |].
    eapply well_named_items; eassumption.
Qed.

(** X13.  The names offered for automatic removal come from the
    [autoremoveitems] of the listed catalogs, and none of them is the
    base name of a processed install or a name already processed for
    removal. *)
Theorem getAutoRemovalItems_filters_processed (G : globals)
  (installinfo : installinfo) (cataloglist : option (list string))
  (autoremovalitems : list pval) (item : pval) :
  getAutoRemovalItems G installinfo cataloglist = Ok autoremovalitems ->
  In item autoremovalitems ->
  (exists l catalogname db,
      cataloglist = Some l /\ In catalogname l /\
      aget catalogname (CATALOG G) = Some db /\
      In item (autoremoveitems db)) /\
  (forall name b v,
      In name (processed_installs installinfo) ->
      nameAndVersion name = Ok (b, v) -> item <> PStr b) /\
  (forall name,
      In name (processed_uninstalls installinfo) -> item <> PStr name).
Proof.
  unfold getAutoRemovalItems. intros H Hin. inv_bind H.
  apply Ok_inj in H. subst autoremovalitems.
  apply filter_In in Hin. destruct Hin as [Hin Hf].
  apply andb_true_iff in Hf. destruct Hf as [Hf1 Hf2].
  apply negb_true_iff in Hf1, Hf2.
  split; [| split].
  - apply in_flat_map in Hin. destruct Hin as (c & Hc & Hitem).
    destruct cataloglist as [l |]; [| destruct Hc].
    destruct (aget c (CATALOG G)) as [db |] eqn:Edb; [| destruct Hitem].
    exists l, c, db. auto.
  - intros name b v Hname Hn ->.
    rewrite <- not_true_iff_false in Hf1. apply Hf1.
    apply existsb_exists. exists (PStr b).
    split; [| apply pval_eqb_PStr_refl].
    apply in_map. eapply install_basenames_In; eassumption.
  - intros name Hname ->.
    rewrite <- not_true_iff_false in Hf2. apply Hf2.
    apply existsb_exists. exists (PStr name).
    split; [apply in_map; exact Hname | apply pval_eqb_PStr_refl].
Qed.

(** X14.  After any run of install, update and removal requests,
    [getAutoRemovalItems] returns a list: no name that the resolvers
    put in [processed_installs] makes [nameAndVersion] raise. *)
Theorem getAutoRemovalItems_returns_after_run (G : globals) (fuel : nat)
  (requests : list request) (st st' : state W)
  (cataloglist : option (list string)) :
  well_named (info st) ->
  run fuel requests st = Ok st' ->
  exists autoremovalitems,
    getAutoRemovalItems G (info st') cataloglist = Ok autoremovalitems.
Proof.
  intros Hw H. apply well_named_run in H; [| exact Hw].
  unfold getAutoRemovalItems, install_basenames.
  destruct (install_basenames_total H []) as (names & Hnames).
  rewrite Hnames. cbn [bind]. eexists. reflexivity.
Qed.

End AutoRemovalFacts.

(* ================================================================= *)
(** ** processOptionalInstall and enoughDiskSpace *)

Section OptionalFacts.

Context {W : Type} {collab : Oracles W} {host : HostOracles W}.
Variable G : globals.

(** A name is never equal to a record. *)
Lemma name_not_in_records (n : string) (l : list dict) :
  existsb (pval_eqb (PStr n)) (map PDict l) = false.
Proof. induction l as [| r l IH]; [reflexivity | exact IH]. Qed.

(** The ways in which [processOptionalInstall] returns. *)
Lemma processOptionalInstall_cases (manifestitem : string)
  (cataloglist : list string) (st st' : state W) :
  processOptionalInstall G manifestitem cataloglist st = Ok st' ->
  st' = st \/
  exists item_pl iteminfo,
    ~ In (PyStr.basename manifestitem) (processed_installs (info st)) /\
    ~ In (PyStr.basename manifestitem) (processed_uninstalls (info st)) /\
    already_optional (PyStr.basename manifestitem)
      (optional_installs (info st)) = Ok false /\
    getItemDetail G manifestitem cataloglist "" = Ok (Some item_pl) /\
    optional_iteminfo (world st) (PyStr.basename manifestitem) item_pl
      (managed_installs (info st)) = Ok iteminfo /\
    st' = with_info
            (fun i => set_optional_installs
                        (optional_installs i ++ [iteminfo]) i) st.
Proof.
  unfold processOptionalInstall. intros H.
  rewrite name_not_in_records in H.
  destruct (str_in _ (processed_installs (info st))) eqn:E1.
  { apply Ok_inj in H. left. congruence. }
  destruct (str_in _ (processed_uninstalls (info st))) eqn:E2.
  { apply Ok_inj in H. left. congruence. }
  inv_bind H. destruct x.
  { apply Ok_inj in H. left. congruence. }
  inv_bind H. destruct x as [item |]; cbn [found_item] in H.
  2: { apply Ok_inj in H. left. congruence. }
  destruct (truthy (PDict item)).
  2: { apply Ok_inj in H. left. congruence. }
  inv_bind H. apply Ok_inj in H. subst st'. right. exists item, x.
  apply str_in_false in E1, E2. repeat split; assumption || reflexivity.
Qed.

(** The sizes of a record made by [optional_iteminfo]. *)
Lemma optional_iteminfo_sizes (w : W) (manifestitemname : string)
  (item_pl : dict) (installlist : list dict) (iteminfo : dict) :
  optional_iteminfo w manifestitemname item_pl installlist = Ok iteminfo ->
  aget "installed_size" iteminfo = aget "installer_item_size" iteminfo /\
  (aget "installed_size" iteminfo = None \/
   aget "installed_size" iteminfo
   = Some (get_default "installer_item_size" (PInt 0) item_pl)) /\
  aget "name" iteminfo
  = Some (get_default "name" (PStr manifestitemname) item_pl).
Proof.
  unfold optional_iteminfo. intros H. inv_bind H. inv_bind H.
  assert (Hx0 : aget "installed_size" x0 = None /\
                aget "installer_item_size" x0 = None /\
                aget "name" x0
                = Some (get_default "name" (PStr manifestitemname) item_pl)).
  { destruct x.
    - inv_bind E0. apply Ok_inj in E0. subst x0.
      rewrite !aget_aset. cbn. auto.
    - apply Ok_inj in E0. subst x0. rewrite !aget_aset. cbn. auto. }
  destruct Hx0 as (Ha & Hb & Hc).
  match type of H with
  | (if ?c then _ else _) = _ => destruct c
  end.
  - inv_bind H. apply Ok_inj in H.
    assert (Hsz : get_default "installer_item_size"
                    (dget "installer_item_size"
                       (aset "installer_item_size"
                          (get_default "installer_item_size" (PInt 0)
                             item_pl)
                          (aset "uninstallable"
                             (get_default "uninstallable" (PBool false)
                                item_pl) x0)))
                    item_pl
                  = get_default "installer_item_size" (PInt 0) item_pl).
    { unfold get_default, dget. rewrite aget_aset. cbn.
      destruct (aget "installer_item_size" item_pl); reflexivity. }
    rewrite Hsz in H.
    destruct x1; subst iteminfo; rewrite !aget_aset; cbn; auto.
  - apply Ok_inj in H. subst iteminfo. rewrite !aget_aset. cbn.
    rewrite Ha, Hb. auto.
Qed.

(** X15.  An optional install is only listed: the call appends at most one
    record to [optional_installs] and changes nothing else -- no name is
    marked as processed, nothing is scheduled, nothing is downloaded. *)
Theorem processOptionalInstall_only_lists (manifestitem : string)
  (cataloglist : list string) (st st' : state W) :
  processOptionalInstall G manifestitem cataloglist st = Ok st' ->
  world st' = world st /\ PKGDATA st' = PKGDATA st /\
  processed_installs (info st') = processed_installs (info st) /\
  processed_uninstalls (info st') = processed_uninstalls (info st) /\
  managed_updates (info st') = managed_updates (info st) /\
  managed_installs (info st') = managed_installs (info st) /\
  removals (info st') = removals (info st) /\
  (optional_installs (info st') = optional_installs (info st) \/
   exists iteminfo,
     optional_installs (info st')
     = optional_installs (info st) ++ [iteminfo]).
Proof.
  intros H. apply processOptionalInstall_cases in H.
  destruct H as [-> | (item_pl & iteminfo & _ & _ & _ & _ & _ & ->)].
  - repeat split; auto.
  - cbn. repeat split; auto. right. exists iteminfo. reflexivity.
Qed.

(** X16.  The record of an optional install never carries the
    [installed_size] of the pkginfo: when sizes are recorded,
    [installed_size] is the [installer_item_size]. *)
Theorem processOptionalInstall_installed_size (manifestitem : string)
  (cataloglist : list string) (st st' : state W) (iteminfo : dict) :
  processOptionalInstall G manifestitem cataloglist st = Ok st' ->
  optional_installs (info st')
  = optional_installs (info st) ++ [iteminfo] ->
  aget "installed_size" iteminfo = aget "installer_item_size" iteminfo.
Proof.
  intros H Happ. apply processOptionalInstall_cases in H.
  destruct H as [-> | (item_pl & record & _ & _ & _ & _ & Hrec & ->)].
  - exfalso. apply (f_equal (@List.length dict)) in Happ.
    rewrite length_app in Happ. simpl in Happ. lia.
  - unfold with_info in Happ.
    cbn [info optional_installs set_optional_installs] in Happ.
    apply app_inv_head in Happ. injection Happ as Happ. subst record.
    apply optional_iteminfo_sizes in Hrec. apply Hrec.
Qed.

Lemma already_optional_app (n : string) (l : list dict) (r : dict) :
  already_optional n l = Ok false ->
  aget "name" r = Some (PStr n) ->
  already_optional n (l ++ [r]) = Ok true.
Proof.
  intros H Hr. induction l as [| x l IH]; cbn [app already_optional] in *.
  - unfold getitem. rewrite Hr. cbn. rewrite String.eqb_refl. reflexivity.
  - inv_bind H. rewrite E. cbn [bind].
    destruct (pval_eqb (PStr n) x0); [discriminate |]. apply IH. exact H.
Qed.

Hypothesis catalogs_built :
  forall catalogname db,
    aget catalogname (CATALOG G) = Some db -> built_by_makeCatalogDB db.

(** X17.  Over catalogs that [makeCatalogDB] built, an optional install
    given by its plain name (no path, no version) is listed once: a
    second call changes nothing. *)
Theorem processOptionalInstall_twice (manifestitem : string)
  (cataloglist : list string) (st st' : state W) :
  nameAndVersion manifestitem = Ok (PyStr.basename manifestitem, "") ->
  processOptionalInstall G manifestitem cataloglist st = Ok st' ->
  processOptionalInstall G manifestitem cataloglist st' = Ok st'.
Proof.
  intros Hn H. assert (H0 := H). apply processOptionalInstall_cases in H.
  destruct H as [-> | (item_pl & record & Hpi & Hpu & Hdup & Hget & Hrec
                       & ->)]; [exact H0 |].
  clear H0. unfold processOptionalInstall.
  rewrite name_not_in_records.
  set (st1 := with_info
                (fun i => set_optional_installs
                            (optional_installs i ++ [record]) i) st).
  change (processed_installs (info st1))
    with (processed_installs (info st)).
  change (processed_uninstalls (info st1))
    with (processed_uninstalls (info st)).
  change (optional_installs (info st1))
    with (optional_installs (info st) ++ [record]).
  apply str_in_false in Hpi, Hpu. rewrite Hpi, Hpu.
  erewrite already_optional_app; [reflexivity | exact Hdup |].
  apply optional_iteminfo_sizes in Hrec. destruct Hrec as (_ & _ & Hname).
  rewrite Hname. f_equal.
  destruct (@getItemDetail_built_item W collab G catalogs_built
              _ _ _ _ _ _ Hn Hget) as (Hitem & _).
  unfold get_default. rewrite Hitem. reflexivity.
Qed.

End OptionalFacts.

(* ================================================================= *)
(** ** Cache paths *)

Lemma contains_last_part (d : ascii) (l : list string) :
  Forall (fun p => PyStr.contains (String d "") p = false) l ->
  PyStr.contains (String d "") (last l "") = false.
Proof.
  induction 1 as [| x l Hx Hl IH]; [reflexivity |].
  destruct l as [| y l]; [exact Hx | exact IH].
Qed.

Lemma basename_no_slash (p : string) :
  PyStr.contains "/" (PyStr.basename p) = false.
Proof.
  unfold PyStr.basename, PyStr.split. apply contains_last_part.
  apply split_go_char_parts. reflexivity.
Qed.

Lemma basename_app_slash (a b : string) :
  PyStr.contains "/" b = false ->
  PyStr.basename (a ++ "/" ++ b) = b.
Proof.
  intros H. unfold PyStr.basename, PyStr.split.
  change (a ++ "/" ++ b)%string with (a ++ String "/" b)%string.
  rewrite split_go_char_app. rewrite (split_go_none "/" b "" H).
  apply last_app_singleton.
Qed.

Lemma basename_plain (b : string) :
  PyStr.contains "/" b = false -> PyStr.basename b = b.
Proof.
  intros H. unfold PyStr.basename, PyStr.split.
  rewrite split_go_none by exact H. reflexivity.
Qed.

Lemma endswith_inv (suffix s : string) :
  PyPath.endswith suffix s = true -> exists a, s = (a ++ suffix)%string.
Proof.
  induction s as [| c s IH]; cbn [PyPath.endswith]; intros H.
  - rewrite orb_false_r in H. apply String.eqb_eq in H. subst.
    exists "". reflexivity.
  - apply orb_true_iff in H. destruct H as [H | H].
    + apply String.eqb_eq in H. subst. exists "". reflexivity.
    + destruct (IH H) as (a & ->). exists (String c a). reflexivity.
Qed.

(** The last component of a path joined with a name is that name. *)
Lemma basename_join (a b : string) :
  PyStr.contains "/" b = false ->
  PyStr.basename (PyPath.join a b) = b.
Proof.
  intros H. unfold PyPath.join, PyStr.startswith.
  assert (Hp : prefix "/" b = false).
  { destruct b as [| c b]; [reflexivity |].
    cbn [PyStr.contains] in H. apply orb_false_iff in H. apply H. }
  rewrite Hp.
  destruct (String.eqb a "") eqn:Ea.
  - apply String.eqb_eq in Ea. subst a. apply basename_plain. exact H.
  - cbn [orb]. destruct (PyPath.endswith "/" a) eqn:Ee.
    + apply endswith_inv in Ee. destruct Ee as (a' & ->).
      rewrite append_assoc. apply basename_app_slash. exact H.
    + apply basename_app_slash. exact H.
Qed.

Section CachePathFacts.

Context {W : Type} {collab : Oracles W}.

(** X18.  The file an installer item is cached as carries the name that
    [getInstallerItemBasename] gives (the name recorded as
    [installer_item]), whatever the cache directory. *)
Theorem getDownloadCachePath_basename (destinationpathprefix : string)
  (url : pval) (path : string) :
  getDownloadCachePath destinationpathprefix url = Ok path ->
  getInstallerItemBasename url = Ok (PyStr.basename path).
Proof.
  unfold getDownloadCachePath. intros H. inv_bind H.
  apply Ok_inj in H. subst path.
  unfold getInstallerItemBasename in *. inv_bind E.
  apply Ok_inj in E. subst x. rewrite E0. cbn [bind]. f_equal.
  symmetry. apply basename_join. apply basename_no_slash.
Qed.

End CachePathFacts.

(* ================================================================= *)
(** ** enoughDiskSpace *)

Section DiskSpaceFacts.

Context {W : Type} {collab : Oracles W} {host : HostOracles W}.

Lemma reserve_space_le (more : list dict) :
  Forall (fun item =>
            forall z,
              py_int (get_default "installed_size" (PInt 0) item) = Ok z ->
              (0 <= z)%Z) more ->
  forall a a', forM reserve_space more a = Ok a' -> (a' <= a)%Z.
Proof.
  induction 1 as [| item more Hitem _ IH]; intros a a' H.
  - apply Ok_inj in H. subst. lia.
  - rewrite forM_cons in H. inv_bind H. apply IH in H.
    unfold reserve_space in E.
    destruct (truthy (dget "installer_item" item)).
    + inv_bind E. apply Ok_inj in E. apply Hitem in E0. lia.
    + apply Ok_inj in E. lia.
Qed.

(** X19.  Scheduling more installs never makes room: if there is enough
    disk space for an item with further installs pending, there is
    enough without them. *)
Theorem enoughDiskSpace_without_pending (w : W) (manifestitem_pl : dict)
  (installlist more : list dict) (uninstalling : bool) :
  Forall (fun item =>
            forall z,
              py_int (get_default "installed_size" (PInt 0) item) = Ok z ->
              (0 <= z)%Z) more ->
  enoughDiskSpace w manifestitem_pl (installlist ++ more) uninstalling
  = Ok true ->
  enoughDiskSpace w manifestitem_pl installlist uninstalling = Ok true.
Proof.
  intros Hmore H. unfold enoughDiskSpace in *.
  inv_bind H. rewrite E. cbn [bind].
  inv_bind H. rewrite E0. cbn [bind].
  inv_bind H. rewrite E1. cbn [bind].
  inv_bind H. rewrite E2. cbn [bind]. destruct x2 as [sz1 sz2].
  inv_bind H. rewrite forM_app in E3. inv_bind E3.
  rewrite E4. cbn [bind]. apply Ok_inj in H. f_equal.
  apply (reserve_space_le Hmore) in E3.
  apply Z.gtb_lt in H. apply Z.gtb_lt. lia.
Qed.

End DiskSpaceFacts.

(* ================================================================= *)
(** ** makePredicateInfoObject *)

Section PredicateInfoFacts.

Context {W : Type} {host : HostOracles W}.

Lemma aset_nonempty {V : Type} (k : string) (v : V)
  (d : list (string * V)) : aset k v d <> [].
Proof.
  destruct d as [| [k' v'] d]; simpl; [congruence |].
  destruct (String.eqb k k'); congruence.
Qed.

Lemma update_from_nonempty (d o : dict) :
  o <> [] -> update_from d o <> [].
Proof.
  unfold update_from. revert o.
  induction d as [| [k v] d IH]; intros o H; simpl; [exact H |].
  apply IH. apply aset_nonempty.
Qed.

Lemma split_padded_os_vers (s : string) :
  PyStr.split "." (s ++ ".0.0") = PyStr.split "." s ++ ["0"; "0"].
Proof.
  unfold PyStr.split.
  change (s ++ ".0.0")%string with (s ++ String "." "0.0")%string.
  rewrite split_go_char_app. reflexivity.
Qed.

Lemma version_component_padded (s : string) (i : nat) :
  (i < 3)%nat ->
  version_component (PyStr.split "." (s ++ ".0.0")) i <> Raise IndexError.
Proof.
  intros Hi. unfold version_component. rewrite split_padded_os_vers.
  destruct (nth_error (PyStr.split "." s ++ ["0"; "0"]) i) as [p |] eqn:E.
  - destruct (int_of_string p); discriminate.
  - apply nth_error_None in E. rewrite length_app in E.
    unfold PyStr.split in E. rewrite length_split_go in E.
    simpl in E. lia.
Qed.

(** X20.  The padding with [.0.0] gives every OS version a major, a minor
    and a patch component: no OS version makes the call raise
    [IndexError]. *)
Theorem makePredicateInfoObject_never_IndexError
  (machine_facts conditions info_object : dict) :
  makePredicateInfoObject machine_facts conditions info_object
  <> Raise IndexError.
Proof.
  unfold makePredicateInfoObject.
  destruct (truthy (PDict info_object)); [discriminate |].
  unfold getitem. destruct (aget "os_vers" machine_facts) as [v |];
    [| discriminate].
  cbn [bind]. destruct v; cbn [as_str bind]; try discriminate.
  assert (H0 := @version_component_padded s 0).
  assert (H1 := @version_component_padded s 1).
  assert (H2 := @version_component_padded s 2).
  destruct (version_component (PyStr.split "." (s ++ ".0.0")) 0)
    as [major | e |]; cbn [bind];
    [| intros H; injection H as ->; apply H0; [lia | reflexivity]
     | discriminate].
  destruct (version_component (PyStr.split "." (s ++ ".0.0")) 1)
    as [minor | e |]; cbn [bind];
    [| intros H; injection H as ->; apply H1; [lia | reflexivity]
     | discriminate].
  destruct (version_component (PyStr.split "." (s ++ ".0.0")) 2)
    as [patch | e |]; cbn [bind];
    [| intros H; injection H as ->; apply H2; [lia | reflexivity]
     | discriminate].
  destruct (get_default "machine_model" (PStr "") machine_facts)
    as [| m | | | | l | d]; cbn [py_in bind]; discriminate.
Qed.

(** X21.  The info object is built once: a call that finds it filled
    leaves it as it is, whatever the machine facts and conditions are
    by then. *)
Theorem makePredicateInfoObject_built_once
  (machine_facts conditions machine_facts' conditions' info_object
   info_object' : dict) :
  makePredicateInfoObject machine_facts conditions info_object
  = Ok info_object' ->
  makePredicateInfoObject machine_facts' conditions' info_object'
  = Ok info_object'.
Proof.
  intros H.
  assert (Ht : truthy (PDict info_object') = true).
  { unfold makePredicateInfoObject in H.
    destruct (truthy (PDict info_object)) eqn:E.
    - apply Ok_inj in H. subst. exact E.
    - inv_bind H. inv_bind H. inv_bind H. inv_bind H. inv_bind H.
      apply Ok_inj in H. subst info_object'.
      match goal with
      | |- truthy (PDict ?d) = true =>
          assert (Hne : d <> [])
            by (apply update_from_nonempty; apply aset_nonempty);
          destruct d; [congruence | reflexivity]
      end. }
  unfold makePredicateInfoObject. rewrite Ht. reflexivity.
Qed.

End PredicateInfoFacts.

(* ================================================================= *)
(** ** getCatalogs *)

Section CatalogFacts.

Context {W : Type} {collab : Oracles W} {host : HostOracles W}.

Lemma getCatalogs_step_keeps (catalog catalog' : list (string * pkgdb))
  (w w' : W) (catalogname : string) :
  getCatalogs_step (catalog, w) catalogname = Ok (catalog', w') ->
  (forall c db, aget c catalog = Some db -> aget c catalog' = Some db) /\
  (forall c db, aget c catalog' = Some db ->
                aget c catalog = Some db \/
                (c = catalogname /\ aget c catalog = None /\
                 built_by_makeCatalogDB db)).
Proof.
  unfold getCatalogs_step. intros H.
  destruct (ahas catalogname catalog) eqn:Eh.
  { apply Ok_inj in H. injection H as <- _. auto. }
  destruct (fetch_catalog w catalogname) as [retrieved w1].
  destruct retrieved.
  2: { apply Ok_inj in H. injection H as <- _. auto. }
  destruct (read_catalog w1 catalogname) as [catalogdata |].
  2: { apply Ok_inj in H. injection H as <- _. auto. }
  inv_bind H. apply Ok_inj in H. injection H as <- _.
  unfold ahas in Eh.
  destruct (aget catalogname catalog) eqn:Ea; [discriminate |].
  split.
  - intros c db Hc. rewrite aget_aset.
    destruct (String.eqb c catalogname) eqn:Ec; [| exact Hc].
    apply String.eqb_eq in Ec. subst c. congruence.
  - intros c db Hc. rewrite aget_aset in Hc.
    destruct (String.eqb c catalogname) eqn:Ec; [| left; exact Hc].
    apply String.eqb_eq in Ec. subst c. apply Some_inj in Hc. subst x.
    right. split; [reflexivity |]. split; [exact Ea |].
    exists catalogdata. unfold makeCatalogDB in *.
    destruct (forM index_item (enumerate catalogdata) ([], []))
      as [[nt pt] | |]; cbn [snd] in E; try discriminate.
    apply Ok_inj in E. subst db. reflexivity.
Qed.

Lemma getCatalogs_loop_keeps (cataloglist : list string) :
  forall (catalog catalog' : list (string * pkgdb)) (w w' : W),
    forM getCatalogs_step cataloglist (catalog, w) = Ok (catalog', w') ->
    (forall c db, aget c catalog = Some db -> aget c catalog' = Some db) /\
    (forall c db, aget c catalog' = Some db ->
                  aget c catalog = Some db \/
                  (In c cataloglist /\ aget c catalog = None /\
                   built_by_makeCatalogDB db)).
Proof.
  induction cataloglist as [| catalogname rest IH];
    intros catalog catalog' w w' H.
  - apply Ok_inj in H. injection H as <- _. auto.
  - rewrite forM_cons in H. inv_bind H. destruct x as [c1 w1].
    apply getCatalogs_step_keeps in E. destruct E as (Hk1 & Hn1).
    apply IH in H. destruct H as (Hk & Hn). split.
    + intros c db Hc. apply Hk. apply Hk1. exact Hc.
    + intros c db Hc. destruct (Hn c db Hc) as [H1 | (Hin & Hnone & Hb)].
      * destruct (Hn1 c db H1) as [H0 | (-> & H0 & Hb)]; [left; exact H0 |].
        right. split; [left; reflexivity | auto].
      * right. split; [right; exact Hin |]. split; [| exact Hb].
        destruct (aget c catalog) eqn:Ec; [| reflexivity].
        apply Hk1 in Ec. congruence.
Qed.

(** X22.  [getCatalogs] never replaces or drops a catalog that is loaded
    already, and every catalog it adds is one of the list, stored as
    the database that [makeCatalogDB] builds. *)
Theorem getCatalogs_keeps_loaded_catalogs (cataloglist : list string)
  (catalog catalog' : list (string * pkgdb)) (w w' : W) :
  getCatalogs cataloglist catalog w = Ok (catalog', w') ->
  (forall c db, aget c catalog = Some db -> aget c catalog' = Some db) /\
  (forall c db, aget c catalog' = Some db ->
                aget c catalog = Some db \/
                (In c cataloglist /\ aget c catalog = None /\
                 built_by_makeCatalogDB db)).
Proof.
  unfold getCatalogs. destruct (catalogbaseurl w); [| discriminate].
  apply getCatalogs_loop_keeps.
Qed.

End CatalogFacts.

(* ================================================================= *)
(** ** installedState against someVersionInstalled *)

Section DetectionFacts.

Context {W : Type} {collab : Oracles W}.
Variable G : globals.

Lemma installed_loop_some_version (compare : pval -> cmp_result)
  (l : list pval) (foundnewer : bool) :
  installed_loop compare l foundnewer <> 0%Z ->
  some_version_loop compare l = true /\
  (installed_loop compare l foundnewer = 1%Z \/
   installed_loop compare l foundnewer = 2%Z).
Proof.
  revert foundnewer. induction l as [| item rest IH]; intros foundnewer H.
  - split; [reflexivity |]. simpl. destruct foundnewer; auto.
  - cbn [installed_loop some_version_loop] in *.
    destruct (compare item) as [c |]; [| congruence].
    destruct (Z.eqb c (-1) || Z.eqb c 0) eqn:E; [congruence |].
    apply orb_false_iff in E. destruct E as [_ E]. rewrite E.
    apply IH. exact H.
Qed.

(** X23.  The two detection functions agree: an item that [installedState]
    reports as installed (1) or as newer (2) by its [installs] or
    [receipts] is one of which [someVersionInstalled] says that some
    version is installed. *)
Theorem installedState_implies_someVersionInstalled (w : W)
  (item_pl : dict) (state : Z) :
  truthy (dget "softwareupdatename" item_pl) = false ->
  installedState w item_pl = Ok state ->
  state <> 0%Z ->
  someVersionInstalled w item_pl = Ok true /\ (state = 1%Z \/ state = 2%Z).
Proof.
  unfold installedState, someVersionInstalled. intros Hs H Hne.
  rewrite Hs in H.
  destruct (truthy (dget "installs" item_pl)).
  - inv_bind H. rewrite E. cbn [bind]. apply Ok_inj in H. subst state.
    apply installed_loop_some_version in Hne. destruct Hne as [-> Hv].
    auto.
  - destruct (ahas "receipts" item_pl).
    + inv_bind H. rewrite E. cbn [bind]. apply Ok_inj in H. subst state.
      apply installed_loop_some_version in Hne. destruct Hne as [-> Hv].
      auto.
    + apply Ok_inj in H. subst state. auto.
Qed.

End DetectionFacts.

(* ================================================================= *)
(** ** What checkForceInstallPackages changes *)

Section ForceInstallFrame.

Variable local_offset : Z -> utc_offset.

Lemma aset_aset {V : Type} (k : string) (v : V) (d : list (string * V)) :
  aset k v (aset k v d) = aset k v d.
Proof.
  induction d as [| [k' v'] d IH]; simpl.
  - rewrite String.eqb_refl. reflexivity.
  - destruct (String.eqb k k') eqn:E; simpl.
    + rewrite String.eqb_refl. reflexivity.
    + rewrite E. rewrite IH. reflexivity.
Qed.

Lemma marked_unattended_trans (a b c : pval) :
  marked_unattended a b -> marked_unattended b c -> marked_unattended a c.
Proof.
  intros [-> | (d & -> & -> & Hr)] H; [exact H |].
  destruct H as [-> | (d' & Hd' & -> & Hr')].
  - right. exists d. auto.
  - injection Hd' as <-. right. exists d. rewrite aset_aset. auto.
Qed.

(** One iteration changes the record at its index at most, and only by
    setting [unattended_install]. *)
Lemma force_install_step_frame (now_date now_xhours : Z)
  (result : option urgency) (installs : list pval) (writeback : bool)
  (i : nat) (result' : option urgency) (installs' : list pval)
  (writeback' : bool) :
  force_install_step local_offset now_date now_xhours
    (result, installs, writeback) i = Ok (result', installs', writeback') ->
  (installs' = installs /\ writeback' = writeback) \/
  (exists d,
      nth_error installs i = Some (PDict d) /\
      truthy (dget "RestartAction" d) = false /\
      installs'
      = list_set i (PDict (aset "unattended_install" (PBool true) d))
                 installs /\
      writeback' = true).
Proof.
  unfold force_install_step.
  destruct (nth_error installs i) as [install |] eqn:En; [| discriminate].
  destruct install as [| | | | | | d]; try discriminate.
  intros H.
  destruct (truthy (dget "force_install_after_date" d)).
  2: { apply Ok_inj in H. injection H as _ <- <-. left. auto. }
  inv_bind H. inv_bind H. inv_bind H. destruct x1 as [[r1 l1] w1].
  assert (Hlast : installs' = l1 /\ writeback' = w1).
  { destruct (now_xhours >=? x)%Z.
    - destruct r1; apply Ok_inj in H; injection H as _ <- <-; auto.
    - apply Ok_inj in H. injection H as _ <- <-. auto. }
  destruct Hlast as [-> ->]. clear H.
  destruct (now_date >=? x)%Z.
  2: { apply Ok_inj in E1. injection E1 as _ <- <-. left. auto. }
  destruct (truthy (dget "RestartAction" d)) eqn:Er.
  - destruct (pval_eqb (dget "RestartAction" d) (PStr "RequireLogout")).
    { apply Ok_inj in E1. injection E1 as _ <- <-. left. auto. }
    destruct (pval_eqb (dget "RestartAction" d) (PStr "RequireRestart"));
      apply Ok_inj in E1; injection E1 as _ <- <-; left; auto.
  - destruct (negb (truthy (get_default "unattended_install"
                              (PBool false) d))).
    + apply Ok_inj in E1. injection E1 as _ <- <-.
      right. exists d. auto.
    + apply Ok_inj in E1. injection E1 as _ <- <-. left. auto.
Qed.

(** X24.  The force-install check never adds, drops or reorders a record,
    and the only change it makes to a record is to set
    [unattended_install] on one that has no [RestartAction]; when it
    reports nothing to write back, the list is as it was read. *)
Theorem checkForceInstallPackages_only_sets_unattended
  (now_date : Z) (installinfo : dict) (installs : list pval)
  (result : option urgency) (installs' : list pval) (writeback : bool) :
  get_default "managed_installs" (PList []) installinfo = PList installs ->
  checkForceInstallPackages local_offset now_date (Some installinfo)
    = Ok (result, installs', writeback) ->
  List.length installs' = List.length installs /\
  (forall j install,
      nth_error installs j = Some install ->
      exists install',
        nth_error installs' j = Some install' /\
        marked_unattended install install') /\
  (writeback = false -> installs' = installs).
Proof.
  intros Hl H. unfold checkForceInstallPackages in H. rewrite Hl in H.
  cbn [bind] in H.
  eapply forM_invariant
    with (P := fun acc : option urgency * list pval * bool =>
                 List.length (snd (fst acc)) = List.length installs /\
                 (forall j install,
                     nth_error installs j = Some install ->
                     exists install',
                       nth_error (snd (fst acc)) j = Some install' /\
                       marked_unattended install install') /\
                 (snd acc = false -> snd (fst acc) = installs))
    in H.
  - exact H.
  - intros [[r l] wb] i [[r' l'] wb'] _ (Hlen & Hrec & Hwb) Hstep.
    cbn [fst snd] in *.
    apply force_install_step_frame in Hstep.
    destruct Hstep as [(-> & ->) | (d & Hn & Hr & -> & ->)].
    + auto.
    + split; [rewrite length_list_set; exact Hlen |].
      split; [| discriminate].
      intros j install Hj. destruct (Hrec j install Hj) as (x & Hx & Hm).
      rewrite nth_error_list_set. destruct (Nat.eqb i j) eqn:Eij.
      * apply Nat.eqb_eq in Eij. subst j. rewrite Hx.
        eexists. split; [reflexivity |].
        eapply marked_unattended_trans; [exact Hm |].
        right. exists d. rewrite Hn in Hx. injection Hx as <-. auto.
      * exists x. auto.
  - cbn [fst snd]. split; [reflexivity |]. split; [| reflexivity].
    intros j install Hj. exists install. split; [exact Hj |].
    left. reflexivity.
Qed.

End ForceInstallFrame.

(* ================================================================= *)
(** ** analyzeInstalledPkgs on receipts without package ids *)

Lemma In_akeys_aset {V : Type} (k : string) (v : V) (d : list (string * V))
  (x : string) :
  In x (akeys (aset k v d)) -> x = k \/ In x (akeys d).
Proof.
  induction d as [| [k' v'] d IH]; simpl.
  - intros [<- | []]. left. reflexivity.
  - destruct (String.eqb k k') eqn:E; simpl.
    + apply String.eqb_eq in E. subst k'. intros [<- | H]; auto.
    + intros [<- | H]; [auto |]. destruct (IH H); auto.
Qed.

Lemma NoDup_akeys_aset {V : Type} (k : string) (v : V)
  (d : list (string * V)) :
  NoDup (akeys d) -> NoDup (akeys (aset k v d)).
Proof.
  induction d as [| [k' v'] d IH]; simpl; intros H.
  - constructor; [intros [] | constructor].
  - inversion H as [| ? ? Hnot Hd]; subst.
    destruct (String.eqb k k') eqn:E; simpl.
    + apply String.eqb_eq in E. subst k'. constructor; assumption.
    + constructor; [| apply IH; exact Hd].
      intros Hin. apply In_akeys_aset in Hin. destruct Hin as [-> | Hin].
      * rewrite String.eqb_refl in E. discriminate.
      * contradiction.
Qed.

Lemma NoDup_akeys_aget {V : Type} (k : string) (v : V)
  (d : list (string * V)) :
  NoDup (akeys d) -> In (k, v) d -> aget k d = Some v.
Proof.
  induction d as [| [k' v'] d IH]; simpl; intros Hn Hin; [contradiction |].
  inversion Hn as [| ? ? Hnot Hd]; subst.
  destruct Hin as [Heq | Hin].
  - injection Heq as -> ->. rewrite String.eqb_refl. reflexivity.
  - destruct (String.eqb k k') eqn:E.
    + apply String.eqb_eq in E. subst k'. exfalso. apply Hnot.
      change k with (fst (k, v)). apply in_map. exact Hin.
    + apply IH; assumption.
Qed.

Lemma aget_In {V : Type} (k : string) (v : V) (d : list (string * V)) :
  aget k d = Some v -> In (k, v) d.
Proof.
  induction d as [| [k' v'] d IH]; simpl; intros H; [discriminate |].
  destruct (String.eqb k k') eqn:E.
  - apply String.eqb_eq in E. subst k'. left. congruence.
  - right. apply IH. exact H.
Qed.

(** A loop whose iterations return or raise [KeyError] does the same. *)
Lemma forM_ok_or_KeyError {A S : Type} (body : S -> A -> res S)
  (xs : list A) :
  (forall s x, (exists s', body s x = Ok s') \/
               (exists k, body s x = Raise (KeyError k))) ->
  forall s, (exists s', forM body xs s = Ok s') \/
            (exists k, forM body xs s = Raise (KeyError k)).
Proof.
  intros Hbody. induction xs as [| x xs IH]; intros s.
  - left. exists s. reflexivity.
  - rewrite forM_cons. destruct (Hbody s x) as [(s' & ->) | (k & ->)].
    + cbn [bind]. apply IH.
    + right. exists k. reflexivity.
Qed.

(** ... and it raises when one of its iterations is bound to. *)
Lemma forM_must_raise {A S : Type} (body : S -> A -> res S) (xs : list A)
  (bad : A) :
  (forall s x, (exists s', body s x = Ok s') \/
               (exists k, body s x = Raise (KeyError k))) ->
  (forall s, exists k, body s bad = Raise (KeyError k)) ->
  In bad xs ->
  forall s, exists k, forM body xs s = Raise (KeyError k).
Proof.
  intros Hbody Hbad. induction xs as [| x xs IH]; intros Hin s;
    [contradiction |].
  rewrite forM_cons. destruct Hin as [-> | Hin].
  - destruct (Hbad s) as (k & ->). exists k. reflexivity.
  - destruct (Hbody s x) as [(s' & ->) | (k & ->)].
    + cbn [bind]. apply IH. exact Hin.
    + exists k. reflexivity.
Qed.

Section ReceiptTableFacts.

Context {W : Type} {collab : Oracles W}.
Variable G : globals.

Lemma lookup_outcome (k : string) (d : list (string * list string)) :
  (exists l, lookup k d = Ok l) \/ (exists k', lookup k d = Raise (KeyError k')).
Proof.
  unfold lookup. destruct (aget k d) as [l |].
  - left. exists l. reflexivity.
  - right. exists k. reflexivity.
Qed.

Lemma addPackageids_item_keys (tbl tbl' : list (string * list string))
  (item : dict) :
  addPackageids_item tbl item = Ok tbl' ->
  NoDup (akeys tbl) -> NoDup (akeys tbl').
Proof.
  unfold addPackageids_item. intros H Hn.
  destruct (negb (truthy (dget "name" item))).
  { apply Ok_inj in H. subst. exact Hn. }
  destruct (truthy (dget "receipts" item)).
  2: { apply Ok_inj in H. subst. exact Hn. }
  inv_bind H. inv_bind H. inv_bind H. apply Ok_inj in H. subst tbl'.
  apply NoDup_akeys_aset. exact Hn.
Qed.

(** The table of managed package ids has one entry per name. *)
Lemma managed_pkgids_keys (catalog : list (string * pkgdb))
  (managed_pkgids : list (string * list string)) :
  forM (fun tbl (entry : string * pkgdb) =>
          addPackageids (items (snd entry)) tbl)
       catalog [] = Ok managed_pkgids ->
  NoDup (akeys managed_pkgids).
Proof.
  intros H.
  eapply forM_invariant
    with (P := fun tbl : list (string * list string) => NoDup (akeys tbl))
    in H; [exact H | | constructor].
  intros s entry s' _ Hs Hbody. cbv beta in Hbody.
  unfold addPackageids in Hbody.
  eapply forM_invariant
    with (P := fun tbl : list (string * list string) => NoDup (akeys tbl))
    in Hbody; [exact Hbody | | exact Hs].
  intros t item t' _ Ht Hitem. eapply addPackageids_item_keys; eassumption.
Qed.

(** A name without any package id is classified as installed and gets
    no entry in the table of matched packages. *)
Lemma classify_empty_name (installedpkgs : list string) (n : string)
  (l : list (string * list string)) :
  forall installed partiallyinstalled matched,
    (forall pkgs, In (n, pkgs) l -> pkgs = []) ->
    aget n matched = None ->
    In n installed \/ In (n, []) l ->
    exists installed' partiallyinstalled' matched',
      fold_left (classify_name installedpkgs) l
                (installed, partiallyinstalled, matched)
      = (installed', partiallyinstalled', matched') /\
      In n installed' /\ aget n matched' = None.
Proof.
  induction l as [| [name pkgs] l IH];
    intros installed partiallyinstalled matched Hpk Hm Hin.
  - destruct Hin as [Hin | []].
    exists installed, partiallyinstalled, matched. auto.
  - cbn [fold_left].
    assert (Hpk' : forall pkgs0, In (n, pkgs0) l -> pkgs0 = [])
      by (intros p Hp; apply Hpk; right; exact Hp).
    destruct (String.eqb name n) eqn:En.
    + apply String.eqb_eq in En. subst name.
      assert (pkgs = []) by (apply Hpk; left; reflexivity). subst pkgs.
      cbn [classify_name filter forallb].
      apply IH; [exact Hpk' | exact Hm |].
      left. apply in_or_app. right. left. reflexivity.
    + assert (Hne : n <> name)
        by (intros ->; rewrite String.eqb_refl in En; discriminate).
      assert (Hin' : In n installed \/ In (n, []) l).
      { destruct Hin as [Hin | [Heq | Hin]]; auto.
        injection Heq as ->. contradiction. }
      unfold classify_name.
      set (found := filter (fun pkg => str_in pkg installedpkgs) pkgs).
      set (matched1 := match found with
                       | [] => matched
                       | _ => aset name found matched
                       end).
      assert (Hm1 : aget n matched1 = None).
      { unfold matched1. destruct found; [exact Hm |].
        rewrite aget_aset_other by exact Hne. exact Hm. }
      destruct (forallb (fun pkg => str_in pkg installedpkgs) pkgs).
      * apply IH; [exact Hpk' | exact Hm1 |].
        destruct Hin' as [Hin' | Hin']; [left | right; exact Hin'].
        apply in_or_app. left. exact Hin'.
      * destruct (existsb (fun pkg => str_in pkg installedpkgs) pkgs);
          apply IH; assumption.
Qed.

Lemma promote_name_outcome (partiallyinstalled : list string)
  (matched : list (string * list string)) (installed : list string)
  (name : string) :
  (exists installed',
      promote_name partiallyinstalled matched installed name
      = Ok installed' /\
      forall x, In x installed -> In x installed') \/
  (exists k,
      promote_name partiallyinstalled matched installed name
      = Raise (KeyError k)).
Proof.
  unfold promote_name.
  destruct (lookup_outcome name matched) as [(l & ->) | (k & ->)];
    [| right; exists k; reflexivity].
  cbn [bind].
  destruct (forM_ok_or_KeyError
              (fun acc othername =>
                 l <- lookup othername matched ;; Ok (acc ++ l))
              installed) with (s := @nil string) as [(a & ->) | (k & ->)];
    [| | right; exists k; reflexivity].
  { intros s x. destruct (lookup_outcome x matched) as [(l0 & ->) | (k & ->)].
    - left. eexists. reflexivity.
    - right. exists k. reflexivity. }
  cbn [bind].
  destruct (forM_ok_or_KeyError
              (fun acc othername =>
                 if String.eqb othername name then Ok acc
                 else l <- lookup othername matched ;; Ok (acc ++ l))
              partiallyinstalled) with (s := a) as [(a' & ->) | (k & ->)];
    [| | right; exists k; reflexivity].
  { intros s x. destruct (String.eqb x name).
    - left. eexists. reflexivity.
    - destruct (lookup_outcome x matched) as [(l0 & ->) | (k & ->)].
      + left. eexists. reflexivity.
      + right. exists k. reflexivity. }
  cbn [bind]. left.
  destruct (filter (fun pkg => negb (str_in pkg a')) l).
  - exists installed. auto.
  - exists (installed ++ [name]). split; [reflexivity |].
    intros x Hx. apply in_or_app. left. exact Hx.
Qed.

Lemma promote_loop_outcome (partiallyinstalled : list string)
  (matched : list (string * list string)) (names : list string) :
  forall installed,
    (exists installed',
        forM (promote_name partiallyinstalled matched) names installed
        = Ok installed' /\
        forall x, In x installed -> In x installed') \/
    (exists k,
        forM (promote_name partiallyinstalled matched) names installed
        = Raise (KeyError k)).
Proof.
  induction names as [| name names IH]; intros installed.
  - left. exists installed. auto.
  - rewrite forM_cons.
    destruct (promote_name_outcome partiallyinstalled matched installed name)
      as [(i1 & -> & H1) | (k & ->)]; [| right; exists k; reflexivity].
    cbn [bind].
    destruct (IH i1) as [(i2 & -> & H2) | (k & ->)];
      [| right; exists k; reflexivity].
    left. exists i2. auto.
Qed.

(** X25.  A catalog item with receipts of which none names a package id
    breaks the analysis of the installed packages: its name counts as
    installed but has no entry among the matched packages, and
    [analyzeInstalledPkgs] raises [KeyError]. *)
Theorem analyzeInstalledPkgs_receipts_without_packageid (w : W)
  (managed_pkgids : list (string * list string)) (name : string) :
  forM (fun tbl (entry : string * pkgdb) =>
          addPackageids (items (snd entry)) tbl)
       (CATALOG G) [] = Ok managed_pkgids ->
  aget name managed_pkgids = Some [] ->
  exists k, analyzeInstalledPkgs G w = Raise (KeyError k).
Proof.
  intros Htbl Hname. unfold analyzeInstalledPkgs. rewrite Htbl.
  cbn [bind].
  assert (Hkeys := managed_pkgids_keys _ Htbl).
  destruct (classify_empty_name (installed_pkgids w) name managed_pkgids
              [] [] [])
    as (i0 & p0 & m0 & -> & Hi & Hm).
  { intros pkgs Hin. apply NoDup_akeys_aget in Hin; [| exact Hkeys].
    congruence. }
  { reflexivity. }
  { right. apply aget_In. exact Hname. }
  destruct (promote_loop_outcome p0 m0 p0 i0)
    as [(i1 & -> & Hincl) | (k & ->)]; [| exists k; reflexivity].
  cbn [bind].
  destruct (forM_must_raise
              (fun refs n =>
                 pkgs <- lookup n m0 ;;
                 Ok (fold_left (add_reference n) pkgs refs))
              i1 name) with (s := @nil (string * list string))
    as (k & ->).
  - intros s x. destruct (lookup_outcome x m0) as [(l & ->) | (k & ->)].
    + left. eexists. reflexivity.
    + right. exists k. reflexivity.
  - intros s. unfold lookup. rewrite Hm. exists name. reflexivity.
  - apply Hincl. exact Hi.
  - exists k. reflexivity.
Qed.

End ReceiptTableFacts.

(* ================================================================= *)
(** ** The detection helpers *)

Section DetectFacts.

Context {W : Type} {collab : Oracles W} {host : HostOracles W}.

Lemma compareVersions_answers (a b : pval) :
  compareVersions a b = (-1)%Z \/ compareVersions a b = 1%Z \/
  compareVersions a b = 2%Z.
Proof. unfold compareVersions. destruct (looseCompare a b); auto. Qed.

Lemma version_against_answers (installedvers minupvers vers : pval) :
  documented_answer
    (CmpVal (Detect.version_against installedvers minupvers vers)).
Proof.
  unfold Detect.version_against, documented_answer.
  destruct (truthy installedvers); [| auto].
  destruct (truthy minupvers
            && (compareVersions installedvers minupvers <? 1)%Z); [auto |].
  destruct (compareVersions_answers installedvers vers) as [-> | [-> | ->]];
    auto.
Qed.

Lemma compareBundleVersion_answers (w : W) (item : dict) (r : cmp_result) :
  Detect.compareBundleVersion w item = Ok r -> documented_answer r.
Proof.
  unfold Detect.compareBundleVersion. intros H.
  destruct (ahas "path" item && ahas "CFBundleShortVersionString" item).
  2: { apply Ok_inj in H. subst r. exact I. }
  inv_bind H. inv_bind H.
  destruct (negb (path_exists w (Detect.info_plist_path x0 "Contents"))
            && negb (path_exists w
                       (Detect.info_plist_path x0 "Resources"))).
  { apply Ok_inj in H. subst r. simpl. auto. }
  destruct (readPlist w _) as [plist |]; apply Ok_inj in H; subst r.
  - apply version_against_answers.
  - simpl. auto.
Qed.

Lemma compare_apps_answers (minupvers versionstring : pval)
  (appinfo : list dict) (c : Z) :
  Detect.compare_apps minupvers versionstring appinfo = Ok c ->
  documented_answer (CmpVal c).
Proof.
  induction appinfo as [| item rest IH]; cbn [Detect.compare_apps];
    intros H.
  - apply Ok_inj in H. subst c. simpl. auto.
  - inv_bind H. inv_bind H. destruct x0.
    { apply Ok_inj in H. subst c. simpl. auto. }
    destruct (aget "version" item) as [v |]; [| apply IH; exact H].
    cbv zeta in H.
    destruct (compareVersions v versionstring =? 1)%Z.
    { apply Ok_inj in H. subst c. simpl. auto. }
    destruct (compareVersions v versionstring =? 2)%Z.
    { apply Ok_inj in H. subst c. simpl. auto. }
    apply IH. exact H.
Qed.

Lemma compareApplicationVersion_answers (w : W) (app : dict)
  (r : cmp_result) :
  Detect.compareApplicationVersion w app = Ok r -> documented_answer r.
Proof.
  unfold Detect.compareApplicationVersion. intros H.
  inv_bind H. destruct x.
  { eapply compareBundleVersion_answers. exact H. }
  cbv zeta in H.
  destruct (pval_eqb (get_default "CFBundleName" (PStr "") app) (PStr "")
            && pval_eqb (get_default "CFBundleIdentifier" (PStr "") app)
                        (PStr "")).
  { destruct (ahas "path" app); apply Ok_inj in H; subst r; simpl; auto. }
  inv_bind H. destruct x as [| item rest].
  { apply Ok_inj in H. subst r. simpl. auto. }
  inv_bind H. apply Ok_inj in H. subst r.
  eapply compare_apps_answers. exact E1.
Qed.

(** X26.  Whatever is on the disk, [compareItemVersion] and
    [compareReceiptVersion] answer -1, 0, 1 or 2 (or raise
    [munkicommon.Error]): these are the cases that [installedState] and
    [someVersionInstalled] tell apart. *)
Theorem compareItemVersion_documented_answers (w : W) (item : dict)
  (r : cmp_result) :
  Detect.compareItemVersion w item = Ok r \/
  Detect.compareReceiptVersion w item = Ok r ->
  documented_answer r.
Proof.
  intros [H | H].
  - unfold Detect.compareItemVersion in H. cbv zeta in H.
    destruct (pval_eqb (dget "type" item) (PStr "application")).
    { eapply compareApplicationVersion_answers. exact H. }
    destruct (pval_eqb (dget "type" item) (PStr "bundle")).
    { eapply compareBundleVersion_answers. exact H. }
    destruct (pval_eqb (dget "type" item) (PStr "plist")).
    { unfold Detect.comparePlistVersion in H.
      destruct (ahas "path" item
                && ahas "CFBundleShortVersionString" item).
      2: { apply Ok_inj in H. subst r. exact I. }
      inv_bind H. inv_bind H.
      destruct (negb (path_exists w x)).
      { apply Ok_inj in H. subst r. simpl. auto. }
      destruct (readPlist w x) as [plist |]; apply Ok_inj in H; subst r.
      - apply version_against_answers.
      - simpl. auto. }
    destruct (pval_eqb (dget "type" item) (PStr "file")).
    { unfold Detect.filesystemItemExists in H.
      destruct (ahas "path" item).
      2: { apply Ok_inj in H. subst r. exact I. }
      inv_bind H. destruct (lexists w x).
      2: { apply Ok_inj in H. subst r. simpl. auto. }
      destruct (ahas "md5checksum" item).
      2: { apply Ok_inj in H. subst r. simpl. auto. }
      inv_bind H.
      destruct (pval_eqb x0 (PStr (getmd5hash w x)));
        apply Ok_inj in H; subst r; simpl; auto. }
    apply Ok_inj in H. subst r. exact I.
  - unfold Detect.compareReceiptVersion in H.
    destruct (ahas "packageid" item && ahas "version" item).
    2: { apply Ok_inj in H. subst r. exact I. }
    inv_bind H. inv_bind H. inv_bind H.
    destruct (truthy x1); apply Ok_inj in H; subst r; simpl; [| auto].
    destruct (compareVersions_answers x1 x0) as [-> | [-> | ->]]; auto.
Qed.

(** X27.  An application is reported as older (-1) by the search of
    the application data only when no copy that was found is of the
    version asked for or newer. *)
Theorem compare_apps_older_means_all_older (minupvers versionstring : pval)
  (appinfo : list dict) :
  Detect.compare_apps minupvers versionstring appinfo = Ok (-1)%Z ->
  forall item v,
    In item appinfo -> aget "version" item = Some v ->
    compareVersions v versionstring = (-1)%Z.
Proof.
  induction appinfo as [| app rest IH]; cbn [Detect.compare_apps];
    intros H item v Hin Hv; [contradiction |].
  inv_bind H. inv_bind H. destruct x0; [discriminate |].
  destruct Hin as [-> | Hin].
  - rewrite Hv in H. cbv zeta in H.
    destruct (compareVersions_answers v versionstring) as [Hc | [Hc | Hc]];
      [exact Hc | |]; rewrite Hc in H; discriminate.
  - destruct (aget "version" app) as [v' |].
    + cbv zeta in H.
      destruct (compareVersions v' versionstring =? 1)%Z; [discriminate |].
      destruct (compareVersions v' versionstring =? 2)%Z; [discriminate |].
      eapply IH; eassumption.
    + eapply IH; eassumption.
Qed.

Lemma forM_skip {A S : Type} (body : S -> A -> res S) (xs ys : list A)
  (x : A) (s : S) :
  (forall s', body s' x = Ok s') ->
  forM body (xs ++ x :: ys) s = forM body (xs ++ ys) s.
Proof.
  intros Hx. revert s.
  induction xs as [| a xs IH]; intros s; cbn [app].
  - rewrite forM_cons, Hx. reflexivity.
  - rewrite !forM_cons. destruct (body s a); cbn [bind]; auto.
Qed.

Lemma match_app_skips (name bundleid : pval) (appinfo : list dict)
  (item : dict) (path : string) :
  aget "path" item = Some (PStr path) ->
  Detect.in_users_home path = true ->
  ahas "name" item = true ->
  Detect.match_app name bundleid appinfo item = Ok appinfo.
Proof.
  intros Hp Hh Hn. unfold Detect.match_app, ahas, getitem in *.
  rewrite Hp. cbn [bind str_method]. rewrite Hh.
  destruct (aget "name" item); [reflexivity | discriminate].
Qed.

(** X28.  Applications in the home directory of a user (in [/Users] but
    not in [/Users/Shared]) never count: one more of them in the
    application data leaves the answer of [compareApplicationVersion]
    as it is. *)
Theorem compareApplicationVersion_skips_home_apps (w w' : W) (app : dict)
  (before after : list dict) (item : dict) (path : string) :
  (forall p, path_exists w' p = path_exists w p) ->
  (forall p, readPlist w' p = readPlist w p) ->
  getAppData w = before ++ after ->
  getAppData w' = before ++ item :: after ->
  aget "path" item = Some (PStr path) ->
  Detect.in_users_home path = true ->
  ahas "name" item = true ->
  Detect.compareApplicationVersion w' app
  = Detect.compareApplicationVersion w app.
Proof.
  intros Hex Hrd Hw Hw' Hp Hh Hn.
  unfold Detect.compareApplicationVersion, Detect.compareBundleVersion.
  rewrite Hw, Hw'.
  rewrite (@forM_skip _ _
             (Detect.match_app
                (get_default "CFBundleName" (PStr "") app)
                (get_default "CFBundleIdentifier" (PStr "") app))
             before after item)
    by (intros appinfo; eapply match_app_skips; eassumption).
  destruct (ahas "path" app && ahas "CFBundleShortVersionString" app).
  - destruct (getitem "path" app) as [v | e |]; cbn [bind];
      try reflexivity.
    destruct (str_method v) as [p | e |]; cbn [bind]; try reflexivity.
    rewrite !Hex.
    destruct (path_exists w (Detect.info_plist_path p "Contents")) eqn:E1.
    + destruct (getitem "CFBundleShortVersionString" app); cbn [bind];
        try reflexivity.
      rewrite ?Hex, ?E1. cbn [negb andb]. rewrite ?Hrd. reflexivity.
    + reflexivity.
  - reflexivity.
Qed.

End DetectFacts.

(* ================================================================= *)
(** ** Evidence for a removal *)

Section EvidenceFacts.

Context {W : Type} {collab : Oracles W}.
Variable G : globals.

(** X29.  For an item that is uninstalled by removing packages, only
    its receipts are evidence that it is installed: the files named by
    [installs] are not looked at, and the answer is [True] only when the
    name is among the names that the analysis of the installed packages
    found. *)
Theorem evidenceThisIsInstalled_removepackages (item_pl : dict)
  (st st' : state W) :
  dget "uninstall_method" item_pl = PStr "removepackages" ->
  evidenceThisIsInstalled G item_pl st = Ok (true, st') ->
  truthy (dget "receipts" item_pl) = true /\
  exists pd name,
    PKGDATA st' = Some pd /\ aget "name" item_pl = Some name /\
    existsb (pval_eqb name) (map PStr (installed_names pd)) = true.
Proof.
  intros Hm H. unfold evidenceThisIsInstalled in H. rewrite Hm in H.
  cbn [pval_eqb] in H.
  replace (String.eqb "removepackages" "removepackages") with true in H
    by reflexivity.
  cbn [negb] in H. rewrite andb_false_r in H. cbn [bind] in H.
  destruct (truthy (dget "receipts" item_pl)); [| discriminate].
  split; [reflexivity |].
  inv_bind H. inv_bind H. apply Ok_inj in H. injection H as Hb <-.
  exists x, x0. split; [reflexivity |]. split; [| exact Hb].
  unfold getitem in E0. destruct (aget "name" item_pl); [| discriminate].
  apply Ok_inj in E0. subst. reflexivity.
Qed.

End EvidenceFacts.

(* ================================================================= *)
(** ** getAllItemsWithName over catalogs built by makeCatalogDB *)

Lemma table_add_filed_once (k1 k2 : string) (i : nat) (t : table) :
  versions_filed_once t -> versions_filed_once (table_add k1 k2 i t).
Proof.
  unfold versions_filed_once, table_add. intros Ht k inner H.
  rewrite aget_aset in H.
  destruct (String.eqb k k1) eqn:E.
  - apply String.eqb_eq in E. subst k.
    apply Some_inj in H. subst inner. apply NoDup_akeys_aset.
    destruct (aget k1 t) as [i0 |] eqn:E1; [eapply Ht; exact E1 |].
    constructor.
  - eapply Ht. exact H.
Qed.

Lemma index_item_filed_once (tables tables' : table * table)
  (entry : nat * dict) :
  versions_filed_once (fst tables) ->
  index_item tables entry = Ok tables' ->
  versions_filed_once (fst tables').
Proof.
  destruct tables as [nt pt]. destruct entry as [i item].
  unfold index_item. intros Ht H.
  inv_bind H. inv_bind H. inv_bind H. apply Ok_inj in H. subst tables'.
  cbn [fst] in *. apply table_add_filed_once. exact Ht.
Qed.

Lemma makeCatalogDB_filed_once (catalogitems store : list dict)
  (db : pkgdb) :
  makeCatalogDB catalogitems = (store, Ok db) ->
  versions_filed_once (named db).
Proof.
  unfold makeCatalogDB. intros H.
  destruct (forM index_item (enumerate catalogitems) ([], []))
    as [[nt pt] | |] eqn:E; try (injection H as _ H; discriminate).
  injection H as _ H. subst db. cbn [named].
  change nt with (fst (nt, pt)).
  refine (@forM_invariant _ _ (fun tables => versions_filed_once (fst tables))
            index_item (enumerate catalogitems) _ ([], []) (nt, pt) _ E).
  - intros s x s' _ Hs Hb. eapply index_item_filed_once; eassumption.
  - intros k inner Hk. discriminate.
Qed.

Lemma In_sort_insert {A : Type} (cmp : A -> A -> comparison) (x y : A)
  (l : list A) :
  In y (sort_insert cmp x l) -> y = x \/ In y l.
Proof.
  induction l as [| z l IH]; simpl.
  - intros [<- | []]. left. reflexivity.
  - destruct (cmp x z); simpl.
    + intros [<- | H]; auto.
    + intros [<- | H]; auto.
    + intros [<- | H]; [auto |]. destruct (IH H); auto.
Qed.

Lemma In_py_sort {A : Type} (cmp : A -> A -> comparison) (y : A)
  (l : list A) :
  In y (py_sort cmp l) -> In y l.
Proof.
  unfold py_sort. induction l as [| x l IH]; simpl; [auto |].
  intros H. apply In_sort_insert in H. destruct H as [-> | H]; auto.
Qed.

Section AllItemsFacts.

Context {W : Type} {collab : Oracles W}.
Variable G : globals.

Lemma add_items_from (catalogitems : list dict) (indexlist : list nat)
  (itemlist itemlist' : list dict) (P : dict -> Prop) :
  (forall index item,
      In index indexlist -> nth_error catalogitems index = Some item ->
      ahas "version" item = true -> P item) ->
  Forall P itemlist ->
  add_items catalogitems indexlist itemlist = Ok itemlist' ->
  Forall P itemlist'.
Proof.
  revert itemlist.
  induction indexlist as [| index rest IH]; cbn [add_items];
    intros itemlist Hp Hl H.
  - apply Ok_inj in H. subst. exact Hl.
  - destruct (nth_error catalogitems index) as [thisitem |] eqn:En;
      [| discriminate].
    assert (Hrest : forall index item,
               In index rest -> nth_error catalogitems index = Some item ->
               ahas "version" item = true -> P item)
      by (intros i it Hi; apply Hp; right; exact Hi).
    destruct (existsb (dict_eqb thisitem) itemlist).
    + eapply IH; eassumption.
    + inv_bind H. eapply IH; [exact Hrest | | exact H].
      apply Forall_app. split; [exact Hl |].
      constructor; [| constructor].
      apply (Hp index); [left; reflexivity | exact En |].
      unfold getitem in E. unfold ahas.
      destruct (aget "version" thisitem); [reflexivity | discriminate].
Qed.

Hypothesis catalogs_built :
  forall catalogname db,
    aget catalogname (CATALOG G) = Some db -> built_by_makeCatalogDB db.

Lemma add_catalog_named (name : string) (itemlist itemlist' : list dict)
  (catalogname : string) :
  let P := fun item : dict =>
             get_default "name" (PStr "NO NAME") item = PStr name /\
             ahas "version" item = true in
  Forall P itemlist ->
  add_catalog G name itemlist catalogname = Ok itemlist' ->
  Forall P itemlist'.
Proof.
  intros P Hl H. unfold add_catalog in H.
  destruct (aget catalogname (CATALOG G)) as [db |] eqn:Ec.
  2: { apply Ok_inj in H. subst. exact Hl. }
  destruct (aget name (named db)) as [versionsmatchingname |] eqn:En.
  2: { apply Ok_inj in H. subst. exact Hl. }
  destruct (catalogs_built _ Ec) as (catalogitems & Hb).
  assert (Hnd := makeCatalogDB_filed_once _ Hb _ En).
  refine (@forM_invariant _ _ (Forall P) (add_versions (items db))
            versionsmatchingname _ itemlist itemlist' Hl H).
  intros s [vers indexlist] s' Hin Hs Hbody. unfold add_versions in Hbody.
  destruct (String.eqb vers "latest").
  { apply Ok_inj in Hbody. subst. exact Hs. }
  eapply add_items_from; [| exact Hs | exact Hbody].
  intros index item Hi Hnth Hv. split; [| exact Hv].
  assert (Hhas : table_has (named db) name vers index).
  { exists versionsmatchingname, indexlist. split; [exact En |].
    split; [apply NoDup_akeys_aget; assumption | exact Hi]. }
  apply (@makeCatalogDB_named _ _ _ name vers index Hb) in Hhas.
  destruct Hhas as (original & Ho & Hname & _).
  assert (Hs' := makeCatalogDB_store catalogitems index).
  rewrite Hb in Hs'. cbn [fst snd] in Hs'. rewrite Ho, Hnth in Hs'.
  apply Some_inj in Hs'. subst item. unfold get_default in *.
  destruct (has_update_for original); [| exact Hname].
  rewrite fix_update_for_other by discriminate. exact Hname.
Qed.

(** X30.  Over catalogs that [makeCatalogDB] built, every item that
    [getAllItemsWithName] returns carries the name that was asked for
    (without the version that came with it) and has a version. *)
Theorem getAllItemsWithName_only_that_name (name : string)
  (cataloglist : list string) (base includedversion : string)
  (itemlist : list dict) :
  nameAndVersion name = Ok (base, includedversion) ->
  getAllItemsWithName G name cataloglist = Ok itemlist ->
  forall item,
    In item itemlist ->
    get_default "name" (PStr "NO NAME") item = PStr base /\
    ahas "version" item = true.
Proof.
  intros Hnv H item Hin. unfold getAllItemsWithName in H.
  rewrite Hnv in H. cbn [bind] in H. inv_bind H. apply Ok_inj in H.
  subst itemlist. apply In_py_sort in Hin.
  assert (Hall : Forall (fun item : dict =>
                           get_default "name" (PStr "NO NAME") item
                           = PStr base /\
                           ahas "version" item = true) x).
  { refine (@forM_invariant _ _ _ (add_catalog G base) cataloglist _
              [] x (Forall_nil _) E).
    intros s c s' _ Hs Hb. eapply add_catalog_named; eassumption. }
  rewrite Forall_forall in Hall. apply Hall. exact Hin.
Qed.

End AllItemsFacts.

(* ================================================================= *)
(** ** The properties on the sample data *)

Lemma sample_catalogs_built :
  forall catalogname db,
    aget catalogname (CATALOG sample_globals) = Some db ->
    built_by_makeCatalogDB db.
Proof.
  intros catalogname db H. cbn [CATALOG sample_globals aget] in H.
  destruct (String.eqb catalogname "production"); [| discriminate].
  injection H as <-. exists [sample_A; sample_C]. reflexivity.
Qed.

Lemma nameAndVersion_parts_rejoin_witness :
  ("2.3b1" = "" /\ "TextWrangler" = "TextWrangler-2.3b1") \/
  (exists delim c rest,
      (delim = "--" \/ delim = "-") /\
      "TextWrangler-2.3b1" = ("TextWrangler" ++ delim ++ "2.3b1")%string /\
      "2.3b1" = String c rest /\ PyStr.is_digit c = true).
Proof.
  apply (@nameAndVersion_parts_rejoin "TextWrangler-2.3b1" "TextWrangler"
           "2.3b1").
  reflexivity.
Defined.

Lemma nameAndVersion_of_joined_witness :
  nameAndVersion ("Adobe-Reader" ++ "--" ++ "9.3.1")
  = Ok ("Adobe-Reader", "9.3.1").
Proof.
  apply (@nameAndVersion_of_joined "Adobe-Reader" "9.3.1" "--" "9" ".3.1");
    try reflexivity.
  left. reflexivity.
Defined.

Lemma trimVersionString_drops_trailing_zero_witness :
  trimVersionString ("10.6" ++ ".0") = trimVersionString "10.6".
Proof.
  apply (@trimVersionString_drops_trailing_zero "10.6"). reflexivity.
Defined.

Lemma makeCatalogDB_name_table_exact_witness :
  table_has (named (catalog_of [sample_A; sample_C])) "C" "2.0" 1 <->
  exists item, nth_error [sample_A; sample_C] 1 = Some item /\
               indexed_as item "C" "2.0".
Proof.
  apply (@makeCatalogDB_name_table_exact [sample_A; sample_C]
           (fst (makeCatalogDB [sample_A; sample_C]))
           (catalog_of [sample_A; sample_C]) "C" "2.0" 1).
  reflexivity.
Defined.

Lemma getItemDetail_returns_requested_witness :
  aget "name" sample_C = Some (PStr "C") /\
  exists s,
    aget "version" sample_C = Some (PStr s) /\
    forall requested,
      requested = (if String.eqb "" "" then "2.0" else "") ->
      requested <> "" -> trimVersionString requested <> "latest" ->
      trimVersionString s = trimVersionString requested.
Proof.
  apply (@getItemDetail_returns_requested machine machine_oracles
           sample_globals sample_catalogs_built "C-2.0" ["production"] ""
           "C" "2.0" sample_C);
    reflexivity.
Defined.

Lemma lookForUpdates_only_declared_updates_witness :
  exists catalogname db u updater,
    In catalogname ["production"] /\
    aget catalogname (CATALOG update_globals) = Some db /\
    In u (updaters db) /\ nth_error (items db) u = Some updater /\
    aget "name" updater = Some (PStr "PhotoshopUpdate") /\
    py_in (PStr "Photoshop") (get_default "update_for" (PList []) updater)
    = Ok true.
Proof.
  apply (@lookForUpdates_only_declared_updates update_globals (PStr "Photoshop") ["production"]
           [PStr "PhotoshopUpdate"] (PStr "PhotoshopUpdate")).
  - reflexivity.
  - left. reflexivity.
Defined.

Lemma processInstall_only_appends_installs_witness :
  processed_uninstalls (info state_after_C) = [] /\
  removals (info state_after_C) = [] /\
  managed_updates (info state_after_C) = [] /\
  optional_installs (info state_after_C) = [] /\
  PKGDATA state_after_C = None /\
  (exists added, processed_installs (info state_after_C) = [] ++ added) /\
  (exists records, managed_installs (info state_after_C) = [] ++ records).
Proof.
  apply (@processInstall_only_appends_installs machine machine_oracles
           sample_globals 5 "C" ["production"] (start_state empty_machine)
           true state_after_C).
  reflexivity.
Defined.

Lemma processRemoval_only_appends_removals_witness :
  processed_installs (info (state_after_removal_X false)) = [] /\
  managed_installs (info (state_after_removal_X false)) = [] /\
  managed_updates (info (state_after_removal_X false)) = [] /\
  optional_installs (info (state_after_removal_X false)) = [] /\
  (exists added,
      processed_uninstalls (info (state_after_removal_X false))
      = [] ++ added) /\
  (exists records,
      removals (info (state_after_removal_X false)) = [] ++ records).
Proof.
  apply (@processRemoval_only_appends_removals machine machine_oracles
           receipt_globals 5 "X" ["production"]
           (start_state (receipt_machine false)) false
           (state_after_removal_X false)).
  reflexivity.
Defined.

Lemma processInstall_unknown_item_witness :
  processInstall sample_globals 1 "B" ["production"]
    (start_state empty_machine)
  = Ok (str_in (PyStr.basename "B")
               (processed_installs (info (start_state empty_machine))),
        start_state empty_machine).
Proof.
  apply (@processInstall_unknown_item machine machine_oracles sample_globals
           0 "B" ["production"] (start_state empty_machine) "B" "");
    reflexivity.
Defined.

Lemma processRemoval_twice_witness :
  exists name includedversion names,
    nameAndVersion (PyStr.basename "X") = Ok (name, includedversion) /\
    install_basenames
      (processed_installs (info (state_after_removal_X false))) = Ok names /\
    processRemoval receipt_globals 1 "X" ["production"]
      (state_after_removal_X false)
    = Ok (negb (str_in name names), state_after_removal_X false).
Proof.
  apply (@processRemoval_twice machine machine_oracles receipt_globals 5 0
           "X" ["production"] ["production"]
           (start_state (receipt_machine false)) false
           (state_after_removal_X false)).
  reflexivity.
Defined.

Lemma processManagedUpdate_only_for_installed_witness :
  state_after_update_C = start_state machine_with_C \/
  exists item_pl,
    getItemDetail sample_globals "C" ["production"] "" = Ok (Some item_pl) /\
    someVersionInstalled (world (start_state machine_with_C)) item_pl
    = Ok true /\
    ~ In (PyStr.basename "C")
         (managed_updates (info (start_state machine_with_C))) /\
    In (PyStr.basename "C") (managed_updates (info state_after_update_C)).
Proof.
  apply (@processManagedUpdate_only_for_installed machine machine_oracles
           sample_globals 5 "C" ["production"] (start_state machine_with_C)
           state_after_update_C).
  reflexivity.
Defined.

Lemma getAutoRemovalItems_filters_processed_witness :
  (exists l catalogname db,
      Some ["production"] = Some l /\ In catalogname l /\
      aget catalogname (CATALOG autoremove_globals) = Some db /\
      In (PStr "R") (autoremoveitems db)) /\
  (forall name b v,
      In name (processed_installs empty_installinfo) ->
      nameAndVersion name = Ok (b, v) -> PStr "R" <> PStr b) /\
  (forall name,
      In name (processed_uninstalls empty_installinfo) ->
      PStr "R" <> PStr name).
Proof.
  apply (@getAutoRemovalItems_filters_processed autoremove_globals
           empty_installinfo (Some ["production"]) [PStr "R"] (PStr "R")).
  - reflexivity.
  - left. reflexivity.
Defined.

Lemma getAutoRemovalItems_returns_after_run_witness :
  exists autoremovalitems,
    getAutoRemovalItems sample_globals (info state_after_install_C)
      (Some ["production"])
    = Ok autoremovalitems.
Proof.
  apply (@getAutoRemovalItems_returns_after_run machine machine_oracles
           sample_globals 5
           [sample_request sample_globals managed_installs_key ["C"]]
           (start_state empty_machine) state_after_install_C
           (Some ["production"])).
  - constructor.
  - reflexivity.
Defined.

Lemma processOptionalInstall_only_lists_witness :
  world state_after_optional_C = world (start_state empty_machine) /\
  PKGDATA state_after_optional_C = PKGDATA (start_state empty_machine) /\
  processed_installs (info state_after_optional_C) = [] /\
  processed_uninstalls (info state_after_optional_C) = [] /\
  managed_updates (info state_after_optional_C) = [] /\
  managed_installs (info state_after_optional_C) = [] /\
  removals (info state_after_optional_C) = [] /\
  (optional_installs (info state_after_optional_C) = [] \/
   exists iteminfo,
     optional_installs (info state_after_optional_C) = [] ++ [iteminfo]).
Proof.
  apply (@processOptionalInstall_only_lists machine machine_oracles
           machine_host sample_globals "C" ["production"]
           (start_state empty_machine) state_after_optional_C).
  reflexivity.
Defined.

Lemma processOptionalInstall_installed_size_witness :
  aget "installed_size" optional_record_S
  = aget "installer_item_size" optional_record_S.
Proof.
  apply (@processOptionalInstall_installed_size machine machine_oracles
           machine_host sized_globals "S" ["production"]
           (start_state empty_machine) state_after_optional_S
           optional_record_S);
    reflexivity.
Defined.

Lemma processOptionalInstall_twice_witness :
  processOptionalInstall sample_globals "C" ["production"]
    state_after_optional_C
  = Ok state_after_optional_C.
Proof.
  apply (@processOptionalInstall_twice machine machine_oracles machine_host
           sample_globals sample_catalogs_built "C" ["production"]
           (start_state empty_machine) state_after_optional_C);
    reflexivity.
Defined.

Lemma getDownloadCachePath_basename_witness :
  getInstallerItemBasename (W := machine) (PStr "apps/C.dmg")
  = Ok (PyStr.basename "/Library/Managed Installs/Cache/C.dmg").
Proof.
  apply (@getDownloadCachePath_basename machine machine_oracles
           "/Library/Managed Installs/Cache" (PStr "apps/C.dmg")
           "/Library/Managed Installs/Cache/C.dmg").
  reflexivity.
Defined.

Lemma enoughDiskSpace_without_pending_witness :
  enoughDiskSpace empty_machine sample_C [] false = Ok true.
Proof.
  apply (@enoughDiskSpace_without_pending machine machine_oracles
           machine_host empty_machine sample_C [] [pending_record_C] false).
  - constructor; [| constructor].
    intros z H. vm_compute in H. injection H as <-. discriminate.
  - reflexivity.
Defined.

Lemma makePredicateInfoObject_built_once_witness :
  makePredicateInfoObject [("os_vers", PStr "11.0")] [] sample_info_object
  = Ok sample_info_object.
Proof.
  apply (@makePredicateInfoObject_built_once machine machine_host
           sample_machine_facts [] [("os_vers", PStr "11.0")] [] []
           sample_info_object).
  reflexivity.
Defined.

Lemma getCatalogs_keeps_loaded_catalogs_witness :
  (forall c db, aget c (@nil (string * pkgdb)) = Some db ->
                aget c loaded_catalogs = Some db) /\
  (forall c db, aget c loaded_catalogs = Some db ->
                aget c (@nil (string * pkgdb)) = Some db \/
                (In c ["production"; "testing"] /\
                 aget c (@nil (string * pkgdb)) = None /\
                 built_by_makeCatalogDB db)).
Proof.
  apply (@getCatalogs_keeps_loaded_catalogs machine machine_oracles
           machine_host ["production"; "testing"] [] loaded_catalogs
           (receipt_machine false) (receipt_machine false)).
  reflexivity.
Defined.

Lemma installedState_implies_someVersionInstalled_witness :
  someVersionInstalled machine_with_C sample_C = Ok true /\
  (1%Z = 1%Z \/ 1%Z = 2%Z).
Proof.
  apply (@installedState_implies_someVersionInstalled machine machine_oracles
           machine_with_C sample_C 1%Z);
    [reflexivity | reflexivity | discriminate].
Defined.

Lemma checkForceInstallPackages_only_sets_unattended_witness :
  List.length [overdue_unattended] = List.length [overdue_plain] /\
  (forall j install,
      nth_error [overdue_plain] j = Some install ->
      exists install',
        nth_error [overdue_unattended] j = Some install' /\
        marked_unattended install install') /\
  (true = false -> [overdue_unattended] = [overdue_plain]).
Proof.
  apply (@checkForceInstallPackages_only_sets_unattended utc 10
           (installinfo_plist [overdue_plain]) [overdue_plain] (Some now)
           [overdue_unattended] true);
    reflexivity.
Defined.

Lemma analyzeInstalledPkgs_receipts_without_packageid_witness :
  exists k,
    analyzeInstalledPkgs broken_receipt_globals empty_machine
    = Raise (KeyError k).
Proof.
  apply (@analyzeInstalledPkgs_receipts_without_packageid machine
           machine_oracles broken_receipt_globals empty_machine
           [("N", [])] "N");
    reflexivity.
Defined.

Lemma compareItemVersion_documented_answers_witness :
  documented_answer (CmpVal 1).
Proof.
  apply (@compareItemVersion_documented_answers machine machine_oracles
           machine_host (receipt_machine true) file_wanted (CmpVal 1)).
  left. reflexivity.
Defined.

Lemma compare_apps_older_means_all_older_witness :
  compareVersions (W := machine) (PStr "4.0") (PStr "5.0") = (-1)%Z.
Proof.
  apply (@compare_apps_older_means_all_older machine machine_oracles
           PNone (PStr "5.0") [safari_installed]
           eq_refl safari_installed (PStr "4.0"));
    [left; reflexivity | reflexivity].
Defined.

Lemma compareApplicationVersion_skips_home_apps_witness :
  Detect.compareApplicationVersion
    (empty_machine, [safari_at_home; safari_installed]) safari_wanted
  = Detect.compareApplicationVersion
      (empty_machine, [safari_installed]) safari_wanted.
Proof.
  apply (@compareApplicationVersion_skips_home_apps profiled_machine
           profiled_oracles profiled_host
           (empty_machine, [safari_installed])
           (empty_machine, [safari_at_home; safari_installed])
           safari_wanted [] [safari_installed] safari_at_home
           "/Users/alice/Applications/Safari.app");
    try reflexivity; intros p; reflexivity.
Defined.

Lemma evidenceThisIsInstalled_removepackages_witness :
  truthy (dget "receipts" sample_X) = true /\
  exists pd name,
    PKGDATA receipt_state = Some pd /\ aget "name" sample_X = Some name /\
    existsb (pval_eqb name) (map PStr (installed_names pd)) = true.
Proof.
  apply (@evidenceThisIsInstalled_removepackages machine machine_oracles
           receipt_globals sample_X receipt_state receipt_state);
    reflexivity.
Defined.

Lemma getAllItemsWithName_only_that_name_witness :
  get_default "name" (PStr "NO NAME") sample_C = PStr "C" /\
  ahas "version" sample_C = true.
Proof.
  apply (@getAllItemsWithName_only_that_name machine machine_oracles
           sample_globals sample_catalogs_built "C-2.0" ["production"]
           "C" "2.0" [sample_C]);
    [reflexivity | reflexivity | left; reflexivity].
Defined.
